(** * The Hyperliquid async client: signing and submission pipeline

    A shallow embedding of [client.py].  Python values are a small inductive
    type, exceptions are data, and the methods of [HyperLiquidClient] are
    functions in a state-and-exception monad over the client object and the
    outside world (wall clock, exchange).  The third-party primitives the
    module imports ([keccak], [msgpack.packb], [encode_structured_data],
    [Account.from_key]) are section variables: every result holds for any
    behaviour of those libraries. *)

From Stdlib Require Import ZArith List String Ascii Bool Lia.
From Stdlib Require Import Floats.SpecFloat.
From stdpp Require Import base option list strings gmap.
Import ListNotations.

Set Warnings "-register-all".
Open Scope string_scope.
Open Scope list_scope.
Open Scope Z_scope.

(** ** Python values and exceptions *)

Abbreviation bytes := (list Byte.byte).

(** The values that flow through the client: JSON-like data, plus [bytes]
    (the connection hash) and [float] (prices and sizes).  A [dict] keeps
    its insertion order, which is what [msgpack] and [json] serialise. *)
Inductive value : Type :=
| VNone
| VBool (b : bool)
| VInt (n : Z)
| VFloat (x : spec_float)
| VStr (s : string)
| VBytes (bs : bytes)
| VList (xs : list value)
| VDict (kvs : list (string * value)).

(** Exceptions.  [ClientError] and [ServerError] are the two classes the
    module defines, with the attributes their [__init__] stores.
    [Unmodelled] marks library behaviour outside this model's domain. *)
Inductive exn : Type :=
| ValueError (msg : string) (arg : value)
| OverflowError (msg : string)
| KeyError (key : value)
| IndexError
| TypeError (msg : string)
| AttributeError (attr : string)
| RuntimeError (msg : string)
| JSONDecodeError
| ContentTypeError
| ClientError (status_code : Z) (error_code error_message header error_data : value)
| ServerError (status_code : Z) (message : string)
| LibraryError (origin : string)
| Unmodelled (what : string).

Inductive result (A : Type) : Type :=
| Ok (a : A)
| Raise (e : exn).
Arguments Ok {A} a.
Arguments Raise {A} e.

#[global] Instance result_ret : MRet result := fun _ a => Ok a.
#[global] Instance result_bind : MBind result := fun _ _ f r =>
  match r with
  | Ok a => f a
  | Raise e => Raise e
  end.

Definition is_ok {A} (r : result A) : bool :=
  match r with Ok _ => true | Raise _ => false end.

(** ** Dictionaries, subscripts and truth *)

Fixpoint dict_get (kvs : list (string * value)) (k : string) : option value :=
  match kvs with
  | [] => None
  | (k', v) :: rest => if String.eqb k' k then Some v else dict_get rest k
  end.

(** [v[k]] for a string key. *)
Definition subscript (v : value) (k : string) : result value :=
  match v with
  | VDict kvs =>
      match dict_get kvs k with
      | Some x => Ok x
      | None => Raise (KeyError (VStr k))
      end
  | VList _ | VStr _ | VBytes _ => Raise (TypeError "indices must be integers")
  | _ => Raise (TypeError "object is not subscriptable")
  end.

Definition nth_wrapped {A} (xs : list A) (i : Z) : option A :=
  let n := Z.of_nat (List.length xs) in
  if (0 <=? i) && (i <? n) then nth_error xs (Z.to_nat i)
  else if (- n <=? i) && (i <? 0) then nth_error xs (Z.to_nat (n + i))
  else None.

(** [v[i]] for an integer index. *)
Definition subscript_int (v : value) (i : Z) : result value :=
  match v with
  | VList xs =>
      match nth_wrapped xs i with
      | Some x => Ok x
      | None => Raise IndexError
      end
  | VStr s =>
      match nth_wrapped (list_ascii_of_string s) i with
      | Some c => Ok (VStr (String c EmptyString))
      | None => Raise IndexError
      end
  | VBytes bs =>
      match nth_wrapped bs i with
      | Some b => Ok (VInt (Z.of_N (Byte.to_N b)))
      | None => Raise IndexError
      end
  | VDict _ => Raise (KeyError (VInt i))
  | _ => Raise (TypeError "object is not subscriptable")
  end.

(** [v.get(k)]: only a [dict] has the method. *)
Definition py_get (v : value) (k : string) : result value :=
  match v with
  | VDict kvs => Ok (default VNone (dict_get kvs k))
  | _ => Raise (AttributeError "get")
  end.

(** [v == s] against a string constant: only an equal [str] is equal. *)
Definition eq_str (v : value) (s : string) : bool :=
  match v with
  | VStr t => String.eqb t s
  | _ => false
  end.

Definition truthy (v : value) : bool :=
  match v with
  | VNone => false
  | VBool b => b
  | VInt n => negb (n =? 0)
  | VFloat x =>
      match x with
      | S754_zero _ => false
      | _ => true
      end
  | VStr s => negb (String.eqb s EmptyString)
  | VBytes bs => negb (Nat.eqb (List.length bs) 0)
  | VList xs => negb (Nat.eqb (List.length xs) 0)
  | VDict kvs => negb (Nat.eqb (List.length kvs) 0)
  end.

(** What a [for] loop sees when it iterates over [v]. *)
Definition iterate (v : value) : result (list value) :=
  match v with
  | VList xs => Ok xs
  | VDict kvs => Ok (map (fun kv => VStr (fst kv)) kvs)
  | VStr s => Ok (map (fun c => VStr (String c EmptyString)) (list_ascii_of_string s))
  | VBytes bs => Ok (map (fun b => VInt (Z.of_N (Byte.to_N b))) bs)
  | _ => Raise (TypeError "object is not iterable")
  end.

Fixpoint is_substring_at (fuel : nat) (needle hay : string) : bool :=
  String.prefix needle hay ||
  match fuel, hay with
  | S fuel', String _ hay' => is_substring_at fuel' needle hay'
  | _, _ => false
  end.

(** [s in v] for a string [s]. *)
Definition str_in (s : string) (v : value) : result bool :=
  match v with
  | VDict kvs => Ok (bool_decide (is_Some (dict_get kvs s)))
  | VList xs => Ok (existsb (fun x => eq_str x s) xs)
  | VStr t => Ok (is_substring_at (String.length t) s t)
  | VBytes _ => Raise (TypeError "a bytes-like object is required, not 'str'")
  | _ => Raise (TypeError "argument is not iterable")
  end.

(** ** Bytes and hexadecimal text *)

Definition byte_of_Z (z : Z) : Byte.byte :=
  default Byte.x00 (Byte.of_N (Z.to_N (z mod 256))).

(** The [len] low bytes of [n], most significant first. *)
Fixpoint big_endian (len : nat) (n : Z) : bytes :=
  match len with
  | O => []
  | S k => byte_of_Z (n / 256 ^ Z.of_nat k) :: big_endian k n
  end.

(** [n.to_bytes(len, "big")]: unsigned, so a negative or oversized [n]
    raises [OverflowError]. *)
Definition to_bytes (n : Z) (len : nat) : result bytes :=
  if n <? 0 then Raise (OverflowError "can't convert negative int to unsigned")
  else if 256 ^ Z.of_nat len <=? n then Raise (OverflowError "int too big to convert")
  else Ok (big_endian len n).

Definition hex_digit_value (c : ascii) : option Z :=
  let n := Z.of_N (N_of_ascii c) in
  if (48 <=? n) && (n <=? 57) then Some (n - 48)
  else if (97 <=? n) && (n <=? 102) then Some (n - 87)
  else if (65 <=? n) && (n <=? 70) then Some (n - 55)
  else None.

Definition is_space (c : ascii) : bool :=
  let n := Z.of_N (N_of_ascii c) in
  ((9 <=? n) && (n <=? 13)) || (n =? 32).

Definition fromhex_error : exn :=
  ValueError "non-hexadecimal number found in fromhex() arg" VNone.

(** [bytes.fromhex(s)]: pairs of hexadecimal digits of either case, with
    ASCII whitespace allowed between (not inside) pairs. *)
Fixpoint fromhex (s : string) : result bytes :=
  match s with
  | EmptyString => Ok []
  | String c s1 =>
      if is_space c then fromhex s1
      else
        match hex_digit_value c, s1 with
        | Some hi, String d s2 =>
            match hex_digit_value d with
            | Some lo => bs ← fromhex s2; Ok (byte_of_Z (16 * hi + lo) :: bs)
            | None => Raise fromhex_error
            end
        | _, _ => Raise fromhex_error
        end
  end.

Definition hex_char (d : Z) : ascii :=
  ascii_of_N (Z.to_N (if d <? 10 then 48 + d else 87 + d)).

(** Digits of [n >= 0] in base [b], least significant first; [fuel] bounds
    the number of digits. *)
Fixpoint digits_le (fuel : nat) (b n : Z) : list Z :=
  match fuel with
  | O => []
  | S fuel' => if n <? b then [n] else n mod b :: digits_le fuel' b (n / b)
  end.

(** Digits of [n >= 0] in base [b >= 2], most significant first. *)
Definition digits (b n : Z) : list Z :=
  rev (digits_le (S (Z.to_nat (Z.log2 n))) b n).

(** The builtin [hex]: lower case, no padding, sign before the prefix. *)
Definition hex (n : Z) : string :=
  (if n <? 0 then "-0x" else "0x")
  +:+ string_of_list_ascii (map hex_char (digits 16 (Z.abs n))).

(** [eth_utils.to_hex] of an [int] is the builtin [hex]. *)
Definition to_hex (n : Z) : string := hex n.

(** ** The specification's reading of the byte layout

    Definitions that follow the specification's words; the results compare
    them with what the code computes. *)

(** The integer a byte string spells, most significant byte first. *)
Definition int_from_bytes (bs : bytes) : Z :=
  fold_left (fun acc b => 256 * acc + Z.of_N (Byte.to_N b)) bs 0.

(** "Optional [0x] prefix stripped". *)
Definition strip_0x (a : string) : string :=
  if String.prefix "0x" a then substring 2 (String.length a - 2) a else a.

(** "Hex-decoded": one byte per pair of hexadecimal digits. *)
Fixpoint hex_decode (s : string) : bytes :=
  match s with
  | String c (String d rest) =>
      byte_of_Z (16 * default 0 (hex_digit_value c) + default 0 (hex_digit_value d))
        :: hex_decode rest
  | _ => []
  end.

Definition is_hex_digit (c : ascii) : bool :=
  bool_decide (is_Some (hex_digit_value c)).

(** A 20-byte address in text: 40 hexadecimal digits of either case after
    the optional prefix. *)
Definition is_address (a : string) : bool :=
  Nat.eqb (String.length (strip_0x a)) 40
  && forallb is_hex_digit (list_ascii_of_string (strip_0x a)).

(** The integer a run of hexadecimal digits spells. *)
Definition int_of_hex (s : list ascii) : Z :=
  fold_left (fun acc c => 16 * acc + default 0 (hex_digit_value c)) s 0.

Definition is_lower_hex_digit (c : ascii) : bool :=
  let n := Z.of_N (N_of_ascii c) in
  ((48 <=? n) && (n <=? 57)) || ((97 <=? n) && (n <=? 102)).

(** [t] is the hexadecimal text of [n] without padding: the prefix [0x],
    then lower-case digits spelling [n], of which the first is not a zero
    unless [n] is zero. *)
Definition unpadded_hex (n : Z) (t : string) : Prop :=
  exists ds : list ascii,
    t = "0x" +:+ string_of_list_ascii ds
    /\ ds <> []
    /\ forallb is_lower_hex_digit ds = true
    /\ int_of_hex ds = n
    /\ (0 < n -> hd "0"%char ds <> "0"%char).

(** ** Floats and their text

    A Python [float] is an IEEE 754 binary64 number, here Rocq's
    [spec_float] at precision 53 and maximal exponent 1024; its arithmetic
    is the correctly rounded one of [SpecFloat]. *)

Abbreviation float := spec_float.

Definition prec : Z := 53.
Definition emax : Z := 1024.

Definition float_sub (x y : float) : float := SFsub prec emax x y.
Definition float_abs (x : float) : float := SFabs x.
(** [x >= y]; false as soon as one side is a NaN. *)
Definition float_ge (x y : float) : bool := SFleb y x.

(** The float nearest to [(-1)^s * num / den] (ties to even), for
    [0 <= num] and [0 < den]. *)
Definition float_of_ratio (s : bool) (num den : Z) : float :=
  if num =? 0 then S754_zero s
  else
    let '(q, e, l) := SFdiv_core_binary prec emax num 0 den 0 in
    binary_round_aux prec emax s q e l.

(** The literal [1e-12]. *)
Definition float_1e_12 : float := float_of_ratio false 1 (10 ^ 12).

(** [num / den] rounded to the nearest integer, ties to even. *)
Definition round_half_even (num den : Z) : Z :=
  let q := num / den in
  match 2 * (num mod den) ?= den with
  | Lt => q
  | Gt => q + 1
  | Eq => if Z.even q then q else q + 1
  end.

(** The integer nearest to [m * 2^e * 10^8]: the magnitude of a finite float
    in units of the eighth decimal. *)
Definition scaled8 (m : positive) (e : Z) : Z :=
  if 0 <=? e then Z.pos m * 2 ^ e * 10 ^ 8
  else round_half_even (Z.pos m * 10 ^ 8) (2 ^ (- e)).

Definition digit_char (d : Z) : ascii := ascii_of_N (Z.to_N (48 + d)).

Definition is_digit (c : ascii) : bool :=
  let n := Z.of_N (N_of_ascii c) in (48 <=? n) && (n <=? 57).

Definition digit_value (c : ascii) : Z := Z.of_N (N_of_ascii c) - 48.

(** [str(n)] for [n >= 0]. *)
Definition decimal_text (n : Z) : list ascii := map digit_char (digits 10 n).

(** [int(s)] for a run of decimal digits (the empty run counts as 0). *)
Definition int_of_digits (s : list ascii) : Z :=
  fold_left (fun acc c => 10 * acc + digit_value c) s 0.

Definition zero_pad (width : nat) (s : list ascii) : list ascii :=
  repeat "0"%char (width - List.length s) ++ s.

Definition sign_text (s : bool) : list ascii :=
  if s then ["-"%char] else [].

(** Fixed-point text with eight decimals of the number [(-1)^s * n / 10^8]. *)
Definition fixed8_text (s : bool) (n : Z) : list ascii :=
  sign_text s ++ decimal_text (n / 10 ^ 8)
    ++ "."%char :: zero_pad 8 (decimal_text (n mod 10 ^ 8)).

(** ["{:.8f}".format(x)]: correctly rounded (ties to even) to eight
    decimals; the sign is kept even when every digit is zero. *)
Definition format_8f (x : float) : string :=
  match x with
  | S754_nan => "nan"
  | S754_infinity s => if s then "-inf" else "inf"
  | S754_zero s => string_of_list_ascii (fixed8_text s 0)
  | S754_finite s m e => string_of_list_ascii (fixed8_text s (scaled8 m e))
  end.

(** A plain decimal numeral: optional sign, integer digits, and the digits
    after an optional point. *)
Record numeral : Type := Numeral {
  num_sign : bool;
  num_int : list ascii;
  num_frac : list ascii
}.

Fixpoint span_digits (s : list ascii) : list ascii * list ascii :=
  match s with
  | c :: s' =>
      if is_digit c then let '(ds, rest) := span_digits s' in (c :: ds, rest)
      else ([], s)
  | [] => ([], [])
  end.

Definition split_sign (s : list ascii) : bool * list ascii :=
  match s with
  | c :: s' =>
      if Ascii.eqb c "-"%char then (true, s')
      else if Ascii.eqb c "+"%char then (false, s')
      else (false, s)
  | [] => (false, [])
  end.

(** An optional sign, digits, and optionally a point and more digits, with
    at least one digit in all: the numerals without exponent that both
    [float] and [Decimal] read. *)
Definition parse_numeral (s : list ascii) : option numeral :=
  let '(sg, body) := split_sign s in
  let '(ip, rest) := span_digits body in
  match rest with
  | [] => if Nat.eqb (List.length ip) 0 then None else Some (Numeral sg ip [])
  | c :: rest' =>
      if Ascii.eqb c "."%char then
        let '(fp, tail) := span_digits rest' in
        match tail with
        | [] =>
            if Nat.eqb (List.length ip + List.length fp) 0 then None
            else Some (Numeral sg ip fp)
        | _ :: _ => None
        end
      else None
  end.

(** [float(s)] on the texts [format_8f] produces: the special names and
    plain numerals, the latter rounded correctly. *)
Definition float_of_str (s : string) : result float :=
  if String.eqb s "nan" then Ok S754_nan
  else if String.eqb s "inf" then Ok (S754_infinity false)
  else if String.eqb s "-inf" then Ok (S754_infinity true)
  else
    match parse_numeral (list_ascii_of_string s) with
    | Some n =>
        Ok (float_of_ratio (num_sign n)
              (int_of_digits (num_int n ++ num_frac n))
              (10 ^ Z.of_nat (List.length (num_frac n))))
    | None => Raise (Unmodelled "float() of a text that is not a plain numeral")
    end.

(** ** Decimal

    [decimal.Decimal] as [decimal.py] stores it: a sign, the coefficient as
    a string of digits without leading zeros, and an exponent; or a special
    value.  The context is the default one: 28 digits, ROUND_HALF_EVEN,
    Emax 999999, Emin -999999, no clamping, Overflow trapped. *)

Inductive Decimal : Type :=
| Dec (sign : bool) (coeff : list ascii) (exp : Z)
| DecInfinity (sign : bool)
| DecNaN.

Definition ctx_prec : Z := 28.
Definition ctx_Emax : Z := 999999.
Definition ctx_Emin : Z := -999999.
Definition ctx_Etiny : Z := ctx_Emin - ctx_prec + 1.
Definition ctx_Etop : Z := ctx_Emax - ctx_prec + 1.

Fixpoint strip_leading_zeros (s : list ascii) : list ascii :=
  match s with
  | c :: s' => if Ascii.eqb c "0"%char then strip_leading_zeros s' else s
  | [] => []
  end.

(** [str(int(s))] for a run of digits. *)
Definition canonical_digits (s : list ascii) : list ascii :=
  match strip_leading_zeros s with
  | [] => ["0"%char]
  | t => t
  end.

(** [Decimal(s)] on the texts [format_8f] produces. *)
Definition Decimal_of_str (s : string) : result Decimal :=
  if String.eqb s "nan" then Ok DecNaN
  else if String.eqb s "inf" then Ok (DecInfinity false)
  else if String.eqb s "-inf" then Ok (DecInfinity true)
  else
    match parse_numeral (list_ascii_of_string s) with
    | Some n =>
        Ok (Dec (num_sign n) (canonical_digits (num_int n ++ num_frac n))
              (- Z.of_nat (List.length (num_frac n))))
    | None => Raise (Unmodelled "Decimal() of a text that is not a plain numeral")
    end.

Definition is_zero_coeff (c : list ascii) : bool :=
  forallb (fun d => Ascii.eqb d "0"%char) c.

(** [_round_half_even(prec) > 0]: whether dropping all but the first [keep]
    digits rounds the coefficient up. *)
Definition rounds_up (c : list ascii) (keep : nat) : bool :=
  match skipn keep c with
  | [] => false
  | d :: rest =>
      let exact_half := Ascii.eqb d "5"%char && is_zero_coeff rest in
      let kept_even :=
        match keep with
        | O => true
        | S k => Z.even (digit_value (nth k c "0"%char))
        end in
      if exact_half && kept_even then false
      else 5 <=? digit_value d
  end.

(** [Decimal._fix]: round to the context's precision. *)
Definition Decimal_fix (d : Decimal) : result Decimal :=
  match d with
  | Dec sign c exp =>
      if is_zero_coeff c then
        Ok (Dec sign ["0"%char] (Z.min (Z.max exp ctx_Etiny) ctx_Emax))
      else
        let len := Z.of_nat (List.length c) in
        let exp_min := len + exp - ctx_prec in
        if ctx_Etop <? exp_min then Raise (LibraryError "decimal.Overflow")
        else
          let exp_min := Z.max exp_min ctx_Etiny in
          if exp <? exp_min then
            let ndigits := len + exp - exp_min in
            let '(c, ndigits) :=
              if ndigits <? 0 then (["1"%char], 0) else (c, ndigits) in
            let keep := Z.to_nat ndigits in
            let kept :=
              match firstn keep c with
              | [] => ["0"%char]
              | k => k
              end in
            if rounds_up c keep then
              let bumped := decimal_text (int_of_digits kept + 1) in
              if ctx_prec <? Z.of_nat (List.length bumped) then
                if ctx_Etop <? exp_min + 1 then Raise (LibraryError "decimal.Overflow")
                else Ok (Dec sign (removelast bumped) (exp_min + 1))
              else Ok (Dec sign bumped exp_min)
            else Ok (Dec sign kept exp_min)
          else Ok d
  | _ => Ok d
  end.

(** The loop of [normalize]: drop trailing zeros of the coefficient (given
    reversed) while the exponent stays below Emax. *)
Fixpoint strip_trailing_zeros (rev_coeff : list ascii) (exp : Z) : list ascii * Z :=
  match rev_coeff with
  | c :: rest =>
      if Ascii.eqb c "0"%char && (exp <? ctx_Emax) then strip_trailing_zeros rest (exp + 1)
      else (rev_coeff, exp)
  | [] => ([], exp)
  end.

(** [Decimal.normalize()]. *)
Definition Decimal_normalize (d : Decimal) : result Decimal :=
  dup ← Decimal_fix d;
  match dup with
  | Dec sign c exp =>
      if is_zero_coeff c then Ok (Dec sign ["0"%char] 0)
      else
        let '(r, exp') := strip_trailing_zeros (rev c) exp in
        Ok (Dec sign (rev r) exp')
  | _ => Ok dup
  end.

(** [format(d, "f")]: positional notation, no exponent. *)
Definition Decimal_format_f (d : Decimal) : string :=
  match d with
  | DecNaN => "NaN"
  | DecInfinity s => if s then "-Infinity" else "Infinity"
  | Dec sign c exp =>
      let len := Z.of_nat (List.length c) in
      let dotplace := exp + len in
      let '(intpart, fracpart) :=
        if dotplace <? 0 then
          (["0"%char], repeat "0"%char (Z.to_nat (- dotplace)) ++ c)
        else if len <? dotplace then
          (c ++ repeat "0"%char (Z.to_nat (dotplace - len)), [])
        else
          (match firstn (Z.to_nat dotplace) c with
           | [] => ["0"%char]
           | ip => ip
           end, skipn (Z.to_nat dotplace) c) in
      string_of_list_ascii
        (sign_text sign ++ intpart
           ++ match fracpart with
              | [] => []
              | _ :: _ => "."%char :: fracpart
              end)
  end.

(** ** float_to_wire *)

Definition float_to_wire (x : float) : result string :=
  let rounded := format_8f x in
  parsed ← float_of_str rounded;
  if float_ge (float_abs (float_sub parsed x)) float_1e_12 then
    Raise (ValueError "float_to_wire causes rounding" (VFloat x))
  else
    let rounded := if String.eqb rounded "-0" then "0" else rounded in
    d ← Decimal_of_str rounded;
    normalized ← Decimal_normalize d;
    Ok (Decimal_format_f normalized).

(** ** The specification's reading of [float_to_wire]

    The definitions of this subsection follow the specification's words,
    not the code; the results compare the two. *)

Definition is_finite (x : float) : bool :=
  match x with
  | S754_zero _ | S754_finite _ _ _ => true
  | _ => false
  end.

Definition sign_of (x : float) : bool :=
  match x with
  | S754_zero s | S754_infinity s | S754_finite s _ _ => s
  | S754_nan => false
  end.

(** The magnitude of [x] in units of the eighth decimal, rounded to an
    integer (ties to even). *)
Definition magnitude8 (x : float) : Z :=
  match x with
  | S754_finite _ m e => scaled8 m e
  | _ => 0
  end.

(** What the code's [float(rounded)] is for a finite [x]: the float
    nearest to the rounded magnitude over [10 ^ 8]. *)
Definition rounded_to_8_digits (x : float) : float :=
  float_of_ratio (sign_of x) (magnitude8 x) (10 ^ 8).

(** The code's check [abs(float(rounded) - x) >= 1e-12] for a finite
    [x]. *)
Definition precision_lost (x : float) : bool :=
  float_ge (float_abs (float_sub (rounded_to_8_digits x) x)) float_1e_12.

(** "Plain fixed-point decimal text": an optional minus sign, one or more
    digits, and, only when a fractional part remains, a point followed by
    digits of which the last is not a zero.  No exponent and no plus sign
    fit this shape. *)
Definition plain_fixed_point (s : string) : Prop :=
  exists (neg : bool) (ip fp : list ascii),
    list_ascii_of_string s
    = sign_text neg ++ ip ++ match fp with
                             | [] => []
                             | _ :: _ => "."%char :: fp
                             end
    /\ ip <> []
    /\ forallb is_digit ip = true
    /\ forallb is_digit fp = true
    /\ List.last fp "1"%char <> "0"%char.

(** "[x] rounded to 8 fractional digits" is [n / 10 ^ 8] in magnitude:
    [n] is the integer nearest to [|x| * 10 ^ 8], the even one of two
    equally near.  With [|x| = m * 2 ^ e] the distance is taken exactly,
    in integers. *)
Definition nearest_1e8 (x : float) (n : Z) : Prop :=
  match x with
  | S754_zero _ => n = 0
  | S754_finite _ m e =>
      if 0 <=? e then n = Z.pos m * 2 ^ e * 10 ^ 8
      else
        Z.abs (2 * (Z.pos m * 10 ^ 8 - n * 2 ^ (- e))) <= 2 ^ (- e)
        /\ (Z.abs (2 * (Z.pos m * 10 ^ 8 - n * 2 ^ (- e))) = 2 ^ (- e) ->
            Z.even n = true)
  | _ => False
  end.

(** The binary64 number nearest to 1e-12, [0x1.19799812dea11p-40]. *)
Definition binary64_1e_12 : float := S754_finite false 4951760157141521 (-92).

(** "[r] differs from [x] by at least 1e-12 in absolute terms", the
    difference and the comparison taken in binary64 arithmetic. *)
Definition differs_by_1e_12 (r x : float) : bool :=
  SFleb binary64_1e_12 (SFabs (SFsub 53 1024 r x)).

(** The same on exact values: [|n / 10 ^ 8 - |x|| >= 10 ^ -12], in
    integers. *)
Definition value_differs_by_1e_12 (x : float) (n : Z) : Prop :=
  match x with
  | S754_finite _ m e =>
      if 0 <=? e then 1 <= 10 ^ 4 * Z.abs (n - Z.pos m * 2 ^ e * 10 ^ 8)
      else 2 ^ (- e) <= 10 ^ 4 * Z.abs (n * 2 ^ (- e) - Z.pos m * 10 ^ 8)
  | _ => 1 <= 10 ^ 4 * Z.abs n
  end.

(** [float_to_wire] applied to a value read from a request dictionary. *)
Definition float_to_wire_value (v : value) : result string :=
  match v with
  | VFloat x => float_to_wire x
  | VInt _ | VBool _ => Raise (Unmodelled "float_to_wire of an int")
  | VStr _ => Raise (ValueError "Unknown format code 'f' for object of type 'str'" v)
  | _ => Raise (TypeError "unsupported format string passed to __format__")
  end.

(** [a > b]. *)
Definition py_gt (a b : value) : result bool :=
  let as_int v :=
    match v with
    | VInt n => Some n
    | VBool c => Some (if c then 1 else 0)
    | _ => None
    end in
  match as_int a, as_int b with
  | Some x, Some y => Ok (y <? x)
  | _, _ =>
      match a, b with
      | VStr x, VStr y => Ok (String.ltb y x)
      | VFloat _, (VFloat _ | VInt _ | VBool _)
      | (VInt _ | VBool _), VFloat _ => Raise (Unmodelled "ordering of floats")
      | VList _, VList _ | VBytes _, VBytes _ =>
          Raise (Unmodelled "ordering of sequences")
      | _, _ => Raise (TypeError "'>' not supported between instances")
      end
  end.

(** ** The libraries' data *)

(** [eth_account]'s [SignableMessage] and [SignedMessage], and the account
    object the client signs with.  [sign_message] is a function of the key
    and the message: the library derives the ECDSA nonce from them
    (RFC 6979) and draws no randomness. *)
Record SignableMessage : Type := {
  msg_version : bytes;
  msg_header : bytes;
  msg_body : bytes
}.

Record SignedMessage : Type := {
  messageHash : bytes;
  sig_r : Z;
  sig_s : Z;
  sig_v : Z;
  sig_bytes : bytes
}.

Record LocalAccount : Type := {
  wallet_address : string;
  sign_message : SignableMessage -> result SignedMessage
}.

(** What [aiohttp] hands back for a request: the status line, the headers,
    the body text, and the outcome of [await response.json()]. *)
Record response : Type := {
  status : Z;
  headers : value;
  text : string;
  json : result value
}.

Record request : Type := {
  url : string;
  json_body : value
}.

Inductive ClientSession : Type :=
| SessionOpen
| SessionClosed.

(** ** The client object and the world *)

(** The attributes of [HyperLiquidClient].  [coin_to_asset] and
    [coin_info] do not exist before [__aenter__] ([None] here). *)
Record HyperLiquidClient : Type := {
  base_url : string;
  session : option ClientSession;
  wallet : LocalAccount;
  address : value;
  vault_address : option string;
  account_address : value;
  coin_to_asset : option (gmap string Z);
  coin_info : option (gmap string value)
}.

(** A coroutine [update_leverage(name, leverage)] handed to the event loop
    and not yet run. *)
Record task : Type := {
  task_asset_name : string;
  task_leverage : value
}.

(** The world around the client: how many times the clock was read, the
    requests handed to the session so far (oldest first), and the
    coroutines [__aenter__] left with the event loop. *)
Record world : Type := {
  clock_reads : nat;
  requests : list request;
  tasks : list task
}.

Record state : Type := {
  self : HyperLiquidClient;
  env : world
}.

(** Methods run in a state-and-exception monad: an exception keeps the
    state reached so far. *)
Definition M (A : Type) : Type := state -> result A * state.

#[global] Instance M_ret : MRet M := fun _ a σ => (Ok a, σ).
#[global] Instance M_bind : MBind M := fun _ _ f m σ =>
  match m σ with
  | (Ok a, σ') => f a σ'
  | (Raise e, σ') => (Raise e, σ')
  end.

Definition liftR {A} (r : result A) : M A := fun σ => (r, σ).
(** A coroutine whose result and exception nobody retrieves. *)
Definition detached {A} (m : M A) : M value := fun σ => (Ok VNone, (m σ).2).
Definition raise {A} (e : exn) : M A := liftR (Raise e).
Definition get_self : M HyperLiquidClient := fun σ => (Ok (self σ), σ).
Definition get_env : M world := fun σ => (Ok (env σ), σ).
Definition set_self (c : HyperLiquidClient) : M unit :=
  fun σ => (Ok tt, {| self := c; env := env σ |}).

(** The three ways a method touches the world: it reads the clock, hands a
    request to the session, or leaves coroutines with the event loop. *)
Definition tick : M nat :=
  fun σ => (Ok (clock_reads (env σ)),
            {| self := self σ;
               env := {| clock_reads := S (clock_reads (env σ));
                         requests := requests (env σ);
                         tasks := tasks (env σ) |} |}).

Definition log_request (req : request) : M unit :=
  fun σ => (Ok tt,
            {| self := self σ;
               env := {| clock_reads := clock_reads (env σ);
                         requests := requests (env σ) ++ [req];
                         tasks := tasks (env σ) |} |}).

Definition set_tasks (ts : list task) : M unit :=
  fun σ => (Ok tt,
            {| self := self σ;
               env := {| clock_reads := clock_reads (env σ);
                         requests := requests (env σ);
                         tasks := ts |} |}).

Definition set_session (s : option ClientSession) : M unit :=
  c ← get_self;
  set_self {| base_url := base_url c; session := s; wallet := wallet c;
              address := address c; vault_address := vault_address c;
              account_address := account_address c;
              coin_to_asset := coin_to_asset c; coin_info := coin_info c |}.

Definition set_registry (a : gmap string Z) (i : gmap string value) : M unit :=
  c ← get_self;
  set_self {| base_url := base_url c; session := session c; wallet := wallet c;
              address := address c; vault_address := vault_address c;
              account_address := account_address c;
              coin_to_asset := Some a; coin_info := Some i |}.

(** A computation that leaves the state as it found it. *)
Definition stateless {A} (m : M A) : Prop := forall σ, (m σ).2 = σ.

(** A computation that keeps the property [I] of the state, whether it
    returns or raises. *)
Definition preserves (I : state -> Prop) {A} (m : M A) : Prop :=
  forall σ, I σ -> I (m σ).2.

(** Reading an attribute that may not have been assigned yet. *)
Definition attribute {A} (name : string) (a : option A) : M A :=
  match a with
  | Some x => mret x
  | None => raise (AttributeError name)
  end.

(** [d[k]] on a registry dictionary. *)
Definition registry_lookup {A} (d : gmap string A) (k : string) : M A :=
  match d !! k with
  | Some x => mret x
  | None => raise (KeyError (VStr k))
  end.

(** [d[k]] on a registry dictionary for a key read from a request: every
    key in the registry is a [str], so another hashable key is missing. *)
Definition registry_lookup_value {A} (d : gmap string A) (k : value) : M A :=
  match k with
  | VStr s => registry_lookup d s
  | VList _ | VDict _ => raise (TypeError "unhashable type")
  | _ => raise (KeyError k)
  end.

Definition vault_value (v : option string) : value :=
  match v with
  | Some a => VStr a
  | None => VNone
  end.

Definition is_ValueError (e : exn) : bool :=
  match e with
  | ValueError _ _ | JSONDecodeError => true
  | _ => false
  end.

(** ** The typed-data document of [sign_l1_action] *)

(** The local [phantom_agent]. *)
Definition sign_l1_action_phantom_agent (hash : bytes) (is_mainnet : bool) : value :=
  VDict [("source", VStr (if is_mainnet then "a" else "b"));
         ("connectionId", VBytes hash)].

(** The local [data] handed to [encode_structured_data]. *)
Definition sign_l1_action_data (hash : bytes) (is_mainnet : bool) : value :=
  VDict
    [("domain",
       VDict [("chainId", VInt 1337);
              ("name", VStr "Exchange");
              ("verifyingContract", VStr "0x0000000000000000000000000000000000000000");
              ("version", VStr "1")]);
     ("types",
       VDict
         [("Agent",
            VList [VDict [("name", VStr "source"); ("type", VStr "string")];
                   VDict [("name", VStr "connectionId"); ("type", VStr "bytes32")]]);
          ("EIP712Domain",
            VList [VDict [("name", VStr "name"); ("type", VStr "string")];
                   VDict [("name", VStr "version"); ("type", VStr "string")];
                   VDict [("name", VStr "chainId"); ("type", VStr "uint256")];
                   VDict [("name", VStr "verifyingContract"); ("type", VStr "address")]])]);
     ("primaryType", VStr "Agent");
     ("message", sign_l1_action_phantom_agent hash is_mainnet)].

(** [_handle_exception]: it reads the response only. *)
Definition _handle_exception (response : response) : result unit :=
  let status_code := status response in
  if status_code <? 400 then Ok tt
  else if (400 <=? status_code) && (status_code <? 500) then
    match json response with
    | Raise JSONDecodeError =>
        Raise (ClientError status_code VNone (VStr (text response)) VNone (headers response))
    | Raise e => Raise e
    | Ok VNone =>
        Raise (ClientError status_code VNone (VStr (text response)) VNone (headers response))
    | Ok err =>
        error_data ← py_get err "data";
        code ← subscript err "code";
        msg ← subscript err "msg";
        Raise (ClientError status_code code msg (headers response) error_data)
    end
  else Raise (ServerError status_code (text response)).

(** The world when the client is constructed. *)
Definition initial_world : world :=
  {| clock_reads := O; requests := []; tasks := [] |}.

(** ** Stand-ins for the libraries and the world

    A fixed instance of the section variables below, used only to run the
    model on concrete inputs in closed examples.  The stand-ins are not the
    real primitives: no result depends on what they compute. *)

Definition standin_keccak (data : bytes) : bytes :=
  big_endian 32 (Z.of_nat (List.length data)).

Definition standin_packb (v : value) : result bytes :=
  match v with
  | VDict kvs => Ok [byte_of_Z (128 + Z.of_nat (List.length kvs))]
  | _ => Raise (LibraryError "msgpack")
  end.

Definition standin_encode_structured_data (data : value) : result SignableMessage :=
  message ← subscript data "message";
  connection_id ← subscript message "connectionId";
  match connection_id with
  | VBytes hash => Ok {| msg_version := [Byte.x01]; msg_header := []; msg_body := hash |}
  | _ => Raise (LibraryError "eth_account")
  end.

(** A signer that answers with fixed integers; [r] has 61 hexadecimal
    digits, [s] has 64. *)
Definition standin_wallet : LocalAccount :=
  {| wallet_address := "0x00000000000000000000000000000000000000aa";
     sign_message := fun m =>
       Ok {| messageHash := msg_body m;
             sig_r := 2 ^ 240 + 1; sig_s := 2 ^ 255 + 2; sig_v := 27;
             sig_bytes := [] |} |}.

Definition standin_from_key (secret_key : value) : result LocalAccount :=
  Ok standin_wallet.

Definition standin_clock (start : Z) (k : nat) : Z := start + Z.of_nat k.

(** An exchange that lists one asset, ETH with maximal leverage 50, and
    answers every other request with [{"status": "ok"}]. *)
Definition standin_exchange (earlier : list request) (req : request) : result response :=
  Ok {| status := 200; headers := VDict []; text := EmptyString;
        json :=
          if eq_str (default VNone (match json_body req with
                                    | VDict kvs => dict_get kvs "type"
                                    | _ => None
                                    end)) "meta"
          then Ok (VDict [("universe",
                           VList [VDict [("name", VStr "ETH");
                                         ("maxLeverage", VInt 50)]])])
          else Ok (VDict [("status", VStr "ok")]) |}.

(** The floats 0.1 and 1100.0, and the demo's order type. *)
Definition float_0_1 : float := S754_finite false 7205759403792794 (-56).
Definition float_1100 : float := S754_finite false 4837851162214400 (-42).
Definition limit_gtc : value := VDict [("limit", VDict [("tif", VStr "Gtc")])].

(** The float nearest to 0.123456789. *)
Definition float_0_123456789 : float := S754_finite false 8895999182988127 (-56).

(** The float nearest to 12345678.3; its exact value is
    [6628035568179610 / 2 ^ 29]. *)
Definition float_12345678_3 : float := S754_finite false 6628035568179610 (-29).

(** The float nearest to -1e-13: it rounds to zero at eight decimals. *)
Definition float_minus_1e_13 : float := S754_finite true 7922816251426434 (-96).

Definition standin_config : value :=
  VDict [("secret_key", VStr "0x01");
         ("account_address", VStr "0x00000000000000000000000000000000000000aa")].

(** The client [__init__] builds from the stand-in configuration. *)
Definition standin_initial_client : HyperLiquidClient :=
  {| base_url := "https://api.hyperliquid.xyz";
     session := None;
     wallet := standin_wallet;
     address := VStr "0x00000000000000000000000000000000000000aa";
     vault_address := None;
     account_address := VStr "0x00000000000000000000000000000000000000aa";
     coin_to_asset := None;
     coin_info := None |}.

Definition double_quote : string := String (ascii_of_nat 34) EmptyString.

(** The 4xx response of the specification's error scenario: status 400 and
    a body with code X and message bad nonce. *)
Definition bad_nonce_response : response :=
  {| status := 400;
     headers := VDict [];
     text := "{" +:+ double_quote +:+ "code" +:+ double_quote +:+ ":"
             +:+ double_quote +:+ "X" +:+ double_quote +:+ ","
             +:+ double_quote +:+ "msg" +:+ double_quote +:+ ":"
             +:+ double_quote +:+ "bad nonce" +:+ double_quote +:+ "}";
     json := Ok (VDict [("code", VStr "X"); ("msg", VStr "bad nonce")]) |}.

(** A 404 response whose body is not JSON. *)
Definition not_found_response : response :=
  {| status := 404;
     headers := VDict [("Content-Type", VStr "text/plain")];
     text := "Not Found";
     json := Raise JSONDecodeError |}.

(** An exchange that refuses every request with [bad_nonce_response]. *)
Definition standin_refusing_exchange (earlier : list request) (req : request)
    : result response :=
  Ok bad_nonce_response.

(** A request for one order, as [place_orders] takes it, and one for a
    cancellation, as [cancel_orders] takes it. *)
Definition standin_order_request : value :=
  VDict [("coin", VStr "ETH"); ("is_buy", VBool true);
         ("sz", VFloat (S754_finite false 7205759403792794 (-56)));
         ("limit_px", VFloat (S754_finite false 4837851162214400 (-42)));
         ("order_type", VDict [("limit", VDict [("tif", VStr "Gtc")])]);
         ("reduce_only", VBool false)].

Definition standin_cancel_request : value :=
  VDict [("coin", VStr "ETH"); ("oid", VInt 7)].

(** The client after [__init__] and [__aenter__] against the stand-in
    exchange: ETH is asset 0. *)
Definition standin_client : HyperLiquidClient :=
  {| base_url := "https://api.hyperliquid.xyz";
     session := Some SessionOpen;
     wallet := standin_wallet;
     address := VStr "0x00000000000000000000000000000000000000aa";
     vault_address := None;
     account_address := VStr "0x00000000000000000000000000000000000000aa";
     coin_to_asset := Some {[ "ETH" := 0 ]};
     coin_info := Some {[ "ETH" := VDict [("name", VStr "ETH");
                                          ("maxLeverage", VInt 50)] ]} |}.

Definition standin_state : state :=
  {| self := standin_client; env := initial_world |}.

(** A client object on which a vault address has been set from outside. *)
Definition standin_state_with_vault : state :=
  {| self :=
       {| base_url := "https://api.hyperliquid.xyz";
          session := Some SessionOpen;
          wallet := standin_wallet;
          address := VStr "0x00000000000000000000000000000000000000aa";
          vault_address := Some "0x00000000000000000000000000000000000000bb";
          account_address := VStr "0x00000000000000000000000000000000000000aa";
          coin_to_asset := Some {[ "ETH" := 0 ]};
          coin_info := Some {[ "ETH" := VDict [("name", VStr "ETH");
                                               ("maxLeverage", VInt 50)] ]} |};
     env := initial_world |}.

Section Client.

(** The imported primitives. *)
Variable keccak : bytes -> bytes.
Variable packb : value -> result bytes.
Variable encode_structured_data : value -> result SignableMessage.
Variable from_key : value -> result LocalAccount.

(** The outside world: the successive values of
    [int(time.time() * 1000)], and what the session yields for a request
    given the requests before it (a response, or a transport failure). *)
Variable clock : nat -> Z.
Variable exchange : list request -> request -> result response.

Definition get_timestamp_ms : M Z :=
  k ← tick;
  mret (clock k).

(** The constructor, given the parsed [config.json]. *)
Definition __init__ (config : value) : result HyperLiquidClient :=
  secret_key ← subscript config "secret_key";
  wallet ← from_key secret_key;
  address ← subscript config "account_address";
  Ok {| base_url := "https://api.hyperliquid.xyz"; session := None;
        wallet := wallet; address := address; vault_address := None;
        account_address := address;
        coin_to_asset := None; coin_info := None |}.

(** [self.session.post(url, json=payload)]: the request leaves through an
    open session and the exchange answers. *)
Definition session_post (url : string) (payload : value) : M response :=
  c ← get_self;
  match session c with
  | Some SessionOpen =>
      w ← get_env;
      let req := {| url := url; json_body := payload |} in
      log_request req;;
      liftR (exchange (requests w) req)
  | Some SessionClosed => raise (RuntimeError "Session is closed")
  | None => raise (AttributeError "post")
  end.

Definition post (url_path : string) (payload : value) : M value :=
  c ← get_self;
  match session c with
  | None => set_session (Some SessionOpen)
  | Some _ => mret tt
  end;;
  let payload := if truthy payload then payload else VDict [] in
  c ← get_self;
  let url := base_url c +:+ url_path in
  response ← session_post url payload;
  liftR (_handle_exception response);;
  match json response with
  | Ok v => mret v
  | Raise e =>
      if is_ValueError e then
        mret (VDict [("error", VStr ("Could not parse JSON: " +:+ text response))])
      else raise e
  end.

(** The local [hash] of [sign_l1_action]: the connection hash. *)
Definition sign_l1_action_hash (action : value) (vault_address : option string)
    (nonce : Z) : result bytes :=
  data ← packb action;
  nonce_bytes ← to_bytes nonce 8;
  let data := data ++ nonce_bytes in
  data ← match vault_address with
         | None => Ok (data ++ [Byte.x00])
         | Some a =>
             let data := data ++ [Byte.x01] in
             address_bytes ←
               fromhex (if String.prefix "0x" a
                        then substring 2 (String.length a - 2) a else a);
             Ok (data ++ address_bytes)
         end;
  Ok (keccak data).

Definition sign_l1_action (wallet : LocalAccount) (action : value)
    (vault_address : option string) (nonce : Z) (is_mainnet : bool) : M value :=
  hash ← liftR (sign_l1_action_hash action vault_address nonce);
  structured_data ← liftR (encode_structured_data (sign_l1_action_data hash is_mainnet));
  signed ← liftR (sign_message wallet structured_data);
  mret (VDict [("r", VStr (to_hex (sig_r signed)));
               ("s", VStr (to_hex (sig_s signed)));
               ("v", VInt (sig_v signed))]).

(** The local [payload] of [_post_action], signature included. *)
Definition _post_action_payload (action : value) (nonce : Z) : M value :=
  c ← get_self;
  signature ← sign_l1_action (wallet c) action (vault_address c) nonce
                (String.eqb (base_url c) "https://api.hyperliquid.xyz");
  c ← get_self;
  type ← liftR (subscript action "type");
  mret (VDict [("action", action);
               ("nonce", VInt nonce);
               ("signature", signature);
               ("vaultAddress",
                 if negb (eq_str type "usdClassTransfer")
                 then vault_value (vault_address c) else VNone)]).

Definition _post_action (action : value) (nonce : Z) : M value :=
  payload ← _post_action_payload action nonce;
  post "/exchange" payload.

Definition place_order (name : string) (is_buy : bool) (sz limit_px : float)
    (order_type : value) (reduce_only : bool) : M value :=
  c ← get_self;
  assets ← attribute "coin_to_asset" (coin_to_asset c);
  a ← registry_lookup assets name;
  p ← liftR (float_to_wire limit_px);
  s ← liftR (float_to_wire sz);
  let order_wire :=
    VDict [("a", VInt a); ("b", VBool is_buy); ("p", VStr p); ("s", VStr s);
           ("r", VBool reduce_only); ("t", order_type)] in
  timestamp ← get_timestamp_ms;
  let order_action :=
    VDict [("type", VStr "order"); ("orders", VList [order_wire]);
           ("grouping", VStr "na")] in
  _post_action order_action timestamp.

Definition order_wire_of (order : value) : M value :=
  c ← get_self;
  assets ← attribute "coin_to_asset" (coin_to_asset c);
  coin ← liftR (subscript order "coin");
  a ← registry_lookup_value assets coin;
  b ← liftR (subscript order "is_buy");
  limit_px ← liftR (subscript order "limit_px");
  p ← liftR (float_to_wire_value limit_px);
  sz ← liftR (subscript order "sz");
  s ← liftR (float_to_wire_value sz);
  r ← liftR (subscript order "reduce_only");
  t ← liftR (subscript order "order_type");
  mret (VDict [("a", VInt a); ("b", b); ("p", VStr p); ("s", VStr s);
               ("r", r); ("t", t)]).

Fixpoint map_M {A B} (f : A -> M B) (xs : list A) : M (list B) :=
  match xs with
  | [] => mret []
  | x :: xs' => y ← f x; ys ← map_M f xs'; mret (y :: ys)
  end.

Definition place_orders (order_requests : value) : M value :=
  orders ← liftR (iterate order_requests);
  order_wires ← map_M order_wire_of orders;
  timestamp ← get_timestamp_ms;
  let order_action :=
    VDict [("type", VStr "order"); ("orders", VList order_wires);
           ("grouping", VStr "na")] in
  _post_action order_action timestamp.

Definition cancel_order (name : string) (oid : value) : M value :=
  timestamp ← get_timestamp_ms;
  c ← get_self;
  assets ← attribute "coin_to_asset" (coin_to_asset c);
  a ← registry_lookup assets name;
  let cancel_action :=
    VDict [("type", VStr "cancel");
           ("cancels", VList [VDict [("a", VInt a); ("o", oid)]])] in
  _post_action cancel_action timestamp.

Definition cancel_wire_of (cancel : value) : M value :=
  c ← get_self;
  assets ← attribute "coin_to_asset" (coin_to_asset c);
  coin ← liftR (subscript cancel "coin");
  a ← registry_lookup_value assets coin;
  o ← liftR (subscript cancel "oid");
  mret (VDict [("a", VInt a); ("o", o)]).

Definition cancel_orders (cancel_requests : value) : M value :=
  timestamp ← get_timestamp_ms;
  cancels ← liftR (iterate cancel_requests);
  cancel_wires ← map_M cancel_wire_of cancels;
  let cancel_action :=
    VDict [("type", VStr "cancel"); ("cancels", VList cancel_wires)] in
  _post_action cancel_action timestamp.

Definition query_order_by_oid (oid : value) : M value :=
  c ← get_self;
  post "/info" (VDict [("type", VStr "orderStatus"); ("user", address c); ("oid", oid)]).

Definition user_state : M value :=
  c ← get_self;
  post "/info" (VDict [("type", VStr "clearinghouseState"); ("user", address c)]).

Definition get_universe : M value :=
  c ← get_self;
  post "/info" (VDict [("type", VStr "metaAndAssetCtxs"); ("user", address c)]).

Definition open_orders : M value :=
  c ← get_self;
  post "/info" (VDict [("type", VStr "openOrders"); ("user", address c)]).

Definition meta : M value :=
  post "/info" (VDict [("type", VStr "meta")]).

Definition update_leverage (asset_name : string) (leverage : value)
    (is_cross : bool) : M value :=
  c ← get_self;
  infos ← attribute "coin_info" (coin_info c);
  asset_info ← registry_lookup infos asset_name;
  max_leverage ← liftR (subscript asset_info "maxLeverage");
  too_high ← liftR (py_gt leverage max_leverage);
  if too_high : bool then
    raise (ValueError "Leverage exceeds maximum allowed leverage" leverage)
  else
    assets ← attribute "coin_to_asset" (coin_to_asset c);
    asset ← registry_lookup assets asset_name;
    let action :=
      VDict [("type", VStr "updateLeverage"); ("asset", VInt asset);
             ("isCross", VBool is_cross); ("leverage", leverage)] in
    timestamp ← get_timestamp_ms;
    _post_action action timestamp.

(** The loop of [__aenter__] from index [idx] on; it returns the
    coroutines collected in [tasks]. *)
Fixpoint aenter_loop (universe : list value) (idx : Z) : M (list task) :=
  match universe with
  | [] => mret []
  | asset_info :: rest =>
      name ← liftR (subscript asset_info "name");
      match name with
      | VStr name =>
          c ← get_self;
          assets ← attribute "coin_to_asset" (coin_to_asset c);
          infos ← attribute "coin_info" (coin_info c);
          set_registry (<[name := idx]> assets) (<[name := asset_info]> infos);;
          max_leverage ← liftR (subscript asset_info "maxLeverage");
          ts ← aenter_loop rest (idx + 1);
          mret ({| task_asset_name := name; task_leverage := max_leverage |} :: ts)
      | VList _ | VDict _ => raise (TypeError "unhashable type")
      | _ => raise (Unmodelled "an asset name that is not a str")
      end
  end.

(** [__aenter__]; [asyncio.gather] hands the coroutines to the event loop
    and nothing awaits them. *)
Definition __aenter__ : M unit :=
  set_session (Some SessionOpen);;
  meta_data ← meta;
  set_registry ∅ ∅;;
  universe ← liftR (subscript meta_data "universe");
  universe ← liftR (iterate universe);
  ts ← aenter_loop universe 0;
  w ← get_env;
  set_tasks (tasks w ++ ts).

Definition __aexit__ : M unit :=
  c ← get_self;
  match session c with
  | Some _ => set_session (Some SessionClosed)
  | None => mret tt
  end.

Fixpoint positions_of (asset_positions : list value) : result (list value) :=
  match asset_positions with
  | [] => Ok []
  | position :: rest =>
      p ← subscript position "position";
      ps ← positions_of rest;
      Ok (p :: ps)
  end.

Definition get_positions : M value :=
  user_state ← user_state;
  asset_positions ← liftR (subscript user_state "assetPositions");
  asset_positions ← liftR (iterate asset_positions);
  positions ← liftR (positions_of asset_positions);
  mret (VList positions).

Definition get_balance : M value := user_state.

Definition get_order_status (order_result : value) : M value :=
  st ← liftR (subscript order_result "status");
  if eq_str st "ok" then
    response ← liftR (subscript order_result "response");
    data ← liftR (subscript response "data");
    statuses ← liftR (subscript data "statuses");
    status ← liftR (subscript_int statuses 0);
    resting ← liftR (str_in "resting" status);
    if resting : bool then
      resting ← liftR (subscript status "resting");
      oid ← liftR (subscript resting "oid");
      query_order_by_oid oid
    else mret VNone
  else mret VNone.

(** ** Calls on the client

    The coroutine methods a program can await, [_post_action] among them
    (every signed submission goes through it), and the event loop running
    one of the coroutines [__aenter__] left behind.  Each call runs to
    completion before the next one starts. *)
Inductive call : Type :=
| Call_aenter
| Call_aexit
| Call_post_action (action : value) (nonce : Z)
| Call_place_order (name : string) (is_buy : bool) (sz limit_px : float)
    (order_type : value) (reduce_only : bool)
| Call_place_orders (order_requests : value)
| Call_cancel_order (name : string) (oid : value)
| Call_cancel_orders (cancel_requests : value)
| Call_query_order_by_oid (oid : value)
| Call_user_state
| Call_get_universe
| Call_open_orders
| Call_meta
| Call_update_leverage (asset_name : string) (leverage : value) (is_cross : bool)
| Call_get_positions
| Call_get_balance
| Call_get_order_status (order_result : value)
| Run_task (k : nat).

(** The event loop runs the [k]-th pending coroutine; nobody retrieves
    its result or its exception. *)
Definition run_task (k : nat) : M value :=
  w ← get_env;
  match tasks w !! k with
  | Some t =>
      set_tasks (delete k (tasks w));;
      detached (update_leverage (task_asset_name t) (task_leverage t) true)
  | None => mret VNone
  end.

Definition run (c : call) : M value :=
  match c with
  | Call_aenter => __aenter__;; mret VNone
  | Call_aexit => __aexit__;; mret VNone
  | Call_post_action action nonce => _post_action action nonce
  | Call_place_order name is_buy sz limit_px order_type reduce_only =>
      place_order name is_buy sz limit_px order_type reduce_only
  | Call_place_orders order_requests => place_orders order_requests
  | Call_cancel_order name oid => cancel_order name oid
  | Call_cancel_orders cancel_requests => cancel_orders cancel_requests
  | Call_query_order_by_oid oid => query_order_by_oid oid
  | Call_user_state => user_state
  | Call_get_universe => get_universe
  | Call_open_orders => open_orders
  | Call_meta => meta
  | Call_update_leverage asset_name leverage is_cross =>
      update_leverage asset_name leverage is_cross
  | Call_get_positions => get_positions
  | Call_get_balance => get_balance
  | Call_get_order_status order_result => get_order_status order_result
  | Run_task k => run_task k
  end.

(** The state after a sequence of calls; a call that raises leaves the
    state it reached and the program goes on. *)
Fixpoint run_all (cs : list call) (σ : state) : state :=
  match cs with
  | [] => σ
  | c :: cs' => run_all cs' (run c σ).2
  end.

(** The states a program can reach: construct the client, then call. *)
Inductive reachable : state -> Prop :=
| reachable_init config c :
    __init__ config = Ok c ->
    reachable {| self := c; env := initial_world |}
| reachable_call σ c :
    reachable σ ->
    reachable (run c σ).2.

(** ** What the requests carry *)

Definition info_url : string := "https://api.hyperliquid.xyz/info".
Definition exchange_url : string := "https://api.hyperliquid.xyz/exchange".

Definition request_nonce (req : request) : option value :=
  match json_body req with
  | VDict kvs => dict_get kvs "nonce"
  | _ => None
  end.

(** The nonces of the requests sent so far, oldest first. *)
Definition sent_nonces (σ : state) : list value :=
  omap request_nonce (requests (env σ)).

(** [req] is a submission of client [c] with nonce [nonce]: it goes to
    the exchange endpoint, and its payload carries an action, that nonce,
    and the signature [sign_l1_action] gives for that action, the
    client's vault address and that nonce, hashed as [hash]. *)
Definition submitted_with_nonce (c : HyperLiquidClient) (nonce : Z)
    (req : request) : Prop :=
  url req = base_url c +:+ "/exchange"
  /\ exists action signature vault hash,
       json_body req = VDict [("action", action); ("nonce", VInt nonce);
                              ("signature", signature); ("vaultAddress", vault)]
       /\ sign_l1_action_hash action (vault_address c) nonce = Ok hash
       /\ forall σ,
            (sign_l1_action (wallet c) action (vault_address c) nonce
               (String.eqb (base_url c) "https://api.hyperliquid.xyz") σ).1
            = Ok signature.

(** The nonce a call submits with: the five trading operations read the
    clock; [_post_action] takes it from its caller. *)
Definition nonce_of_call (c : call) (σ : state) : option Z :=
  match c with
  | Call_place_order _ _ _ _ _ _ | Call_place_orders _ | Call_cancel_order _ _
  | Call_cancel_orders _ | Call_update_leverage _ _ _ =>
      Some (clock (clock_reads (env σ)))
  | Call_post_action _ nonce => Some nonce
  | _ => None
  end.

(** [req] is a submission made without vault address: the payload's
    [vaultAddress] is null, and the signed hash is that of the packed
    action, the nonce and the single marker byte 0x00. *)
Definition vaultless_submission (w : LocalAccount) (req : request) : Prop :=
  exists action nonce signature packed,
    json_body req = VDict [("action", action); ("nonce", VInt nonce);
                           ("signature", signature); ("vaultAddress", VNone)]
    /\ packb action = Ok packed
    /\ sign_l1_action_hash action None nonce
       = Ok (keccak (packed ++ big_endian 8 nonce ++ [Byte.x00]))
    /\ forall σ, (sign_l1_action w action None nonce true σ).1 = Ok signature.

Definition client_invariant (w : LocalAccount) (σ : state) : Prop :=
  vault_address (self σ) = None
  /\ base_url (self σ) = "https://api.hyperliquid.xyz"
  /\ wallet (self σ) = w
  /\ Forall (fun req => url req = info_url
                        \/ (url req = exchange_url /\ vaultless_submission w req))
       (requests (env σ)).

(** ** Tracking one call *)

(** From a state in [P], [m] returns [a] in a state in [Q a], or raises
    in a state in [E]. *)
Definition triple {A} (P : state -> Prop) (m : M A) (Q : A -> state -> Prop)
    (E : state -> Prop) : Prop :=
  forall σ, P σ ->
    match m σ with
    | (Ok a, σ') => Q a σ'
    | (Raise _, σ') => E σ'
    end.

(** Since the call started in [σ0] the client is unchanged and nothing
    was sent; the clock was not read ([None]) or was read once, giving
    [t] ([Some t]). *)
Definition awaiting (σ0 : state) (t : option Z) (σ : state) : Prop :=
  self σ = self σ0
  /\ requests (env σ) = requests (env σ0)
  /\ match t with
     | None => clock_reads (env σ) = clock_reads (env σ0)
     | Some n => clock_reads (env σ) = S (clock_reads (env σ0))
                 /\ n = clock (clock_reads (env σ0))
     end.

(** How often a submitting call reads the clock: the five trading
    operations once, [_post_action] never. *)
Definition clock_reads_of_call (c : call) : nat :=
  match c with
  | Call_post_action _ _ => 0
  | _ => 1
  end.

(** Since the call started in [σ0] the clock was read exactly [reads]
    times and exactly one request was sent, a submission with nonce
    [nonce]. *)
Definition submitted_once (σ0 : state) (reads : nat) (nonce : Z) (σ : state) : Prop :=
  clock_reads (env σ) = (clock_reads (env σ0) + reads)%nat
  /\ exists req,
       requests (env σ) = requests (env σ0) ++ [req]
       /\ submitted_with_nonce (self σ0) nonce req.

(** Since the call started in [σ0] nothing was sent, and the clock was
    read at most [reads] times. *)
Definition nothing_submitted (σ0 : state) (reads : nat) (σ : state) : Prop :=
  (clock_reads (env σ0) <= clock_reads (env σ) <= clock_reads (env σ0) + reads)%nat
  /\ requests (env σ) = requests (env σ0).

(** How a submitting call that raised has left the world. *)
Definition submission_failed (σ0 : state) (reads : nat) (nonce : Z) (σ : state) : Prop :=
  submitted_once σ0 reads nonce σ \/ nothing_submitted σ0 reads σ.

(** ** Reading a wire text back *)

(** What a plain numeral spells: the number
    [(-1) ^ read_negative * read_digits / 10 ^ read_decimals]. *)
Record decimal_reading : Type := {
  read_negative : bool;
  read_digits : Z;
  read_decimals : nat
}.

Definition read_decimal (s : string) : option decimal_reading :=
  match parse_numeral (list_ascii_of_string s) with
  | Some n =>
      Some {| read_negative := num_sign n;
              read_digits := int_of_digits (num_int n ++ num_frac n);
              read_decimals := List.length (num_frac n) |}
  | None => None
  end.

(** ** What [__aenter__] registers and schedules *)

(** The asset called [name] is not listed in [universe]. *)
Definition unlisted (name : string) (universe : list value) : Prop :=
  Forall (fun asset_info => subscript asset_info "name" <> Ok (VStr name)) universe.

(** The task scheduled for an asset: its name and its maximal leverage. *)
Definition task_for (asset_info : value) (t : task) : Prop :=
  subscript asset_info "name" = Ok (VStr (task_asset_name t))
  /\ subscript asset_info "maxLeverage" = Ok (task_leverage t).

(** ** Queries *)

(** The calls that only query the exchange. *)
Definition is_query (c : call) : bool :=
  match c with
  | Call_query_order_by_oid _ | Call_user_state | Call_get_universe
  | Call_open_orders | Call_meta | Call_get_positions | Call_get_balance
  | Call_get_order_status _ => true
  | _ => false
  end.
(** * Results *)

(** ** Positional digits *)

Lemma digits_le_range fuel b n :
  2 <= b -> 0 <= n ->
  Forall (fun d => 0 <= d < b) (digits_le fuel b n).
Proof.
  intros Hb. revert n. induction fuel as [|fuel IH]; intros n Hn; simpl.
  - constructor.
  - destruct (Z.ltb_spec n b).
    + repeat constructor; lia.
    + constructor.
      * apply Z.mod_pos_bound. lia.
      * apply IH. apply Z.div_pos; lia.
Qed.

Lemma digits_le_value fuel b n :
  2 <= b -> 0 <= n < 2 ^ Z.of_nat fuel ->
  fold_right (fun d acc => b * acc + d) 0 (digits_le fuel b n) = n.
Proof.
  intros Hb. revert n. induction fuel as [|fuel IH]; intros n Hn.
  - simpl in *. lia.
  - simpl digits_le. destruct (Z.ltb_spec n b).
    + simpl. lia.
    + simpl. rewrite IH.
      * rewrite (Z.div_mod n b) at 3 by lia. lia.
      * split; [apply Z.div_pos; lia|].
        rewrite Nat2Z.inj_succ, Z.pow_succ_r in Hn by lia.
        apply Z.div_lt_upper_bound; [lia|]. nia.
Qed.

Lemma digits_le_length_le fuel b n k :
  2 <= b -> 0 <= n < b ^ Z.of_nat k -> (0 < k)%nat ->
  (List.length (digits_le fuel b n) <= k)%nat.
Proof.
  intros Hb. revert n k. induction fuel as [|fuel IH]; intros n k Hn Hk; simpl.
  - lia.
  - destruct (Z.ltb_spec n b); simpl; [lia|].
    destruct k as [|[|k]]; [lia| |].
    + simpl in Hn. lia.
    + apply le_n_S. apply IH; [|lia].
      split; [apply Z.div_pos; lia|].
      rewrite Nat2Z.inj_succ, Z.pow_succ_r in Hn by lia.
      apply Z.div_lt_upper_bound; lia.
Qed.

Lemma digits_le_length_ge fuel b n k :
  2 <= b -> b ^ Z.of_nat k <= n < 2 ^ Z.of_nat fuel ->
  (k < List.length (digits_le fuel b n))%nat.
Proof.
  intros Hb. revert n k. induction fuel as [|fuel IH]; intros n k Hn.
  - simpl in Hn. assert (0 < b ^ Z.of_nat k) by (apply Z.pow_pos_nonneg; lia). lia.
  - simpl. destruct (Z.ltb_spec n b); simpl.
    + destruct k; [lia|].
      rewrite Nat2Z.inj_succ, Z.pow_succ_r in Hn by lia.
      assert (0 < b ^ Z.of_nat k) by (apply Z.pow_pos_nonneg; lia). nia.
    + destruct k; [lia|]. apply -> Nat.succ_lt_mono. apply IH.
      rewrite !Nat2Z.inj_succ, !Z.pow_succ_r in Hn by lia.
      split.
      * apply Z.div_le_lower_bound; lia.
      * apply Z.div_lt_upper_bound; [lia|]. nia.
Qed.

Lemma digits_le_last fuel b n :
  2 <= b -> 0 < n < 2 ^ Z.of_nat fuel ->
  exists d l, digits_le fuel b n = l ++ [d] /\ 0 < d.
Proof.
  intros Hb. revert n. induction fuel as [|fuel IH]; intros n Hn.
  - simpl in Hn. lia.
  - simpl. destruct (Z.ltb_spec n b).
    + exists n, []. split; [reflexivity|lia].
    + destruct (IH (n / b)) as (d & l & -> & Hd).
      * split.
        -- apply Z.div_str_pos. lia.
        -- rewrite Nat2Z.inj_succ, Z.pow_succ_r in Hn by lia.
           apply Z.div_lt_upper_bound; [lia|]. nia.
      * exists d, (n mod b :: l). split; [reflexivity|lia].
Qed.

Lemma log2_fuel n : 0 <= n -> n < 2 ^ Z.of_nat (S (Z.to_nat (Z.log2 n))).
Proof.
  intros Hn. rewrite Nat2Z.inj_succ, Z2Nat.id by apply Z.log2_nonneg.
  destruct (Z.eq_dec n 0) as [->|]; [reflexivity|].
  apply Z.log2_spec. lia.
Qed.

Lemma digits_range b n :
  2 <= b -> 0 <= n -> Forall (fun d => 0 <= d < b) (digits b n).
Proof.
  intros. unfold digits. apply Forall_rev. now apply digits_le_range.
Qed.

(** The digits of [n] spell [n]. *)
Lemma digits_value b n :
  2 <= b -> 0 <= n ->
  fold_left (fun acc d => b * acc + d) (digits b n) 0 = n.
Proof.
  intros Hb Hn. unfold digits.
  pose proof (fold_left_rev_right (fun d acc => b * acc + d)
                (rev (digits_le (S (Z.to_nat (Z.log2 n))) b n)) 0) as H.
  rewrite rev_involutive in H. rewrite <- H.
  apply digits_le_value; [lia|]. split; [lia|]. now apply log2_fuel.
Qed.

Lemma digits_length_le b n k :
  2 <= b -> 0 <= n < b ^ Z.of_nat k -> (0 < k)%nat ->
  (List.length (digits b n) <= k)%nat.
Proof.
  intros. unfold digits. rewrite length_rev. now apply digits_le_length_le.
Qed.

Lemma digits_length_ge b n k :
  2 <= b -> b ^ Z.of_nat k <= n ->
  (k < List.length (digits b n))%nat.
Proof.
  intros Hb Hn. unfold digits. rewrite length_rev.
  apply digits_le_length_ge; [lia|]. split; [lia|].
  apply log2_fuel.
  assert (0 < b ^ Z.of_nat k) by (apply Z.pow_pos_nonneg; lia). lia.
Qed.

Lemma digits_nonempty b n : digits b n <> [].
Proof.
  unfold digits. simpl. destruct (n <? b); simpl; intros H.
  - discriminate H.
  - apply app_eq_nil in H. destruct H as [_ H]. discriminate H.
Qed.

(** A positive number has no leading zero digit. *)
Lemma digits_head b n :
  2 <= b -> 0 < n -> exists d l, digits b n = d :: l /\ 0 < d.
Proof.
  intros Hb Hn. unfold digits.
  destruct (digits_le_last (S (Z.to_nat (Z.log2 n))) b n) as (d & l & -> & Hd);
    [lia| |].
  - split; [lia|]. apply log2_fuel. lia.
  - exists d, (rev l). now rewrite rev_app_distr.
Qed.

(** ** Decimal text *)

Lemma digit_value_char d : 0 <= d < 10 -> digit_value (digit_char d) = d.
Proof.
  intros Hd. unfold digit_value, digit_char.
  rewrite N_ascii_embedding, Z2N.id by lia. lia.
Qed.

Lemma is_digit_char d : 0 <= d < 10 -> is_digit (digit_char d) = true.
Proof.
  intros Hd. unfold is_digit, digit_char.
  rewrite N_ascii_embedding, Z2N.id by lia. lia.
Qed.

Lemma is_digit_not_mark c :
  is_digit c = true ->
  Ascii.eqb c "-" = false /\ Ascii.eqb c "+" = false /\ Ascii.eqb c "." = false.
Proof.
  intros H. repeat split.
  all: destruct (Ascii.eqb_spec c "-"), (Ascii.eqb_spec c "+"), (Ascii.eqb_spec c ".");
    subst; try reflexivity; discriminate H.
Qed.

Lemma decimal_text_digits n : 0 <= n -> forallb is_digit (decimal_text n) = true.
Proof.
  intros Hn. unfold decimal_text. apply forallb_forall. intros c Hc.
  apply in_map_iff in Hc as (d & <- & Hd).
  pose proof (digits_range 10 n ltac:(lia) Hn) as Hr.
  rewrite List.Forall_forall in Hr. apply is_digit_char, Hr, Hd.
Qed.

Lemma decimal_text_nonempty n : decimal_text n <> [].
Proof.
  unfold decimal_text. pose proof (digits_nonempty 10 n).
  destruct (digits 10 n); [congruence|discriminate].
Qed.

Lemma decimal_text_length n k :
  0 <= n < 10 ^ Z.of_nat k -> (0 < k)%nat ->
  (List.length (decimal_text n) <= k)%nat.
Proof.
  intros. unfold decimal_text. rewrite length_map.
  apply digits_length_le; lia.
Qed.

Lemma int_of_digits_from acc s :
  fold_left (fun a c => 10 * a + digit_value c) s acc
  = acc * 10 ^ Z.of_nat (List.length s) + int_of_digits s.
Proof.
  unfold int_of_digits. revert acc. induction s as [|c s IH]; intros acc.
  - simpl. lia.
  - cbn [fold_left List.length]. rewrite IH, (IH (10 * 0 + digit_value c)).
    rewrite Nat2Z.inj_succ, Z.pow_succ_r by lia. lia.
Qed.

Lemma int_of_digits_app s t :
  int_of_digits (s ++ t)
  = int_of_digits s * 10 ^ Z.of_nat (List.length t) + int_of_digits t.
Proof.
  unfold int_of_digits at 1. rewrite fold_left_app.
  fold (int_of_digits s). apply int_of_digits_from.
Qed.

Lemma fold_digit_chars l acc :
  Forall (fun d => 0 <= d < 10) l ->
  fold_left (fun a c => 10 * a + digit_value c) (map digit_char l) acc
  = fold_left (fun a d => 10 * a + d) l acc.
Proof.
  intros Hl. revert acc. induction Hl as [|d l Hd _ IH]; intros acc.
  - reflexivity.
  - simpl. rewrite digit_value_char by lia. apply IH.
Qed.

(** [int(str(n)) = n]. *)
Lemma int_of_decimal_text n : 0 <= n -> int_of_digits (decimal_text n) = n.
Proof.
  intros Hn. unfold int_of_digits, decimal_text.
  rewrite fold_digit_chars by (apply digits_range; lia).
  apply digits_value; lia.
Qed.

Lemma int_of_digits_zeros k s :
  int_of_digits (repeat "0"%char k ++ s) = int_of_digits s.
Proof.
  induction k as [|k IH]; [reflexivity|].
  simpl. unfold int_of_digits in *. simpl. exact IH.
Qed.

Lemma zero_pad_digits w s :
  forallb is_digit s = true -> forallb is_digit (zero_pad w s) = true.
Proof.
  intros H. unfold zero_pad. rewrite forallb_app, H, andb_true_r.
  induction (w - List.length s)%nat; [reflexivity|assumption].
Qed.

Lemma zero_pad_length w s :
  (List.length s <= w)%nat -> List.length (zero_pad w s) = w.
Proof.
  intros H. unfold zero_pad. rewrite length_app, repeat_length. lia.
Qed.

(** ** Reading numerals *)

Lemma span_digits_app ds rest :
  forallb is_digit ds = true ->
  match rest with
  | [] => True
  | c :: _ => is_digit c = false
  end ->
  span_digits (ds ++ rest) = (ds, rest).
Proof.
  intros Hds Hrest. induction ds as [|d ds IH].
  - simpl. destruct rest as [|c rest]; [reflexivity|]. simpl. now rewrite Hrest.
  - simpl in *. apply andb_true_iff in Hds as [Hd Hds].
    rewrite Hd, IH by assumption. reflexivity.
Qed.

Lemma split_sign_text s body :
  match body with
  | [] => True
  | c :: _ => is_digit c = true
  end ->
  split_sign (sign_text s ++ body) = (s, body).
Proof.
  intros Hb. destruct s; [reflexivity|].
  destruct body as [|c body]; [reflexivity|].
  simpl. destruct (is_digit_not_mark c Hb) as (-> & -> & _). reflexivity.
Qed.

(** A sign, digits, a point and digits read back as themselves. *)
Lemma parse_numeral_fixed s ip fp :
  ip <> [] ->
  forallb is_digit ip = true ->
  forallb is_digit fp = true ->
  parse_numeral (sign_text s ++ ip ++ "."%char :: fp) = Some (Numeral s ip fp).
Proof.
  intros Hne Hip Hfp. unfold parse_numeral.
  rewrite split_sign_text.
  2:{ destruct ip as [|c ip]; [congruence|]. simpl in *.
      now apply andb_true_iff in Hip as [-> _]. }
  rewrite span_digits_app by (assumption || reflexivity).
  simpl. rewrite <- (app_nil_r fp) at 1.
  rewrite span_digits_app by (assumption || exact I).
  destruct ip; [congruence|]. reflexivity.
Qed.

Lemma fixed8_text_parse s n :
  0 <= n ->
  parse_numeral (fixed8_text s n)
  = Some (Numeral s (decimal_text (n / 10 ^ 8))
            (zero_pad 8 (decimal_text (n mod 10 ^ 8)))).
Proof.
  intros Hn. unfold fixed8_text. apply parse_numeral_fixed.
  - apply decimal_text_nonempty.
  - apply decimal_text_digits. apply Z.div_pos; lia.
  - apply zero_pad_digits, decimal_text_digits. apply Z.mod_pos_bound. lia.
Qed.

Lemma fixed8_text_frac_length n :
  List.length (zero_pad 8 (decimal_text (n mod 10 ^ 8))) = 8%nat.
Proof.
  apply zero_pad_length. apply decimal_text_length; [|lia].
  apply Z.mod_pos_bound. lia.
Qed.

Lemma fixed8_text_value n :
  0 <= n ->
  int_of_digits (decimal_text (n / 10 ^ 8) ++ zero_pad 8 (decimal_text (n mod 10 ^ 8))) = n.
Proof.
  intros Hn. rewrite int_of_digits_app, fixed8_text_frac_length.
  unfold zero_pad. rewrite int_of_digits_zeros, !int_of_decimal_text.
  - change (Z.of_nat 8) with 8. rewrite (Z.div_mod n (10 ^ 8)) at 3 by lia. lia.
  - apply Z.mod_pos_bound. lia.
  - apply Z.div_pos; lia.
Qed.

Lemma fixed8_text_point s n : In "."%char (fixed8_text s n).
Proof.
  unfold fixed8_text. rewrite !in_app_iff. right. right. now left.
Qed.

Lemma text_with_point_neq t c :
  In "."%char t ->
  existsb (Ascii.eqb ".") (list_ascii_of_string c) = false ->
  String.eqb (string_of_list_ascii t) c = false.
Proof.
  intros Hin Hc. destruct (String.eqb_spec (string_of_list_ascii t) c) as [<-|]; [|reflexivity].
  rewrite list_ascii_of_string_of_list_ascii in Hc.
  assert (existsb (Ascii.eqb ".") t = true) as Ht; [|congruence].
  apply existsb_exists. exists "."%char. split; [assumption|apply Ascii.eqb_refl].
Qed.

(** ** Floats *)

Lemma round_half_even_nonneg num den : 0 <= num -> 0 < den -> 0 <= round_half_even num den.
Proof.
  intros Hn Hd. unfold round_half_even.
  assert (0 <= num / den) by (apply Z.div_pos; lia).
  destruct (2 * (num mod den) ?= den); [destruct (Z.even _)| |]; lia.
Qed.

Lemma round_half_even_le num den : 0 <= num -> 0 < den -> round_half_even num den <= num / den + 1.
Proof.
  intros Hn Hd. unfold round_half_even.
  destruct (2 * (num mod den) ?= den); [destruct (Z.even _)| |]; lia.
Qed.

Lemma scaled8_nonneg m e : 0 <= scaled8 m e.
Proof.
  unfold scaled8. destruct (0 <=? e) eqn:He.
  - assert (0 <= 2 ^ e) by (apply Z.pow_nonneg; lia). nia.
  - apply round_half_even_nonneg; [lia|]. apply Z.pow_pos_nonneg; lia.
Qed.

Lemma magnitude8_nonneg x : 0 <= magnitude8 x.
Proof. destruct x; simpl; try lia. apply scaled8_nonneg. Qed.

(** The text [format_8f] produces for a finite float. *)
Lemma format_8f_finite x :
  is_finite x = true ->
  format_8f x = string_of_list_ascii (fixed8_text (sign_of x) (magnitude8 x)).
Proof. destruct x; simpl; intros H; try discriminate H; reflexivity. Qed.

(** [float] reads the text of a finite float as the float nearest to the
    eight-decimal number it spells. *)
Lemma float_of_str_format_8f x :
  is_finite x = true ->
  float_of_str (format_8f x) = Ok (rounded_to_8_digits x).
Proof.
  intros Hx. rewrite format_8f_finite by assumption.
  unfold float_of_str.
  rewrite !text_with_point_neq by (apply fixed8_text_point || reflexivity).
  rewrite list_ascii_of_string_of_list_ascii, fixed8_text_parse by apply magnitude8_nonneg.
  cbn [num_sign num_int num_frac].
  rewrite fixed8_text_value by apply magnitude8_nonneg.
  rewrite fixed8_text_frac_length. reflexivity.
Qed.

(** The guard [rounded == "-0"] never holds: the text always carries its
    eight decimals. *)
Lemma format_8f_never_minus_zero x : String.eqb (format_8f x) "-0" = false.
Proof.
  destruct x as [s|[]| |s m e]; try reflexivity; simpl;
    apply text_with_point_neq; solve [apply fixed8_text_point | reflexivity].
Qed.

(** ** Decimal *)

Lemma strip_leading_zeros_digits s :
  forallb is_digit s = true -> forallb is_digit (strip_leading_zeros s) = true.
Proof.
  induction s as [|c s IH]; [reflexivity|]. intros H. simpl.
  destruct (Ascii.eqb c "0"); [|exact H].
  simpl in H. apply andb_true_iff in H as [_ H]. now apply IH.
Qed.

Lemma strip_leading_zeros_length s :
  (List.length (strip_leading_zeros s) <= List.length s)%nat.
Proof.
  induction s as [|c s IH]; [reflexivity|]. simpl.
  destruct (Ascii.eqb c "0"); simpl; lia.
Qed.

Lemma canonical_digits_ok s :
  forallb is_digit s = true ->
  canonical_digits s <> []
  /\ forallb is_digit (canonical_digits s) = true
  /\ (List.length (canonical_digits s) <= S (List.length s))%nat.
Proof.
  intros H. unfold canonical_digits.
  pose proof (strip_leading_zeros_digits s H) as Hd.
  pose proof (strip_leading_zeros_length s) as Hl.
  destruct (strip_leading_zeros s) as [|c t].
  - repeat split; [discriminate|simpl; lia].
  - repeat split; [discriminate|assumption|lia].
Qed.

Lemma fold_digits_nonneg s acc :
  forallb is_digit s = true -> 0 <= acc ->
  0 <= fold_left (fun a c => 10 * a + digit_value c) s acc.
Proof.
  revert acc. induction s as [|c s IH]; intros acc H Hacc; [exact Hacc|].
  simpl in *. apply andb_true_iff in H as [Hc H]. apply IH; [assumption|].
  unfold is_digit, digit_value in *. lia.
Qed.

Lemma firstn_digits k s :
  forallb is_digit s = true -> forallb is_digit (firstn k s) = true.
Proof.
  revert k. induction s as [|c s IH]; intros [|k] H; try reflexivity.
  simpl in *. apply andb_true_iff in H as [-> H]. now apply IH.
Qed.

Lemma skipn_digits k s :
  forallb is_digit s = true -> forallb is_digit (skipn k s) = true.
Proof.
  revert k. induction s as [|c s IH]; intros [|k] H; try reflexivity; try exact H.
  simpl in *. apply andb_true_iff in H as [_ H]. now apply IH.
Qed.

Lemma removelast_digits s :
  forallb is_digit s = true -> forallb is_digit (removelast s) = true.
Proof.
  induction s as [|c s IH]; [reflexivity|]. intros H.
  simpl in *. apply andb_true_iff in H as [Hc H].
  destruct s; [reflexivity|]. simpl. rewrite Hc. now apply IH.
Qed.

(** Below the overflow threshold [_fix] returns a finite decimal of the
    same sign whose coefficient is a non-empty run of digits. *)
Lemma Decimal_fix_ok sign c exp :
  c <> [] -> forallb is_digit c = true ->
  Z.of_nat (List.length c) + exp - ctx_prec < ctx_Etop ->
  exists c' exp',
    Decimal_fix (Dec sign c exp) = Ok (Dec sign c' exp')
    /\ c' <> [] /\ forallb is_digit c' = true.
Proof.
  intros Hne Hd Hlen. unfold Decimal_fix.
  destruct (is_zero_coeff c).
  { eexists _, _. split; [reflexivity|]. split; [discriminate|reflexivity]. }
  set (len := Z.of_nat (List.length c)) in *.
  destruct (Z.ltb_spec ctx_Etop (len + exp - ctx_prec)); [lia|].
  set (exp_min := Z.max (len + exp - ctx_prec) ctx_Etiny).
  assert (exp_min < ctx_Etop) as Hem.
  { unfold exp_min, ctx_Etiny, ctx_Etop, ctx_Emin, ctx_Emax, ctx_prec in *. lia. }
  destruct (exp <? exp_min); [|eauto].
  set (cn := if len + exp - exp_min <? 0 then (["1"%char], 0) else (c, len + exp - exp_min)).
  assert (forallb is_digit cn.1 = true) as Hcn.
  { unfold cn. destruct (_ <? 0); [reflexivity|assumption]. }
  destruct cn as [c1 nd]. simpl in Hcn.
  set (kept := match firstn (Z.to_nat nd) c1 with [] => ["0"%char] | k => k end).
  assert (kept <> [] /\ forallb is_digit kept = true) as [Hk1 Hk2].
  { unfold kept. pose proof (firstn_digits (Z.to_nat nd) c1 Hcn) as Hf.
    destruct (firstn _ c1); [split; [discriminate|reflexivity]|].
    split; [discriminate|assumption]. }
  destruct (rounds_up c1 (Z.to_nat nd)); [|eauto].
  set (bumped := decimal_text (int_of_digits kept + 1)).
  assert (forallb is_digit bumped = true) as Hb.
  { apply decimal_text_digits.
    pose proof (fold_digits_nonneg kept 0 Hk2 ltac:(lia)). unfold int_of_digits. lia. }
  destruct (Z.ltb_spec ctx_prec (Z.of_nat (List.length bumped))) as [Hlong|].
  - destruct (Z.ltb_spec ctx_Etop (exp_min + 1)); [lia|].
    eexists _, _. split; [reflexivity|]. split; [|now apply removelast_digits].
    destruct bumped as [|b1 [|b2 bs]]; simpl in *;
      unfold ctx_prec in Hlong; try lia. discriminate.
  - eexists _, _. split; [reflexivity|]. split; [apply decimal_text_nonempty|assumption].
Qed.

Lemma strip_trailing_zeros_spec r exp :
  is_zero_coeff r = false ->
  forallb is_digit r = true ->
  exists d r' exp',
    strip_trailing_zeros r exp = (d :: r', exp')
    /\ forallb is_digit (d :: r') = true
    /\ (exp' < 0 -> d <> "0"%char).
Proof.
  revert exp. induction r as [|c r IH]; intros exp Hz Hd; [discriminate Hz|].
  simpl in Hz, Hd |- *. apply andb_true_iff in Hd as [Hc Hd].
  destruct (Ascii.eqb_spec c "0") as [->|Hc0].
  - simpl in Hz. destruct (Z.ltb_spec exp ctx_Emax); simpl.
    + now apply IH.
    + exists "0"%char, r, exp. repeat split; [now simpl; rewrite Hd|].
      unfold ctx_Emax in *. lia.
  - simpl. exists c, r, exp. repeat split; [simpl; now rewrite Hc, Hd|].
    intros _. exact Hc0.
Qed.

Lemma is_zero_coeff_rev c : is_zero_coeff (rev c) = is_zero_coeff c.
Proof.
  unfold is_zero_coeff. induction c as [|d c IH]; [reflexivity|].
  simpl. rewrite forallb_app, IH. simpl. rewrite andb_true_r. apply andb_comm.
Qed.

Lemma forallb_rev {A} (f : A -> bool) l : forallb f (rev l) = forallb f l.
Proof.
  induction l as [|x l IH]; [reflexivity|].
  simpl. rewrite forallb_app, IH. simpl. rewrite andb_true_r. apply andb_comm.
Qed.

(** Below the overflow threshold [normalize] returns a finite decimal of
    the same sign; its coefficient is a non-empty run of digits, and ends
    in a non-zero digit whenever the exponent is negative. *)
Lemma Decimal_normalize_ok sign c exp :
  c <> [] -> forallb is_digit c = true ->
  Z.of_nat (List.length c) + exp - ctx_prec < ctx_Etop ->
  exists c' exp',
    Decimal_normalize (Dec sign c exp) = Ok (Dec sign c' exp')
    /\ c' <> [] /\ forallb is_digit c' = true
    /\ (exp' < 0 -> List.last c' "1"%char <> "0"%char).
Proof.
  intros Hne Hd Hlen. unfold Decimal_normalize.
  destruct (Decimal_fix_ok sign c exp Hne Hd Hlen) as (c1 & e1 & -> & Hc1 & Hd1).
  cbn [mbind result_bind].
  destruct (is_zero_coeff c1) eqn:Hz.
  { eexists _, _. split; [reflexivity|]. repeat split; [discriminate|simpl; lia]. }
  destruct (strip_trailing_zeros_spec (rev c1) e1) as (d & r & e2 & -> & Hdr & Hlast).
  { now rewrite is_zero_coeff_rev. }
  { now rewrite forallb_rev. }
  eexists _, _. split; [reflexivity|]. repeat split.
  - simpl. intros H. apply app_eq_nil in H as [_ H]. discriminate H.
  - now rewrite forallb_rev.
  - intros He. simpl. rewrite last_last. now apply Hlast.
Qed.

Lemma last_app_nonempty {A} (l1 l2 : list A) d :
  l2 <> [] -> List.last (l1 ++ l2) d = List.last l2 d.
Proof.
  intros H. induction l1 as [|x l1 IH]; [reflexivity|].
  simpl. rewrite IH. destruct (l1 ++ l2) eqn:E; [|reflexivity].
  apply app_eq_nil in E as [_ E]. congruence.
Qed.

Lemma last_skipn {A} k (l : list A) d :
  skipn k l <> [] -> List.last (skipn k l) d = List.last l d.
Proof.
  intros H. rewrite <- (firstn_skipn k l) at 2.
  symmetry. now apply last_app_nonempty.
Qed.

Lemma repeat_zero_digits k : forallb is_digit (repeat "0"%char k) = true.
Proof. induction k; [reflexivity|assumption]. Qed.

(** Positional formatting of a normalised finite decimal is plain
    fixed-point text. *)
Lemma Decimal_format_f_plain sign c exp :
  c <> [] -> forallb is_digit c = true ->
  (exp < 0 -> List.last c "1"%char <> "0"%char) ->
  plain_fixed_point (Decimal_format_f (Dec sign c exp)).
Proof.
  intros Hne Hd Hlast. unfold plain_fixed_point, Decimal_format_f.
  set (len := Z.of_nat (List.length c)).
  destruct (Z.ltb_spec (exp + len) 0) as [Hneg|Hnn].
  - exists sign, ["0"%char], (repeat "0"%char (Z.to_nat (- (exp + len))) ++ c).
    rewrite list_ascii_of_string_of_list_ascii.
    split; [reflexivity|]. split; [discriminate|]. split; [reflexivity|].
    split.
    + now rewrite forallb_app, repeat_zero_digits, Hd.
    + rewrite last_app_nonempty by assumption. apply Hlast. lia.
  - destruct (Z.ltb_spec len (exp + len)) as [Hbig|Hin].
    + exists sign, (c ++ repeat "0"%char (Z.to_nat (exp + len - len))), [].
      rewrite list_ascii_of_string_of_list_ascii.
      split; [reflexivity|].
      split; [intros H; apply app_eq_nil in H as [H _]; congruence|].
      split; [now rewrite forallb_app, repeat_zero_digits, Hd|].
      split; [reflexivity|discriminate].
    + exists sign, (match firstn (Z.to_nat (exp + len)) c with
                    | [] => ["0"%char]
                    | ip => ip
                    end), (skipn (Z.to_nat (exp + len)) c).
      rewrite list_ascii_of_string_of_list_ascii.
      split; [reflexivity|].
      pose proof (firstn_digits (Z.to_nat (exp + len)) c Hd) as Hf.
      split; [destruct (firstn _ c); discriminate|].
      split; [destruct (firstn _ c); [reflexivity|assumption]|].
      split; [now apply skipn_digits|].
      destruct (skipn (Z.to_nat (exp + len)) c) eqn:Hs; [discriminate|].
      rewrite <- Hs, last_skipn by (rewrite Hs; discriminate).
      apply Hlast.
      assert (Z.to_nat (exp + len) < List.length c)%nat; [|lia].
      destruct (Nat.lt_ge_cases (Z.to_nat (exp + len)) (List.length c)); [assumption|].
      rewrite skipn_all2 in Hs by assumption. discriminate Hs.
Qed.

(** Plain fixed-point text holds no exponent marker and no plus sign: its
    characters are digits, at most one point, and a leading minus. *)
Lemma plain_fixed_point_chars s c :
  plain_fixed_point s -> In c (list_ascii_of_string s) ->
  is_digit c = true \/ c = "."%char \/ c = "-"%char.
Proof.
  intros (neg & ip & fp & -> & _ & Hip & Hfp & _) Hin.
  rewrite forallb_forall in Hip, Hfp.
  apply in_app_iff in Hin as [Hin|Hin].
  { destruct neg; simpl in Hin; [|tauto]. destruct Hin as [<-|[]]. tauto. }
  apply in_app_iff in Hin as [Hin|Hin]; [left; now apply Hip|].
  destruct fp; simpl in Hin; [tauto|].
  destruct Hin as [<-|Hin]; [tauto|]. left. apply Hfp. exact Hin.
Qed.

(** ** float_to_wire *)

Lemma digits2_pos_bound m : Z.pos m < 2 ^ Z.pos (digits2_pos m).
Proof.
  induction m as [m IH|m IH|]; simpl digits2_pos; [| |reflexivity].
  - rewrite Pos2Z.inj_succ, Z.pow_succ_r by lia.
    change (Z.pos m~1) with (2 * Z.pos m + 1). lia.
  - rewrite Pos2Z.inj_succ, Z.pow_succ_r by lia.
    change (Z.pos m~0) with (2 * Z.pos m). lia.
Qed.

(** A binary64 mantissa has at most 53 bits, and the exponent of a finite
    float is at most 971. *)
Lemma valid_finite_bounds s m e :
  valid_binary prec emax (S754_finite s m e) = true ->
  Z.pos m < 2 ^ 53 /\ e <= 971.
Proof.
  unfold valid_binary, bounded, canonical_mantissa, fexp, emin, prec, emax.
  intros H. apply andb_true_iff in H as [H1 H2].
  apply Z.eqb_eq in H1. apply Z.leb_le in H2.
  split; [|lia].
  pose proof (digits2_pos_bound m) as Hm.
  assert (Z.pos (digits2_pos m) <= 53) as Hd by lia.
  apply Z.lt_le_trans with (1 := Hm).
  apply Z.pow_le_mono_r; lia.
Qed.

Lemma magnitude8_bound x :
  valid_binary prec emax x = true -> magnitude8 x / 10 ^ 8 < 2 ^ 1025.
Proof.
  destruct x as [s|s| |s m e]; try (intros _; reflexivity).
  intros Hv. apply valid_finite_bounds in Hv as [Hm He].
  simpl. unfold scaled8. destruct (Z.leb_spec 0 e).
  - rewrite Z.div_mul by lia.
    assert (2 ^ e <= 2 ^ 971) by (apply Z.pow_le_mono_r; lia).
    assert (0 < 2 ^ e) by (apply Z.pow_pos_nonneg; lia).
    change (2 ^ 1025) with (2 ^ 53 * 2 ^ 971 * 2). nia.
  - assert (0 < 2 ^ (- e)) as Hp by (apply Z.pow_pos_nonneg; lia).
    pose proof (round_half_even_le (Z.pos m * 10 ^ 8) (2 ^ (- e)) ltac:(lia) Hp) as Hr.
    assert (Z.pos m * 10 ^ 8 / 2 ^ (- e) <= Z.pos m * 10 ^ 8) as Hq.
    { apply Z.div_le_upper_bound; [lia|]. nia. }
    apply Z.div_lt_upper_bound; [lia|].
    change (2 ^ 1025) with (2 ^ 53 * 2 ^ 972). lia.
Qed.

(** The coefficient [Decimal] reads from the text of a finite float. *)
Lemma Decimal_of_str_format_8f x :
  is_finite x = true ->
  valid_binary prec emax x = true ->
  exists c,
    Decimal_of_str (format_8f x) = Ok (Dec (sign_of x) c (-8))
    /\ c <> [] /\ forallb is_digit c = true
    /\ (List.length c <= 1034)%nat.
Proof.
  intros Hx Hv. rewrite format_8f_finite by assumption.
  unfold Decimal_of_str.
  rewrite !text_with_point_neq by (apply fixed8_text_point || reflexivity).
  rewrite list_ascii_of_string_of_list_ascii, fixed8_text_parse by apply magnitude8_nonneg.
  cbn [num_sign num_int num_frac]. rewrite fixed8_text_frac_length.
  set (ip := decimal_text (magnitude8 x / 10 ^ 8)).
  set (fp := zero_pad 8 (decimal_text (magnitude8 x mod 10 ^ 8))).
  assert (forallb is_digit (ip ++ fp) = true) as Hd.
  { rewrite forallb_app. apply andb_true_iff. split.
    - apply decimal_text_digits. apply Z.div_pos; [apply magnitude8_nonneg|lia].
    - apply zero_pad_digits, decimal_text_digits. apply Z.mod_pos_bound. lia. }
  destruct (canonical_digits_ok _ Hd) as (Hne & Hcd & Hlen).
  eexists. split; [reflexivity|]. repeat split; try assumption.
  rewrite length_app in Hlen.
  assert (List.length fp = 8%nat) as Hfp by apply fixed8_text_frac_length.
  assert (List.length ip <= 1025)%nat; [|lia].
  apply decimal_text_length; [|lia]. split.
  - apply Z.div_pos; [apply magnitude8_nonneg|lia].
  - apply Z.lt_trans with (1 := magnitude8_bound x Hv).
    apply Z.pow_lt_mono_l; lia.
Qed.

(** When the rounding check passes, the rest of [float_to_wire] cannot
    fail and yields plain fixed-point text. *)
Lemma float_to_wire_finite x :
  is_finite x = true ->
  valid_binary prec emax x = true ->
  if precision_lost x
  then float_to_wire x = Raise (ValueError "float_to_wire causes rounding" (VFloat x))
  else exists s, float_to_wire x = Ok s /\ plain_fixed_point s.
Proof.
  intros Hx Hv. unfold float_to_wire.
  rewrite float_of_str_format_8f by assumption. cbn [mbind result_bind].
  fold (precision_lost x). destruct (precision_lost x); [reflexivity|].
  rewrite format_8f_never_minus_zero.
  destruct (Decimal_of_str_format_8f x Hx Hv) as (c & -> & Hne & Hd & Hlen).
  cbn [mbind result_bind].
  destruct (Decimal_normalize_ok (sign_of x) c (-8) Hne Hd) as (c' & e' & -> & Hne' & Hd' & Hl').
  { unfold ctx_Etop, ctx_prec, ctx_Emax. lia. }
  cbn [mbind result_bind].
  eexists. split; [reflexivity|]. now apply Decimal_format_f_plain.
Qed.

(** ** The value float_to_wire writes *)

Lemma int_of_digits_cons c s :
  int_of_digits (c :: s)
  = digit_value c * 10 ^ Z.of_nat (List.length s) + int_of_digits s.
Proof.
  change (c :: s) with ([c] ++ s). rewrite int_of_digits_app.
  unfold int_of_digits at 1. simpl. lia.
Qed.

Lemma strip_leading_zeros_value s :
  int_of_digits (strip_leading_zeros s) = int_of_digits s.
Proof.
  induction s as [|c s IH]; [reflexivity|]. simpl.
  destruct (Ascii.eqb_spec c "0") as [->|]; [|reflexivity].
  rewrite IH, int_of_digits_cons. reflexivity.
Qed.

Lemma canonical_digits_value s :
  int_of_digits (canonical_digits s) = int_of_digits s.
Proof.
  unfold canonical_digits. rewrite <- (strip_leading_zeros_value s).
  destruct (strip_leading_zeros s); reflexivity.
Qed.

Lemma zero_coeff_value c : is_zero_coeff c = true -> int_of_digits c = 0.
Proof.
  induction c as [|d c IH]; [reflexivity|]. simpl. intros H.
  apply andb_true_iff in H as [Hd H]. apply Ascii.eqb_eq in Hd as ->.
  rewrite int_of_digits_cons, IH by assumption. reflexivity.
Qed.

Lemma int_of_digits_snoc s c :
  int_of_digits (s ++ [c]) = 10 * int_of_digits s + digit_value c.
Proof.
  rewrite int_of_digits_app. unfold int_of_digits at 2. simpl. lia.
Qed.

(** Dropping trailing zeros trades each zero for one unit of exponent. *)
Lemma strip_trailing_zeros_value r exp :
  exists r' exp',
    strip_trailing_zeros r exp = (r', exp')
    /\ exp <= exp'
    /\ int_of_digits (rev r) = int_of_digits (rev r') * 10 ^ (exp' - exp).
Proof.
  revert exp. induction r as [|c r IH]; intros exp.
  - exists [], exp. rewrite Z.sub_diag. repeat split; simpl; lia.
  - simpl. destruct (Ascii.eqb_spec c "0") as [->|]; simpl.
    + destruct (exp <? ctx_Emax).
      * destruct (IH (exp + 1)) as (r' & exp' & -> & Hle & Hv).
        exists r', exp'. split; [reflexivity|]. split; [lia|].
        rewrite int_of_digits_snoc, Hv.
        replace (exp' - exp) with (Z.succ (exp' - (exp + 1))) by lia.
        rewrite Z.pow_succ_r by lia. change (digit_value "0") with 0. lia.
      * exists ("0"%char :: r), exp. rewrite Z.sub_diag.
        repeat split; simpl; lia.
    + exists (c :: r), exp. rewrite Z.sub_diag. repeat split; simpl; lia.
Qed.

(** With at most 28 digits [normalize] rounds nothing: the decimal keeps
    its sign and its value. *)
Lemma Decimal_normalize_exact sign c :
  c <> [] -> forallb is_digit c = true ->
  (List.length c <= 28)%nat ->
  exists c' exp',
    Decimal_normalize (Dec sign c (-8)) = Ok (Dec sign c' exp')
    /\ c' <> [] /\ forallb is_digit c' = true
    /\ -8 <= exp'
    /\ int_of_digits c = int_of_digits c' * 10 ^ (exp' + 8).
Proof.
  intros Hne Hd Hlen. unfold Decimal_normalize, Decimal_fix.
  destruct (is_zero_coeff c) eqn:Hz.
  { cbn. exists ["0"%char], 0. split; [reflexivity|].
    split; [discriminate|]. split; [reflexivity|]. split; [lia|].
    now rewrite zero_coeff_value. }
  destruct (Z.ltb_spec ctx_Etop (Z.of_nat (List.length c) + -8 - ctx_prec)) as [H|_].
  { unfold ctx_Etop, ctx_Emax, ctx_prec in H. lia. }
  destruct (Z.ltb_spec (-8) (Z.max (Z.of_nat (List.length c) + -8 - ctx_prec) ctx_Etiny)) as [H|_].
  { unfold ctx_Etiny, ctx_Emin, ctx_prec in H. lia. }
  cbn [mbind result_bind]. rewrite Hz.
  destruct (strip_trailing_zeros_value (rev c) (-8)) as (r' & exp' & Hs & Hle & Hv).
  destruct (strip_trailing_zeros_spec (rev c) (-8)) as (d & r2 & e2 & Hs2 & Hdr & _).
  { now rewrite is_zero_coeff_rev. }
  { now rewrite forallb_rev. }
  rewrite Hs in Hs2. injection Hs2 as -> ->. rewrite Hs.
  exists (rev (d :: r2)), e2. split; [reflexivity|].
  split. { simpl. intros E. apply app_eq_nil in E as [_ E]. discriminate E. }
  split; [now rewrite forallb_rev|]. split; [exact Hle|].
  rewrite rev_involutive in Hv. rewrite Hv.
  replace (e2 - -8) with (e2 + 8) by lia. reflexivity.
Qed.

Lemma parse_numeral_integer s ip :
  ip <> [] -> forallb is_digit ip = true ->
  parse_numeral (sign_text s ++ ip) = Some (Numeral s ip []).
Proof.
  intros Hne Hip. unfold parse_numeral.
  rewrite split_sign_text.
  2:{ destruct ip as [|c ip]; [congruence|]. simpl in *.
      now apply andb_true_iff in Hip as [-> _]. }
  rewrite <- (app_nil_r ip) at 1.
  rewrite span_digits_app by (assumption || exact I).
  destruct ip; [congruence|]. reflexivity.
Qed.

Lemma int_of_digits_trailing_zeros s k :
  int_of_digits (s ++ repeat "0"%char k) = int_of_digits s * 10 ^ Z.of_nat k.
Proof.
  rewrite int_of_digits_app, repeat_length.
  replace (int_of_digits (repeat "0"%char k)) with 0; [lia|].
  symmetry. apply zero_coeff_value. unfold is_zero_coeff.
  induction k; [reflexivity|assumption].
Qed.

(** What the positional text of a finite decimal spells. *)
Lemma Decimal_format_f_read sign c exp :
  c <> [] -> forallb is_digit c = true ->
  read_decimal (Decimal_format_f (Dec sign c exp))
  = Some {| read_negative := sign;
            read_digits := int_of_digits c * 10 ^ Z.max exp 0;
            read_decimals := Z.to_nat (- exp) |}.
Proof.
  intros Hne Hd. unfold read_decimal, Decimal_format_f.
  set (len := Z.of_nat (List.length c)).
  destruct (Z.ltb_spec (exp + len) 0) as [Hneg|Hnn];
    [|destruct (Z.ltb_spec len (exp + len)) as [Hbig|Hin]];
    rewrite list_ascii_of_string_of_list_ascii.
  - assert (repeat "0"%char (Z.to_nat (- (exp + len))) ++ c <> []) as Hf.
    { intros E. apply app_eq_nil in E as [_ E]. congruence. }
    destruct (repeat "0"%char (Z.to_nat (- (exp + len))) ++ c) as [|f fs] eqn:E;
      [congruence|]. rewrite <- E.
    rewrite parse_numeral_fixed;
      [|discriminate|reflexivity|now rewrite forallb_app, repeat_zero_digits, Hd].
    cbn [num_sign num_int num_frac]. f_equal. f_equal.
    + change (["0"%char] ++ repeat "0"%char (Z.to_nat (- (exp + len))) ++ c)
        with (repeat "0"%char (S (Z.to_nat (- (exp + len)))) ++ c).
      rewrite int_of_digits_zeros. rewrite Z.max_r by lia. lia.
    + rewrite length_app, repeat_length. unfold len. lia.
  - rewrite app_nil_r, parse_numeral_integer;
      [|intros E; apply app_eq_nil in E as [E _]; congruence
       |now rewrite forallb_app, repeat_zero_digits, Hd].
    cbn [num_sign num_int num_frac]. rewrite app_nil_r. f_equal. f_equal.
    + rewrite int_of_digits_trailing_zeros, Z2Nat.id, Z.max_l by lia.
      f_equal. f_equal. lia.
    + simpl. lia.
  - pose proof (firstn_digits (Z.to_nat (exp + len)) c Hd) as Hfd.
    pose proof (skipn_digits (Z.to_nat (exp + len)) c Hd) as Hsd.
    assert (int_of_digits
              (match firstn (Z.to_nat (exp + len)) c with
               | [] => ["0"%char]
               | ip => ip
               end ++ skipn (Z.to_nat (exp + len)) c)
            = int_of_digits c) as Hval.
    { destruct (firstn (Z.to_nat (exp + len)) c) as [|a ip] eqn:E.
      - rewrite <- (firstn_skipn (Z.to_nat (exp + len)) c) at 2.
        rewrite E. now rewrite (int_of_digits_zeros 1).
      - rewrite <- E, firstn_skipn. reflexivity. }
    assert (List.length (skipn (Z.to_nat (exp + len)) c) = Z.to_nat (- exp)) as Hlen.
    { rewrite length_skipn. unfold len in *. lia. }
    destruct (skipn (Z.to_nat (exp + len)) c) as [|f fs] eqn:Es.
    + rewrite app_nil_r, parse_numeral_integer;
        [|destruct (firstn _ c); discriminate
         |destruct (firstn _ c); [reflexivity|assumption]].
      cbn [num_sign num_int num_frac]. rewrite app_nil_r in *.
      rewrite Hval. f_equal. f_equal; [|exact Hlen].
      simpl in Hlen. assert (exp = 0) as -> by lia.
      change (10 ^ Z.max 0 0) with 1. lia.
    + rewrite parse_numeral_fixed;
        [|destruct (firstn _ c); discriminate
         |destruct (firstn _ c); [reflexivity|assumption]
         |assumption].
      cbn [num_sign num_int num_frac]. rewrite Hval.
      f_equal. f_equal; [|exact Hlen].
      simpl in Hlen. rewrite Z.max_r by lia. lia.
Qed.

Lemma canonical_digits_length s :
  s <> [] -> (List.length (canonical_digits s) <= List.length s)%nat.
Proof.
  intros Hne. unfold canonical_digits.
  pose proof (strip_leading_zeros_length s) as Hl.
  destruct (strip_leading_zeros s); [|exact Hl].
  destruct s; [congruence|simpl; lia].
Qed.

(** The decimal [Decimal] reads from the text of a finite float: the
    float's sign, the rounded magnitude as coefficient, exponent -8. *)
Lemma Decimal_of_str_format_8f_value x :
  is_finite x = true ->
  exists c,
    Decimal_of_str (format_8f x) = Ok (Dec (sign_of x) c (-8))
    /\ c <> [] /\ forallb is_digit c = true
    /\ int_of_digits c = magnitude8 x
    /\ (magnitude8 x < 10 ^ 28 -> (List.length c <= 28)%nat).
Proof.
  intros Hx. rewrite format_8f_finite by assumption.
  unfold Decimal_of_str.
  rewrite !text_with_point_neq by (apply fixed8_text_point || reflexivity).
  rewrite list_ascii_of_string_of_list_ascii, fixed8_text_parse by apply magnitude8_nonneg.
  cbn [num_sign num_int num_frac]. rewrite fixed8_text_frac_length.
  set (ip := decimal_text (magnitude8 x / 10 ^ 8)).
  set (fp := zero_pad 8 (decimal_text (magnitude8 x mod 10 ^ 8))).
  assert (forallb is_digit (ip ++ fp) = true) as Hd.
  { rewrite forallb_app. apply andb_true_iff. split.
    - apply decimal_text_digits. apply Z.div_pos; [apply magnitude8_nonneg|lia].
    - apply zero_pad_digits, decimal_text_digits. apply Z.mod_pos_bound. lia. }
  destruct (canonical_digits_ok _ Hd) as (Hne & Hcd & _).
  eexists. split; [reflexivity|]. repeat split; try assumption.
  - rewrite canonical_digits_value. apply fixed8_text_value, magnitude8_nonneg.
  - intros Hm.
    assert (ip ++ fp <> []) as Hne2.
    { intros E. apply app_eq_nil in E as [E _]. now apply decimal_text_nonempty in E. }
    pose proof (canonical_digits_length _ Hne2) as Hl.
    rewrite length_app in Hl.
    assert (List.length fp = 8%nat) as Hfp by apply fixed8_text_frac_length.
    assert (List.length ip <= 20)%nat; [|lia].
    apply decimal_text_length; [|lia]. split.
    + apply Z.div_pos; [apply magnitude8_nonneg|lia].
    + apply Z.div_lt_upper_bound; [lia|].
      change (10 ^ 8 * 10 ^ Z.of_nat 20) with (10 ^ 28). exact Hm.
Qed.

(** For a finite float below [10 ^ 20] in magnitude, the text
    [float_to_wire] returns spells exactly the float rounded to eight
    decimals: the float's sign, at most eight decimals, and the digits of
    the rounded magnitude. *)
Lemma float_to_wire_reads_back x out :
  is_finite x = true ->
  magnitude8 x < 10 ^ 28 ->
  float_to_wire x = Ok out ->
  exists r,
    read_decimal out = Some r
    /\ read_negative r = sign_of x
    /\ (read_decimals r <= 8)%nat
    /\ read_digits r * 10 ^ 8 = magnitude8 x * 10 ^ Z.of_nat (read_decimals r).
Proof.
  intros Hx Hm. unfold float_to_wire.
  rewrite float_of_str_format_8f by assumption. cbn [mbind result_bind].
  destruct (float_ge _ _); [discriminate|].
  rewrite format_8f_never_minus_zero.
  destruct (Decimal_of_str_format_8f_value x Hx) as (c & -> & Hne & Hd & Hv & Hlen).
  cbn [mbind result_bind].
  destruct (Decimal_normalize_exact (sign_of x) c Hne Hd (Hlen Hm))
    as (c' & e' & -> & Hne' & Hd' & He' & Hv').
  cbv beta iota delta [mbind result_bind]. intros H.
  replace out with (Decimal_format_f (Dec (sign_of x) c' e')) by congruence.
  rewrite (Decimal_format_f_read _ _ _ Hne' Hd').
  eexists. split; [reflexivity|]. cbn [read_negative read_digits read_decimals].
  split; [reflexivity|]. split; [lia|].
  rewrite <- Hv, Hv'.
  destruct (Z.le_gt_cases 0 e') as [Hpos|Hneg].
  - rewrite Z.max_l by lia. replace (Z.to_nat (- e')) with 0%nat by lia.
    rewrite Z.pow_add_r by lia. simpl (10 ^ Z.of_nat 0). lia.
  - rewrite Z.max_r by lia. rewrite Z2Nat.id by lia.
    assert (10 ^ (e' + 8) * 10 ^ (- e') = 10 ^ 8) as Hp.
    { rewrite <- Z.pow_add_r by lia. f_equal. lia. }
    rewrite <- (Z.mul_assoc _ (10 ^ (e' + 8))), Hp.
    change (10 ^ 0) with 1. lia.
Qed.

(** ** Rounding to eight decimals, exactly *)

Lemma round_half_even_nearest num den :
  0 < den ->
  Z.abs (2 * (num - round_half_even num den * den)) <= den
  /\ (Z.abs (2 * (num - round_half_even num den * den)) = den ->
      Z.even (round_half_even num den) = true).
Proof.
  intros Hd. unfold round_half_even.
  pose proof (Z.div_mod num den ltac:(lia)) as Hnum.
  pose proof (Z.mod_pos_bound num den Hd) as Hr.
  set (q := num / den) in *. set (r := num mod den) in *.
  assert (num - q * den = r) as H0 by lia.
  assert (num - (q + 1) * den = r - den) as H1 by lia.
  destruct (Z.compare_spec (2 * r) den) as [He|Hl|Hg].
  - destruct (Z.even q) eqn:Hq.
    + rewrite H0. split; [lia|auto].
    + rewrite H1. split; [lia|]. intros _.
      rewrite Z.even_add, Hq. reflexivity.
  - rewrite H0. split; lia.
  - rewrite H1. split; lia.
Qed.

Lemma round_half_even_unique num den n :
  0 < den ->
  Z.abs (2 * (num - n * den)) <= den ->
  (Z.abs (2 * (num - n * den)) = den -> Z.even n = true) ->
  n = round_half_even num den.
Proof.
  intros Hd Hn He. unfold round_half_even.
  pose proof (Z.div_mod num den ltac:(lia)) as Hnum.
  pose proof (Z.mod_pos_bound num den Hd) as Hr.
  set (q := num / den) in *. set (r := num mod den) in *.
  assert (n = q \/ n = q + 1) as Hcases.
  { destruct (Z_lt_le_dec n q) as [Hlt|Hge].
    - exfalso. assert (den <= (q - n) * den) by nia.
      assert (num - n * den = r + (q - n) * den) as E by lia.
      rewrite E in Hn. lia.
    - destruct (Z_lt_le_dec (q + 1) n) as [Hgt|Hle]; [|lia].
      exfalso. assert (2 * den <= (n - q) * den) by nia.
      assert (num - n * den = r - (n - q) * den) as E by lia.
      rewrite E in Hn. lia. }
  assert (num - q * den = r) as H0 by lia.
  assert (num - (q + 1) * den = r - den) as H1 by lia.
  destruct Hcases as [-> | ->].
  - rewrite H0 in Hn, He.
    destruct (Z.compare_spec (2 * r) den) as [Heq|Hl|Hg]; [|reflexivity|lia].
    rewrite He by lia. reflexivity.
  - rewrite H1 in Hn, He.
    destruct (Z.compare_spec (2 * r) den) as [Heq|Hl|Hg]; [|lia|reflexivity].
    specialize (He ltac:(lia)). rewrite Z.even_add in He.
    destruct (Z.even q); [discriminate He|reflexivity].
Qed.

(** The magnitude the code rounds to is the one the specification means,
    and the only one. *)
Lemma nearest_1e8_magnitude8 x : is_finite x = true -> nearest_1e8 x (magnitude8 x).
Proof.
  destruct x as [s|s| |s m e]; try discriminate; intros _; [reflexivity|].
  cbn [nearest_1e8 magnitude8]. unfold scaled8.
  destruct (Z.leb_spec 0 e) as [He|He]; [reflexivity|].
  apply round_half_even_nearest. apply Z.pow_pos_nonneg; lia.
Qed.

Lemma nearest_1e8_unique x n :
  is_finite x = true -> nearest_1e8 x n -> n = magnitude8 x.
Proof.
  destruct x as [s|s| |s m e]; try discriminate; intros _; [intros ->; reflexivity|].
  cbn [nearest_1e8 magnitude8]. unfold scaled8.
  destruct (Z.leb_spec 0 e) as [He|He]; [auto|].
  intros [Hn Ht]. apply round_half_even_unique; [|assumption..].
  apply Z.pow_pos_nonneg; lia.
Qed.

(** The code's check is the specification's, in binary64 arithmetic. *)
Lemma precision_lost_differs x :
  precision_lost x
  = differs_by_1e_12 (float_of_ratio (sign_of x) (magnitude8 x) (10 ^ 8)) x.
Proof. reflexivity. Qed.

(** A float does not differ from itself: the difference is a zero. *)
Lemma differs_by_1e_12_diag x : is_finite x = true -> differs_by_1e_12 x x = false.
Proof.
  destruct x as [s|s| |s m e]; try discriminate; intros _.
  - now destruct s.
  - unfold differs_by_1e_12. cbn [SFsub].
    rewrite Z.sub_diag. reflexivity.
Qed.

(** ** Bytes and hexadecimal text *)

Lemma byte_of_Z_value z : Z.of_N (Byte.to_N (byte_of_Z z)) = z mod 256.
Proof.
  unfold byte_of_Z.
  pose proof (Z.mod_pos_bound z 256 ltac:(lia)) as Hz.
  destruct (Byte.of_N (Z.to_N (z mod 256))) as [b|] eqn:Hb.
  - simpl. apply Byte.to_of_N in Hb. rewrite Hb, Z2N.id; lia.
  - apply Byte.of_N_None_iff in Hb. lia.
Qed.

Lemma big_endian_length len n : List.length (big_endian len n) = len.
Proof. induction len as [|k IH]; simpl; [reflexivity|now rewrite IH]. Qed.

Lemma int_from_bytes_cons b bs :
  int_from_bytes (b :: bs)
  = Z.of_N (Byte.to_N b) * 256 ^ Z.of_nat (List.length bs) + int_from_bytes bs.
Proof.
  unfold int_from_bytes. simpl.
  generalize (Z.of_N (Byte.to_N b)). intros v.
  assert (forall l acc,
    fold_left (fun a x => 256 * a + Z.of_N (Byte.to_N x)) l acc
    = acc * 256 ^ Z.of_nat (List.length l)
      + fold_left (fun a x => 256 * a + Z.of_N (Byte.to_N x)) l 0) as H.
  { induction l as [|x l IH]; intros acc.
    - simpl. lia.
    - cbn [fold_left List.length]. rewrite IH, (IH (256 * 0 + _)).
      rewrite Nat2Z.inj_succ, Z.pow_succ_r by lia. lia. }
  apply H.
Qed.

(** The [len] bytes spell [n] modulo [256 ^ len]. *)
Lemma int_from_big_endian len n :
  int_from_bytes (big_endian len n) = n mod 256 ^ Z.of_nat len.
Proof.
  induction len as [|k IH].
  - simpl. now rewrite Z.mod_1_r.
  - cbn [big_endian]. rewrite int_from_bytes_cons, big_endian_length, IH, byte_of_Z_value.
    rewrite Nat2Z.inj_succ, Z.pow_succ_r by lia.
    assert (0 < 256 ^ Z.of_nat k) by (apply Z.pow_pos_nonneg; lia).
    rewrite (Z.mul_comm 256), Z.rem_mul_r by lia. lia.
Qed.

(** [to_bytes] succeeds exactly on the unsigned 64-bit range. *)
Lemma to_bytes_8 n bs :
  to_bytes n 8 = Ok bs <-> 0 <= n < 2 ^ 64 /\ bs = big_endian 8 n.
Proof.
  unfold to_bytes. change (256 ^ Z.of_nat 8) with (2 ^ 64).
  destruct (Z.ltb_spec n 0); [split; [discriminate|lia]|].
  destruct (Z.leb_spec (2 ^ 64) n); [split; [discriminate|lia]|].
  split.
  - intros [= <-]. split; [lia|reflexivity].
  - intros [_ ->]. reflexivity.
Qed.

Lemma hex_digit_not_space c :
  is_hex_digit c = true -> is_space c = false.
Proof.
  unfold is_hex_digit, is_space, hex_digit_value.
  intros H. apply bool_decide_eq_true in H as [v H].
  destruct ((48 <=? _) && (_ <=? 57)) eqn:E1; [lia|].
  destruct ((97 <=? _) && (_ <=? 102)) eqn:E2; [lia|].
  destruct ((65 <=? _) && (_ <=? 70)) eqn:E3; [lia|discriminate H].
Qed.

(** On an even number of hexadecimal digits [fromhex] is the pairwise
    decoding, and yields half as many bytes. *)
Lemma fromhex_hex_decode n s :
  String.length s = (2 * n)%nat ->
  forallb is_hex_digit (list_ascii_of_string s) = true ->
  fromhex s = Ok (hex_decode s) /\ List.length (hex_decode s) = n.
Proof.
  revert s. induction n as [|n IH]; intros s Hlen Hhex.
  - destruct s; [split; reflexivity|discriminate Hlen].
  - destruct s as [|c [|d rest]]; try (simpl in Hlen; lia).
    simpl in Hlen, Hhex.
    apply andb_true_iff in Hhex as [Hc Hhex].
    apply andb_true_iff in Hhex as [Hd Hhex].
    destruct (IH rest ltac:(lia) Hhex) as [Hf Hl].
    cbn [fromhex hex_decode]. rewrite (hex_digit_not_space c Hc).
    apply bool_decide_eq_true in Hc as [vc Hc].
    apply bool_decide_eq_true in Hd as [vd Hd].
    rewrite Hc, Hd, Hf. simpl. split; [reflexivity|now rewrite Hl].
Qed.

Lemma fromhex_address a :
  is_address a = true ->
  fromhex (strip_0x a) = Ok (hex_decode (strip_0x a))
  /\ List.length (hex_decode (strip_0x a)) = 20%nat.
Proof.
  unfold is_address. intros H. apply andb_true_iff in H as [Hl Hh].
  apply Nat.eqb_eq in Hl. now apply fromhex_hex_decode.
Qed.

Lemma hex_char_value d : 0 <= d < 16 -> hex_digit_value (hex_char d) = Some d.
Proof.
  intros Hd. unfold hex_digit_value, hex_char.
  destruct (Z.ltb_spec d 10); rewrite N_ascii_embedding, Z2N.id by lia.
  - destruct (Z.leb_spec 48 (48 + d)), (Z.leb_spec (48 + d) 57); try lia.
    simpl. f_equal. lia.
  - destruct (Z.leb_spec 48 (87 + d)), (Z.leb_spec (87 + d) 57); try lia.
    destruct (Z.leb_spec 97 (87 + d)), (Z.leb_spec (87 + d) 102); try lia.
    simpl. f_equal. lia.
Qed.

Lemma hex_char_lower d : 0 <= d < 16 -> is_lower_hex_digit (hex_char d) = true.
Proof.
  intros Hd. unfold is_lower_hex_digit, hex_char.
  destruct (Z.ltb_spec d 10); rewrite N_ascii_embedding, Z2N.id by lia; lia.
Qed.

Lemma hex_char_zero d : 0 < d < 16 -> hex_char d <> "0"%char.
Proof.
  intros Hd H. pose proof (hex_char_value d ltac:(lia)) as Hv.
  rewrite H in Hv. compute in Hv. injection Hv as Hv. lia.
Qed.

Lemma fold_hex_chars l acc :
  Forall (fun d => 0 <= d < 16) l ->
  fold_left (fun a c => 16 * a + default 0 (hex_digit_value c)) (map hex_char l) acc
  = fold_left (fun a d => 16 * a + d) l acc.
Proof.
  intros Hl. revert acc.
  induction Hl as [|d l Hd _ IH]; intros acc; [reflexivity|].
  simpl. rewrite hex_char_value by lia. apply IH.
Qed.

(** The builtin [hex] writes a non-negative integer without padding. *)
Lemma hex_unpadded n : 0 <= n -> unpadded_hex n (hex n).
Proof.
  intros Hn. unfold hex. destruct (Z.ltb_spec n 0); [lia|].
  rewrite Z.abs_eq by lia.
  exists (map hex_char (digits 16 n)).
  pose proof (digits_range 16 n ltac:(lia) Hn) as Hr.
  split; [reflexivity|]. split.
  { pose proof (digits_nonempty 16 n). destruct (digits 16 n); [congruence|discriminate]. }
  split.
  { apply forallb_forall. intros c Hc. apply in_map_iff in Hc as (d & <- & Hd).
    rewrite List.Forall_forall in Hr. apply hex_char_lower, Hr, Hd. }
  split.
  { unfold int_of_hex. rewrite fold_hex_chars by assumption. apply digits_value; lia. }
  intros Hpos. destruct (digits_head 16 n ltac:(lia) Hpos) as (d & l & E & Hd).
  rewrite E in Hr |- *. simpl. apply hex_char_zero.
  inversion Hr; subst. lia.
Qed.

Lemma string_append_length s t :
  String.length (s +:+ t) = (String.length s + String.length t)%nat.
Proof.
  induction s as [|c s IH]; [reflexivity|].
  change (String c s +:+ t) with (String c (s +:+ t)). simpl. now rewrite IH.
Qed.

Lemma string_of_list_ascii_length l :
  String.length (string_of_list_ascii l) = List.length l.
Proof. induction l as [|c l IH]; simpl; [reflexivity|now rewrite IH]. Qed.

(** For a 256-bit integer [hex] writes at most 64 digits after the prefix,
    and 64 only from [2 ^ 252] on. *)
Lemma hex_length n :
  0 <= n < 2 ^ 256 ->
  (String.length (hex n) <= 66)%nat
  /\ (String.length (hex n) = 66%nat <-> 2 ^ 252 <= n).
Proof.
  intros Hn. unfold hex. destruct (Z.ltb_spec n 0); [lia|].
  rewrite Z.abs_eq by lia. rewrite string_append_length. cbn [String.length].
  rewrite string_of_list_ascii_length, length_map.
  pose proof (digits_length_le 16 n 64 ltac:(lia) ltac:(change (16 ^ Z.of_nat 64) with (2 ^ 256); lia) ltac:(lia)) as Hle.
  split; [lia|]. split.
  - intros Hlen. destruct (Z.le_gt_cases (2 ^ 252) n) as [|Hlt]; [assumption|].
    pose proof (digits_length_le 16 n 63 ltac:(lia) ltac:(change (16 ^ Z.of_nat 63) with (2 ^ 252); lia) ltac:(lia)).
    lia.
  - intros Hge.
    pose proof (digits_length_ge 16 n 63 ltac:(lia) ltac:(change (16 ^ Z.of_nat 63) with (2 ^ 252); lia)).
    lia.
Qed.

(** C5, amended: for every finite float [x], with [n / 10 ^ 8] the value
    of [x] rounded to eight fractional digits, [float_to_wire] raises its
    precision error exactly when the float nearest to [n / 10 ^ 8] (what
    the rounded text reads back as) differs from [x] by at least 1e-12,
    difference and comparison taken in binary64 arithmetic; it raises
    nothing else; a float that is itself the float nearest to
    [n / 10 ^ 8] is accepted; and when it succeeds its output is plain fixed-point
    decimal text without insignificant trailing zeros, without exponent
    and without plus sign, which below [10 ^ 20] in magnitude spells
    exactly [n / 10 ^ 8] with the sign of [x]. *)
Theorem float_to_wire_precision_check (x : float) (n : Z) :
  is_finite x = true ->
  valid_binary prec emax x = true ->
  nearest_1e8 x n ->
  (float_to_wire x = Raise (ValueError "float_to_wire causes rounding" (VFloat x))
   <-> differs_by_1e_12 (float_of_ratio (sign_of x) n (10 ^ 8)) x = true)
  /\ (forall e, float_to_wire x = Raise e ->
        e = ValueError "float_to_wire causes rounding" (VFloat x))
  /\ (float_of_ratio (sign_of x) n (10 ^ 8) = x -> exists s, float_to_wire x = Ok s)
  /\ (differs_by_1e_12 (float_of_ratio (sign_of x) n (10 ^ 8)) x = false ->
        exists s, float_to_wire x = Ok s /\ plain_fixed_point s
          /\ (forall c, In c (list_ascii_of_string s) ->
                is_digit c = true \/ c = "."%char \/ c = "-"%char)
          /\ (n < 10 ^ 28 ->
              exists r,
                read_decimal s = Some r
                /\ read_negative r = sign_of x
                /\ (read_decimals r <= 8)%nat
                /\ read_digits r * 10 ^ 8 = n * 10 ^ Z.of_nat (read_decimals r))).
Proof.
  intros Hx Hv Hn. apply (nearest_1e8_unique x n Hx) in Hn. subst n.
  assert (float_of_ratio (sign_of x) (magnitude8 x) (10 ^ 8) = x ->
          precision_lost x = false) as Hback.
  { intros E. rewrite precision_lost_differs, E. now apply differs_by_1e_12_diag. }
  rewrite <- precision_lost_differs.
  pose proof (float_to_wire_finite x Hx Hv) as H.
  destruct (precision_lost x).
  - rewrite H. repeat split; try congruence. intros E. now apply Hback in E.
  - destruct H as (s & Hs & Hp). rewrite Hs. repeat split; try congruence.
    { intros _. now exists s. }
    intros _. exists s. split; [reflexivity|]. split; [assumption|].
    split; [intros c; now apply plain_fixed_point_chars|].
    intros Hm. now apply (float_to_wire_reads_back x s Hx Hm).
Qed.

(** C8 (the code at the failing input): [float_to_wire(-0.0)] returns
    ["-0"].  The text of -0.0 is ["-0.00000000"], which the guard
    [rounded == "-0"] does not match (see [format_8f_never_minus_zero]),
    and [Decimal] keeps the sign of a zero. *)
Theorem float_to_wire_negative_zero :
  format_8f (S754_zero true) = "-0.00000000"
  /\ float_to_wire (S754_zero true) = Ok "-0".
Proof. split; reflexivity. Qed.

(** ** The connection hash *)

(** What a computed hash was computed from, read off the code. *)
Lemma sign_l1_action_hash_inv (action : value) (vault : option string)
    (nonce : Z) (h : bytes) :
  sign_l1_action_hash action vault nonce = Ok h ->
  exists (packed marker : bytes),
    packb action = Ok packed
    /\ 0 <= nonce < 2 ^ 64
    /\ h = keccak (packed ++ big_endian 8 nonce ++ marker)
    /\ match vault with
       | None => marker = [Byte.x00]
       | Some a =>
           exists address_bytes,
             fromhex (strip_0x a) = Ok address_bytes
             /\ marker = Byte.x01 :: address_bytes
       end.
Proof.
  unfold sign_l1_action_hash. intros H.
  destruct (packb action) as [packed|] eqn:Hp; [|discriminate H].
  cbn [mbind result_bind] in H.
  destruct (to_bytes nonce 8) as [nb|] eqn:Hn; [|discriminate H].
  cbn [mbind result_bind] in H.
  apply to_bytes_8 in Hn as [Hrange ->].
  destruct vault as [a|].
  - fold (strip_0x a) in H.
    destruct (fromhex (strip_0x a)) as [ab|] eqn:Hf; [|discriminate H].
    cbn [mbind result_bind] in H. injection H as <-.
    exists packed, (Byte.x01 :: ab).
    split; [reflexivity|]. split; [exact Hrange|].
    split; [now rewrite <- !app_assoc|]. now exists ab.
  - cbn [mbind result_bind] in H. injection H as <-.
    exists packed, [Byte.x00].
    split; [reflexivity|]. split; [exact Hrange|].
    split; [now rewrite <- !app_assoc|reflexivity].
Qed.

(** C1: whenever [sign_l1_action] computes a connection hash, it is the
    Keccak digest of the msgpack serialisation of the action, followed by
    the nonce as exactly 8 big-endian bytes, followed by the single byte
    0x00 when there is no vault address, or by 0x01 and the hex-decoded
    address (its optional [0x] prefix stripped), which is 20 bytes for a
    20-byte address. *)
Theorem connection_hash_preimage (action : value) (vault : option string)
    (nonce : Z) (h : bytes) :
  sign_l1_action_hash action vault nonce = Ok h ->
  exists (packed marker : bytes),
    packb action = Ok packed
    /\ h = keccak (packed ++ big_endian 8 nonce ++ marker)
    /\ List.length (big_endian 8 nonce) = 8%nat
    /\ int_from_bytes (big_endian 8 nonce) = nonce
    /\ match vault with
       | None => marker = [Byte.x00]
       | Some a =>
           exists address_bytes,
             fromhex (strip_0x a) = Ok address_bytes
             /\ marker = Byte.x01 :: address_bytes
             /\ (is_address a = true ->
                 address_bytes = hex_decode (strip_0x a)
                 /\ List.length address_bytes = 20%nat)
       end.
Proof.
  intros H.
  destruct (sign_l1_action_hash_inv action vault nonce h H)
    as (packed & marker & Hp & Hrange & Hh & Hm).
  exists packed, marker.
  split; [exact Hp|]. split; [exact Hh|].
  split; [apply big_endian_length|].
  split.
  { rewrite int_from_big_endian. change (256 ^ Z.of_nat 8) with (2 ^ 64).
    now apply Z.mod_small. }
  destruct vault as [a|]; [|exact Hm].
  destruct Hm as (ab & Hf & Hm). exists ab.
  split; [exact Hf|]. split; [exact Hm|].
  intros Ha. destruct (fromhex_address a Ha) as [Hd Hl].
  rewrite Hf in Hd. injection Hd as ->. split; [reflexivity|exact Hl].
Qed.

(** The hash is computed for every serialisable action, every unsigned
    64-bit nonce and every absent or well-formed vault address. *)
Lemma connection_hash_total (action : value) (vault : option string)
    (nonce : Z) (packed : bytes) :
  packb action = Ok packed ->
  0 <= nonce < 2 ^ 64 ->
  match vault with
  | None => True
  | Some a => is_address a = true
  end ->
  sign_l1_action_hash action vault nonce
  = Ok (keccak (packed ++ big_endian 8 nonce
                  ++ match vault with
                     | None => [Byte.x00]
                     | Some a => Byte.x01 :: hex_decode (strip_0x a)
                     end)).
Proof.
  intros Hp Hn Hv. unfold sign_l1_action_hash. rewrite Hp.
  cbn [mbind result_bind].
  rewrite (proj2 (to_bytes_8 nonce _) (conj Hn eq_refl)).
  cbn [mbind result_bind].
  destruct vault as [a|].
  - fold (strip_0x a). destruct (fromhex_address a Hv) as [-> _].
    cbn [mbind result_bind]. now rewrite <- !app_assoc.
  - cbn [mbind result_bind]. now rewrite <- !app_assoc.
Qed.

(** A nonce outside the unsigned 64-bit range has no 8-byte encoding: the
    method raises and nothing is hashed. *)
Lemma connection_hash_nonce_range (action : value) (vault : option string)
    (nonce : Z) :
  is_ok (sign_l1_action_hash action vault nonce) = true -> 0 <= nonce < 2 ^ 64.
Proof.
  destruct (sign_l1_action_hash action vault nonce) as [h|] eqn:H; [|discriminate].
  intros _. unfold sign_l1_action_hash in H.
  destruct (packb action); [|discriminate H]. cbn [mbind result_bind] in H.
  destruct (to_bytes nonce 8) eqn:Hn; [|discriminate H].
  now apply to_bytes_8 in Hn as [? _].
Qed.

(** ** The typed-data document *)

(** C2: for every connection hash and network flag, the document handed to
    [encode_structured_data] has the domain chainId 1337, name "Exchange",
    verifyingContract the zero address, version "1"; the message type Agent
    with fields source (string) then connectionId (bytes32), next to the
    domain's own type; primary type Agent; and the message source "a" on
    mainnet and "b" otherwise with the hash as connectionId. *)
Theorem typed_data_document (hash : bytes) (is_mainnet : bool) :
  let data := sign_l1_action_data hash is_mainnet in
  subscript data "domain"
  = Ok (VDict [("chainId", VInt 1337);
               ("name", VStr "Exchange");
               ("verifyingContract", VStr "0x0000000000000000000000000000000000000000");
               ("version", VStr "1")])
  /\ (types ← subscript data "types"; subscript types "Agent")
     = Ok (VList [VDict [("name", VStr "source"); ("type", VStr "string")];
                  VDict [("name", VStr "connectionId"); ("type", VStr "bytes32")]])
  /\ (types ← subscript data "types"; iterate types)
     = Ok [VStr "Agent"; VStr "EIP712Domain"]
  /\ subscript data "primaryType" = Ok (VStr "Agent")
  /\ subscript data "message"
     = Ok (VDict [("source", VStr (if is_mainnet then "a" else "b"));
                  ("connectionId", VBytes hash)])
  /\ iterate data
     = Ok [VStr "domain"; VStr "types"; VStr "primaryType"; VStr "message"].
Proof. repeat split. Qed.

(** ** Signing *)

(** [sign_l1_action] reads nothing of the client or the world and changes
    neither: its outcome is a function of its arguments. *)
Lemma sign_l1_action_pure (wallet : LocalAccount) (action : value)
    (vault : option string) (nonce : Z) (is_mainnet : bool) :
  exists r : result value,
    forall σ : state, sign_l1_action wallet action vault nonce is_mainnet σ = (r, σ).
Proof.
  unfold sign_l1_action, mbind, M_bind, liftR, mret, M_ret.
  destruct (sign_l1_action_hash action vault nonce) as [h|e]; [|eauto].
  destruct (encode_structured_data _) as [sd|e]; [|eauto].
  destruct (sign_message wallet sd) as [signed|e]; eauto.
Qed.

(** What a successful call returns, in terms of what the signer returned. *)
Lemma sign_l1_action_ok (wallet : LocalAccount) (action : value)
    (vault : option string) (nonce : Z) (is_mainnet : bool) (σ : state)
    (signature : value) :
  (sign_l1_action wallet action vault nonce is_mainnet σ).1 = Ok signature ->
  exists hash structured_data signed,
    sign_l1_action_hash action vault nonce = Ok hash
    /\ encode_structured_data (sign_l1_action_data hash is_mainnet) = Ok structured_data
    /\ sign_message wallet structured_data = Ok signed
    /\ signature = VDict [("r", VStr (to_hex (sig_r signed)));
                          ("s", VStr (to_hex (sig_s signed)));
                          ("v", VInt (sig_v signed))].
Proof.
  unfold sign_l1_action, mbind, M_bind, liftR, mret, M_ret.
  destruct (sign_l1_action_hash action vault nonce) as [h|e]; [|discriminate].
  destruct (encode_structured_data _) as [sd|e] eqn:He; [|discriminate].
  destruct (sign_message wallet sd) as [signed|e] eqn:Hs; [|discriminate].
  simpl. intros [= <-]. eauto 10.
Qed.

(** C7, amended: for every successful signing call whose signer returned
    256-bit integers r and s, the returned r and s are the hexadecimal texts
    of those integers without padding: the prefix [0x], then lower-case
    digits with no leading zero, at most 64 of them, and exactly 64 only
    when the integer is at least [2 ^ 252]; v is the integer the signer
    returned, unchanged. *)
Theorem signature_triple_unpadded (wallet : LocalAccount) (action : value)
    (vault : option string) (nonce : Z) (is_mainnet : bool) (σ : state)
    (signature : value) :
  (sign_l1_action wallet action vault nonce is_mainnet σ).1 = Ok signature ->
  exists (structured_data : SignableMessage) (signed : SignedMessage) (r s : string),
    sign_message wallet structured_data = Ok signed
    /\ signature = VDict [("r", VStr r); ("s", VStr s); ("v", VInt (sig_v signed))]
    /\ (0 <= sig_r signed < 2 ^ 256 ->
        unpadded_hex (sig_r signed) r
        /\ (String.length r <= 66)%nat
        /\ (String.length r = 66%nat <-> 2 ^ 252 <= sig_r signed))
    /\ (0 <= sig_s signed < 2 ^ 256 ->
        unpadded_hex (sig_s signed) s
        /\ (String.length s <= 66)%nat
        /\ (String.length s = 66%nat <-> 2 ^ 252 <= sig_s signed)).
Proof.
  intros H. apply sign_l1_action_ok in H as (hash & sd & signed & _ & _ & Hs & ->).
  exists sd, signed, (to_hex (sig_r signed)), (to_hex (sig_s signed)).
  split; [exact Hs|]. split; [reflexivity|].
  unfold to_hex. split; intros Hr; (split; [apply hex_unpadded; lia|now apply hex_length]).
Qed.

(** ** The monad *)

Lemma bind_run {A B} (m : M A) (f : A -> M B) σ :
  (m ≫= f) σ = match m σ with
               | (Ok a, σ') => f a σ'
               | (Raise e, σ') => (Raise e, σ')
               end.
Proof. reflexivity. Qed.

Lemma stateless_run {A} (m : M A) σ : stateless m -> m σ = ((m σ).1, σ).
Proof. intros H. specialize (H σ). destruct (m σ) as [r σ']. simpl in *. now subst. Qed.

Lemma stateless_ret {A} (a : A) : stateless (mret a).
Proof. intros σ. reflexivity. Qed.

Lemma stateless_liftR {A} (r : result A) : stateless (liftR r).
Proof. intros σ. reflexivity. Qed.

Lemma stateless_raise {A} (e : exn) : stateless (raise e : M A).
Proof. intros σ. reflexivity. Qed.

Lemma stateless_get_self : stateless get_self.
Proof. intros σ. reflexivity. Qed.

Lemma stateless_get_env : stateless get_env.
Proof. intros σ. reflexivity. Qed.

Lemma stateless_attribute {A} name (a : option A) : stateless (attribute name a).
Proof. destruct a; intros σ; reflexivity. Qed.

Lemma stateless_registry_lookup {A} (d : gmap string A) k :
  stateless (registry_lookup d k).
Proof. unfold registry_lookup. destruct (d !! k); intros σ; reflexivity. Qed.

Lemma stateless_registry_lookup_value {A} (d : gmap string A) k :
  stateless (registry_lookup_value d k).
Proof.
  destruct k; try (intros σ; reflexivity). apply stateless_registry_lookup.
Qed.

Lemma stateless_bind {A B} (m : M A) (f : A -> M B) :
  stateless m -> (forall a, stateless (f a)) -> stateless (m ≫= f).
Proof.
  intros Hm Hf σ. rewrite bind_run, (stateless_run m σ Hm).
  destruct (m σ).1; [apply Hf|reflexivity].
Qed.

Lemma stateless_map_M {A B} (f : A -> M B) xs :
  (forall x, stateless (f x)) -> stateless (map_M f xs).
Proof.
  intros Hf. induction xs as [|x xs IH]; [apply stateless_ret|].
  simpl. apply stateless_bind; [apply Hf|]. intros y.
  apply stateless_bind; [apply IH|]. intros ys. apply stateless_ret.
Qed.

Ltac stateless_step :=
  first
    [ apply stateless_ret | apply stateless_liftR | apply stateless_raise
    | apply stateless_get_self | apply stateless_get_env
    | apply stateless_attribute | apply stateless_registry_lookup
    | apply stateless_registry_lookup_value
    | apply stateless_bind; [|intros ?] ].

Lemma stateless_sign_l1_action wallet action vault nonce is_mainnet :
  stateless (sign_l1_action wallet action vault nonce is_mainnet).
Proof. unfold sign_l1_action. repeat stateless_step. Qed.

Lemma stateless_post_action_payload action nonce :
  stateless (_post_action_payload action nonce).
Proof.
  unfold _post_action_payload. repeat stateless_step.
Qed.

Lemma stateless_order_wire_of order : stateless (order_wire_of order).
Proof. unfold order_wire_of. repeat stateless_step. Qed.

Lemma stateless_cancel_wire_of cancel : stateless (cancel_wire_of cancel).
Proof. unfold cancel_wire_of. repeat stateless_step. Qed.

Lemma preserves_stateless I {A} (m : M A) : stateless m -> preserves I m.
Proof. intros H σ HI. now rewrite H. Qed.

Lemma preserves_bind I {A B} (m : M A) (f : A -> M B) :
  preserves I m -> (forall a, preserves I (f a)) -> preserves I (m ≫= f).
Proof.
  intros Hm Hf σ HI. rewrite bind_run. specialize (Hm σ HI).
  destruct (m σ) as [[a|e] σ']; simpl in *; [now apply Hf|assumption].
Qed.

Lemma preserves_detached I {A} (m : M A) : preserves I m -> preserves I (detached m).
Proof. intros H σ HI. now apply H. Qed.

(** ** Error classification *)

(** C9, amended: below 400 nothing is raised; from 400 to 499, when the
    body parses as a JSON object that has both a ["code"] and a ["msg"]
    entry, [ClientError] is raised with them as error code and message and
    with the optional ["data"] entry (null when absent) as error data; from
    500 on, [ServerError] is raised with the raw body text. *)
Theorem handle_exception_classifies (r : response) :
  (status r < 400 -> _handle_exception r = Ok tt)
  /\ (400 <= status r < 500 ->
      forall kvs code msg,
        json r = Ok (VDict kvs) ->
        dict_get kvs "code" = Some code ->
        dict_get kvs "msg" = Some msg ->
        _handle_exception r
        = Raise (ClientError (status r) code msg (headers r)
                   (default VNone (dict_get kvs "data"))))
  /\ (500 <= status r ->
      _handle_exception r = Raise (ServerError (status r) (text r))).
Proof.
  unfold _handle_exception. repeat split.
  - intros H. destruct (Z.ltb_spec (status r) 400); [reflexivity|lia].
  - intros H kvs code msg Hj Hc Hm.
    destruct (Z.ltb_spec (status r) 400); [lia|].
    destruct (Z.leb_spec 400 (status r)); [|lia].
    destruct (Z.ltb_spec (status r) 500); [|lia].
    simpl. rewrite Hj. simpl. now rewrite Hc, Hm.
  - intros H. destruct (Z.ltb_spec (status r) 400); [lia|].
    destruct (Z.ltb_spec (status r) 500); [lia|].
    now rewrite andb_false_r.
Qed.

(** A 4xx body that is a JSON object without ["code"] surfaces as the
    [KeyError] of the subscript, not as a [ClientError]. *)
Lemma handle_exception_missing_code (r : response) kvs :
  400 <= status r < 500 ->
  json r = Ok (VDict kvs) ->
  dict_get kvs "code" = None ->
  _handle_exception r = Raise (KeyError (VStr "code")).
Proof.
  intros H Hj Hc. unfold _handle_exception.
  destruct (Z.ltb_spec (status r) 400); [lia|].
  destruct (Z.leb_spec 400 (status r)); [|lia].
  destruct (Z.ltb_spec (status r) 500); [|lia].
  simpl. rewrite Hj. simpl. now rewrite Hc.
Qed.

(** ** The payload *)

(** What an assembled payload was assembled from, read off the code. *)
Lemma post_action_payload_inv (action : value) (nonce : Z) (σ σ' : state)
    (payload : value) :
  _post_action_payload action nonce σ = (Ok payload, σ') ->
  exists signature type,
    (sign_l1_action (wallet (self σ)) action (vault_address (self σ)) nonce
       (String.eqb (base_url (self σ)) "https://api.hyperliquid.xyz") σ).1
    = Ok signature
    /\ subscript action "type" = Ok type
    /\ payload
       = VDict [("action", action);
                ("nonce", VInt nonce);
                ("signature", signature);
                ("vaultAddress",
                  if negb (eq_str type "usdClassTransfer")
                  then vault_value (vault_address (self σ)) else VNone)]
    /\ σ' = σ.
Proof.
  unfold _post_action_payload. rewrite bind_run. cbn [get_self]. rewrite bind_run.
  rewrite (stateless_run _ σ (stateless_sign_l1_action _ _ _ _ _)).
  destruct (sign_l1_action _ _ _ _ _ σ).1 as [signature|e] eqn:Hs;
    cbv beta iota; [|discriminate].
  rewrite bind_run. cbn [get_self]. rewrite bind_run. cbn [liftR].
  destruct (subscript action "type") as [type|e]; cbv beta iota; [|discriminate].
  intros [= <- <-]. exists signature, type. repeat split.
Qed.

(** [_post_action] posts the payload it assembled, if any. *)
Lemma post_action_run (action : value) (nonce : Z) (σ : state) :
  _post_action action nonce σ
  = match _post_action_payload action nonce σ with
    | (Ok payload, σ') => post "/exchange" payload σ'
    | (Raise e, σ') => (Raise e, σ')
    end.
Proof. reflexivity. Qed.

(** C4: whenever [_post_action] assembles a payload, the payload holds
    exactly the fields action, nonce, signature and vaultAddress; the first
    three are the action, the nonce and the signature of the two; and
    vaultAddress is the client's configured vault address (null when none
    is configured) for every action whose type tag is not
    ["usdClassTransfer"], and null for that type whatever is configured.
    That payload is what goes to [/exchange]. *)
Theorem post_action_payload_fields (action : value) (nonce : Z) (σ σ' : state)
    (payload : value) :
  _post_action_payload action nonce σ = (Ok payload, σ') ->
  exists signature type vault,
    (sign_l1_action (wallet (self σ)) action (vault_address (self σ)) nonce
       (String.eqb (base_url (self σ)) "https://api.hyperliquid.xyz") σ).1
    = Ok signature
    /\ subscript action "type" = Ok type
    /\ payload
       = VDict [("action", action);
                ("nonce", VInt nonce);
                ("signature", signature);
                ("vaultAddress", vault)]
    /\ (type = VStr "usdClassTransfer" -> vault = VNone)
    /\ (type <> VStr "usdClassTransfer" ->
        match vault_address (self σ) with
        | Some a => vault = VStr a
        | None => vault = VNone
        end)
    /\ σ' = σ
    /\ _post_action action nonce σ = post "/exchange" payload σ.
Proof.
  intros H.
  destruct (post_action_payload_inv action nonce σ σ' payload H)
    as (signature & type & Hs & Ht & Hp & Hσ).
  exists signature, type. eexists.
  split; [exact Hs|]. split; [exact Ht|]. split; [exact Hp|].
  split; [|split; [|split; [exact Hσ|]]].
  - intros ->. reflexivity.
  - intros Hne. destruct (eq_str type "usdClassTransfer") eqn:He.
    + destruct type; try discriminate He. cbn [eq_str] in He.
      apply String.eqb_eq in He. congruence.
    + cbn [negb]. now destruct (vault_address (self σ)).
  - rewrite post_action_run, H. now subst σ'.
Qed.

(** The payload is assembled whenever signing succeeds and the action has
    a type tag. *)
Lemma post_action_payload_total (action : value) (nonce : Z) (σ : state)
    (signature type : value) :
  (sign_l1_action (wallet (self σ)) action (vault_address (self σ)) nonce
     (String.eqb (base_url (self σ)) "https://api.hyperliquid.xyz") σ).1
  = Ok signature ->
  subscript action "type" = Ok type ->
  _post_action_payload action nonce σ
  = (Ok (VDict [("action", action);
                ("nonce", VInt nonce);
                ("signature", signature);
                ("vaultAddress",
                  if negb (eq_str type "usdClassTransfer")
                  then vault_value (vault_address (self σ)) else VNone)]), σ).
Proof.
  intros Hs Ht. unfold _post_action_payload. rewrite bind_run. cbn [get_self].
  rewrite bind_run, (stateless_run _ σ (stateless_sign_l1_action _ _ _ _ _)), Hs.
  cbv beta iota. rewrite bind_run. cbn [get_self]. rewrite bind_run. cbn [liftR].
  now rewrite Ht.
Qed.

(** ** Requests *)

(** [post] sends at most one request, the payload to the URL under the
    client's base URL; it reads no clock and leaves the client's vault
    address, base URL and wallet alone. *)
Lemma post_effect (url_path : string) (payload : value) (σ : state) :
  let σ' := (post url_path payload σ).2 in
  let req := {| url := base_url (self σ) +:+ url_path;
                json_body := if truthy payload then payload else VDict [] |} in
  vault_address (self σ') = vault_address (self σ)
  /\ base_url (self σ') = base_url (self σ)
  /\ wallet (self σ') = wallet (self σ)
  /\ clock_reads (env σ') = clock_reads (env σ)
  /\ (requests (env σ') = requests (env σ)
      \/ requests (env σ') = requests (env σ) ++ [req]).
Proof.
  destruct σ as [c w].
  unfold post, session_post, set_session, set_self, log_request, get_self, get_env,
    raise, liftR, mbind, M_bind, mret, M_ret.
  cbn -[truthy _handle_exception is_ValueError].
  destruct (session c) as [[]|] eqn:Hs;
    cbn -[truthy _handle_exception is_ValueError];
    rewrite ?Hs; cbn -[truthy _handle_exception is_ValueError];
    try tauto;
    (match goal with
     | |- context [exchange ?a ?b] => destruct (exchange a b) as [r|e]
     end; [|simpl; tauto];
     destruct (_handle_exception r); [|simpl; tauto];
     destruct (json r) as [v|e]; [simpl; tauto|];
     destruct (is_ValueError e); simpl; tauto).
Qed.

(** [_post_action] sends at most one request, and it is a submission with
    the nonce it was given. *)
Lemma post_action_effect (action : value) (nonce : Z) (σ : state) :
  let σ' := (_post_action action nonce σ).2 in
  vault_address (self σ') = vault_address (self σ)
  /\ base_url (self σ') = base_url (self σ)
  /\ wallet (self σ') = wallet (self σ)
  /\ clock_reads (env σ') = clock_reads (env σ)
  /\ (requests (env σ') = requests (env σ)
      \/ exists req,
           requests (env σ') = requests (env σ) ++ [req]
           /\ submitted_with_nonce (self σ) nonce req).
Proof.
  rewrite post_action_run.
  destruct (_post_action_payload action nonce σ) as [[payload|e] σ1] eqn:Hp.
  - destruct (post_action_payload_inv _ _ _ _ _ Hp)
      as (signature & type & Hs & Ht & Hpay & ->).
    destruct (post_effect "/exchange" payload σ) as (Hv & Hb & Hw & Hc & Hr).
    repeat split; try assumption.
    destruct Hr as [Hr|Hr]; [now left|right].
    eexists. split; [exact Hr|].
    split; [reflexivity|].
    destruct (sign_l1_action_ok _ _ _ _ _ _ _ Hs) as (hash & _ & _ & Hh & _).
    assert (truthy payload = true) as -> by now rewrite Hpay.
    cbn [json_body]. rewrite Hpay.
    eexists action, signature, _, hash.
    split; [reflexivity|]. split; [exact Hh|].
    intros σ2.
    destruct (sign_l1_action_pure (wallet (self σ)) action
                (vault_address (self σ)) nonce
                (String.eqb (base_url (self σ)) "https://api.hyperliquid.xyz"))
      as [r Hpure].
    rewrite Hpure in Hs |- *. exact Hs.
  - pose proof (stateless_post_action_payload action nonce σ) as Hst.
    rewrite Hp in Hst. simpl in Hst. subst σ1. repeat split; auto.
Qed.

(** ** One call at a time *)

Lemma triple_bind {A B} P (m : M A) Q (f : A -> M B) R E :
  triple P m Q E -> (forall a, triple (Q a) (f a) R E) -> triple P (m ≫= f) R E.
Proof.
  intros Hm Hf σ HP. rewrite bind_run. specialize (Hm σ HP).
  destruct (m σ) as [[a|e] σ']; [now apply Hf|assumption].
Qed.

Lemma triple_stateless {A} (P E : state -> Prop) (m : M A) :
  stateless m -> (forall σ, P σ -> E σ) -> triple P m (fun _ => P) E.
Proof.
  intros Hm HE σ HP. rewrite (stateless_run m σ Hm).
  destruct (m σ).1; auto.
Qed.

Lemma triple_raise {A} (P : state -> Prop) (e : exn) (Q : A -> state -> Prop)
    (E : state -> Prop) :
  (forall σ, P σ -> E σ) -> triple P (raise e) Q E.
Proof. intros HE σ HP. now apply HE. Qed.

Lemma awaiting_start σ0 : awaiting σ0 None σ0.
Proof. repeat split. Qed.

Lemma awaiting_failed σ0 t nonce σ : awaiting σ0 t σ -> submission_failed σ0 1 nonce σ.
Proof.
  intros (_ & Hr & Ht). right. split; [|exact Hr].
  destruct t as [n|]; [destruct Ht as [Ht _]|]; lia.
Qed.

Lemma triple_get_timestamp_ms σ0 E :
  triple (awaiting σ0 None) get_timestamp_ms (fun t => awaiting σ0 (Some t)) E.
Proof.
  intros σ (Hs & Hr & Hc). unfold get_timestamp_ms. simpl.
  repeat split; try assumption; now rewrite Hc.
Qed.

(** A [post] that returns has sent its request. *)
Lemma post_sends_when_ok (url_path : string) (payload v : value) (σ : state) :
  (post url_path payload σ).1 = Ok v ->
  exists req, requests (env (post url_path payload σ).2) = requests (env σ) ++ [req].
Proof.
  destruct σ as [c w].
  unfold post, session_post, set_session, set_self, log_request, get_self, get_env,
    raise, liftR, mbind, M_bind, mret, M_ret.
  cbn -[truthy _handle_exception is_ValueError].
  destruct (session c) as [[]|] eqn:Hs;
    cbn -[truthy _handle_exception is_ValueError];
    rewrite ?Hs; cbn -[truthy _handle_exception is_ValueError];
    try discriminate;
    (match goal with
     | |- context [exchange ?a ?b] => destruct (exchange a b) as [r|e]
     end; [|discriminate];
     destruct (_handle_exception r); [|discriminate];
     destruct (json r) as [v'|e]; [eauto|];
     destruct (is_ValueError e); [eauto|discriminate]).
Qed.

(** [_post_action] never reads the clock; when it returns it has sent
    exactly one request, a submission with the nonce it was given. *)
Lemma post_action_outcome (action : value) (nonce : Z) (σ : state) :
  match _post_action action nonce σ with
  | (Ok _, σ') => submitted_once σ 0 nonce σ'
  | (Raise _, σ') => submission_failed σ 0 nonce σ'
  end.
Proof.
  destruct (post_action_effect action nonce σ) as (_ & _ & _ & Hc & Hr).
  assert (forall v, (_post_action action nonce σ).1 = Ok v ->
            requests (env (_post_action action nonce σ).2) <> requests (env σ))
    as Hsent.
  { intros v Hv. rewrite post_action_run in Hv |- *.
    destruct (_post_action_payload action nonce σ) as [[payload|e] σ1] eqn:Hp;
      [|discriminate Hv].
    pose proof (stateless_post_action_payload action nonce σ) as Hst.
    rewrite Hp in Hst. cbn [snd] in Hst. subst σ1.
    destruct (post_sends_when_ok _ _ _ _ Hv) as [req ->].
    intros Heq. apply (f_equal (@List.length request)) in Heq.
    rewrite length_app in Heq. cbn in Heq. lia. }
  destruct (_post_action action nonce σ) as [[v|e] σ'] eqn:Hrun; cbn [snd fst] in *.
  - split; [lia|]. destruct Hr as [Hr|Hr]; [|exact Hr].
    now destruct (Hsent v eq_refl).
  - destruct Hr as [Hr|Hr]; [right|left]; split; try lia; assumption.
Qed.

Lemma triple_post_action σ0 action t :
  triple (awaiting σ0 (Some t)) (_post_action action t)
    (fun _ => submitted_once σ0 1 (clock (clock_reads (env σ0))))
    (submission_failed σ0 1 (clock (clock_reads (env σ0)))).
Proof.
  intros σ (Hs & Hr & Hc & ->).
  pose proof (post_action_outcome action (clock (clock_reads (env σ0))) σ) as H.
  destruct (_post_action action _ σ) as [[a|e] σ'].
  - destruct H as [Hk Hq]. split; [lia|]. now rewrite <- Hr, <- Hs.
  - destruct H as [[Hk Hq]|[Hk Hq]]; [left|right].
    + split; [lia|]. now rewrite <- Hr, <- Hs.
    + split; [lia|congruence].
Qed.

(** The operations that submit read the clock once, before anything is
    sent, and submit with what they read. *)
Ltac submission_step :=
  cbv beta;
  lazymatch goal with
  | |- triple _ (get_timestamp_ms ≫= _) _ _ =>
      eapply triple_bind; [apply triple_get_timestamp_ms|intros ?]
  | |- triple _ (_post_action _ _) _ _ =>
      apply triple_post_action
  | |- triple _ (if ?b then _ else _) _ _ => destruct b
  | |- triple _ (raise _) _ _ =>
      apply triple_raise; intros ?; apply awaiting_failed
  | |- triple _ (_ ≫= _) _ _ =>
      eapply triple_bind;
      [apply triple_stateless; [|intros ?; apply awaiting_failed]|intros ?]
  | |- stateless _ =>
      first [ apply stateless_map_M; intros ?
            | apply stateless_order_wire_of | apply stateless_cancel_wire_of
            | stateless_step ]
  end.

Lemma place_order_submits σ0 name is_buy sz limit_px order_type reduce_only :
  triple (awaiting σ0 None)
    (place_order name is_buy sz limit_px order_type reduce_only)
    (fun _ => submitted_once σ0 1 (clock (clock_reads (env σ0))))
    (submission_failed σ0 1 (clock (clock_reads (env σ0)))).
Proof.
  unfold place_order. repeat submission_step.
Qed.

Lemma place_orders_submits σ0 order_requests :
  triple (awaiting σ0 None) (place_orders order_requests)
    (fun _ => submitted_once σ0 1 (clock (clock_reads (env σ0))))
    (submission_failed σ0 1 (clock (clock_reads (env σ0)))).
Proof. unfold place_orders. repeat submission_step. Qed.

Lemma cancel_order_submits σ0 name oid :
  triple (awaiting σ0 None) (cancel_order name oid)
    (fun _ => submitted_once σ0 1 (clock (clock_reads (env σ0))))
    (submission_failed σ0 1 (clock (clock_reads (env σ0)))).
Proof. unfold cancel_order. repeat submission_step. Qed.

Lemma cancel_orders_submits σ0 cancel_requests :
  triple (awaiting σ0 None) (cancel_orders cancel_requests)
    (fun _ => submitted_once σ0 1 (clock (clock_reads (env σ0))))
    (submission_failed σ0 1 (clock (clock_reads (env σ0)))).
Proof. unfold cancel_orders. repeat submission_step. Qed.

Lemma update_leverage_submits σ0 asset_name leverage is_cross :
  triple (awaiting σ0 None) (update_leverage asset_name leverage is_cross)
    (fun _ => submitted_once σ0 1 (clock (clock_reads (env σ0))))
    (submission_failed σ0 1 (clock (clock_reads (env σ0)))).
Proof. unfold update_leverage. repeat submission_step. Qed.

Lemma triple_run {A} σ0 (m : M A) (Q : A -> state -> Prop) (E : state -> Prop) :
  triple (awaiting σ0 None) m Q E ->
  match m σ0 with
  | (Ok a, σ') => Q a σ'
  | (Raise _, σ') => E σ'
  end.
Proof. intros H. exact (H σ0 (awaiting_start σ0)). Qed.

(** C6, amended: [place_order], [place_orders], [cancel_order],
    [cancel_orders] and [update_leverage] take no nonce from their caller:
    each reads the clock ([get_timestamp_ms]) once, before anything is
    sent, and the value read is the nonce that is hashed, signed and placed
    in the payload of the request it sends.  When such a call returns, the
    clock was read exactly once and exactly one request was sent, a
    submission with that nonce; when it raises, either the same holds
    (the request went out and the answer was an error) or nothing was sent
    and the clock was read at most once.  [_post_action] hashes, signs and
    sends the nonce its caller passes, unchanged, under the same two
    outcomes, and never reads the clock. *)
Theorem submission_nonce (c : call) (σ : state) (nonce : Z) :
  nonce_of_call c σ = Some nonce ->
  match run c σ with
  | (Ok _, σ') => submitted_once σ (clock_reads_of_call c) nonce σ'
  | (Raise _, σ') => submission_failed σ (clock_reads_of_call c) nonce σ'
  end.
Proof.
  destruct c; try discriminate; intros [= <-]; cbn [run clock_reads_of_call].
  - apply post_action_outcome.
  - apply (triple_run σ), place_order_submits.
  - apply (triple_run σ), place_orders_submits.
  - apply (triple_run σ), cancel_order_submits.
  - apply (triple_run σ), cancel_orders_submits.
  - apply (triple_run σ), update_leverage_submits.
Qed.

(** ** The vault address *)

Lemma invariant_frame w σ σ' :
  client_invariant w σ ->
  vault_address (self σ') = vault_address (self σ) ->
  base_url (self σ') = base_url (self σ) ->
  wallet (self σ') = wallet (self σ) ->
  requests (env σ') = requests (env σ) ->
  client_invariant w σ'.
Proof.
  intros (Hv & Hb & Hw & Hr) Ev Eb Ew Er.
  unfold client_invariant. rewrite Ev, Eb, Ew, Er. auto.
Qed.

Lemma preserves_set_session w s : preserves (client_invariant w) (set_session s).
Proof. intros σ H. now apply (invariant_frame w σ). Qed.

Lemma preserves_set_registry w a i :
  preserves (client_invariant w) (set_registry a i).
Proof. intros σ H. now apply (invariant_frame w σ). Qed.

Lemma preserves_get_timestamp_ms w :
  preserves (client_invariant w) get_timestamp_ms.
Proof. intros σ H. now apply (invariant_frame w σ). Qed.

Lemma preserves_set_tasks w ts : preserves (client_invariant w) (set_tasks ts).
Proof. intros σ H. now apply (invariant_frame w σ). Qed.

Lemma preserves_post_info w payload :
  preserves (client_invariant w) (post "/info" payload).
Proof.
  intros σ H. destruct (post_effect "/info" payload σ) as (Ev & Eb & Ew & _ & Er).
  destruct Er as [Er|Er]; [now apply (invariant_frame w σ)|].
  destruct H as (Hv & Hb & Hw & Hr).
  unfold client_invariant. rewrite Ev, Eb, Ew, Er.
  repeat split; try assumption.
  apply Forall_app. split; [assumption|].
  constructor; [|constructor]. left. cbn [url]. now rewrite Hb.
Qed.

(** Without vault address the submission is signed over the marker byte
    0x00 and carries a null [vaultAddress], whatever the action type. *)
Lemma preserves_post_action w action nonce :
  preserves (client_invariant w) (_post_action action nonce).
Proof.
  intros σ H. rewrite post_action_run.
  destruct (_post_action_payload action nonce σ) as [[payload|e] σ1] eqn:Hp.
  - destruct (post_action_payload_inv _ _ _ _ _ Hp)
      as (signature & type & Hs & Ht & Hpay & ->).
    destruct (post_effect "/exchange" payload σ) as (Ev & Eb & Ew & _ & Er).
    destruct Er as [Er|Er]; [now apply (invariant_frame w σ)|].
    destruct H as (Hv & Hb & Hw & Hr).
    unfold client_invariant. rewrite Ev, Eb, Ew, Er.
    repeat split; try assumption.
    apply Forall_app. split; [assumption|].
    constructor; [|constructor]. right. cbn [url json_body].
    split; [now rewrite Hb|].
    rewrite Hv, Hb, Hw in Hs. simpl in Hs.
    destruct (sign_l1_action_ok _ _ _ _ _ _ _ Hs) as (hash & _ & _ & Hh & _).
    destruct (sign_l1_action_hash_inv _ _ _ _ Hh)
      as (packed & marker & Hpk & _ & -> & ->).
    exists action, nonce, signature, packed.
    split.
    { rewrite Hpay, Hv. simpl. now destruct (eq_str type "usdClassTransfer"). }
    split; [exact Hpk|]. split; [exact Hh|].
    intros σ2.
    destruct (sign_l1_action_pure w action None nonce true) as [r Hpure].
    rewrite Hpure in Hs |- *. exact Hs.
  - pose proof (stateless_post_action_payload action nonce σ) as Hst.
    rewrite Hp in Hst. simpl in Hst. now subst σ1.
Qed.

Ltac stateless_solve :=
  solve [ repeat first [ apply stateless_map_M; intros ?
                       | apply stateless_order_wire_of
                       | apply stateless_cancel_wire_of
                       | stateless_step ] ].

Ltac preserves_step :=
  cbv beta zeta;
  lazymatch goal with
  | |- preserves _ (_post_action _ _) => apply preserves_post_action
  | |- preserves _ (post "/info" _) => apply preserves_post_info
  | |- preserves _ (set_session _) => apply preserves_set_session
  | |- preserves _ (set_registry _ _) => apply preserves_set_registry
  | |- preserves _ get_timestamp_ms => apply preserves_get_timestamp_ms
  | |- preserves _ (set_tasks _) => apply preserves_set_tasks
  | |- preserves _ (if ?b then _ else _) => destruct b
  | |- preserves _ (match ?x with _ => _ end) => destruct x
  | |- preserves _ (_ ≫= _) => apply preserves_bind; [|intros ?]
  | |- preserves _ _ => apply preserves_stateless; stateless_solve
  end.

Lemma preserves_update_leverage w asset_name leverage is_cross :
  preserves (client_invariant w) (update_leverage asset_name leverage is_cross).
Proof. unfold update_leverage. repeat preserves_step. Qed.

Lemma preserves_aenter_loop w universe idx :
  preserves (client_invariant w) (aenter_loop universe idx).
Proof.
  revert idx. induction universe as [|asset_info rest IH]; intros idx; simpl.
  - repeat preserves_step.
  - apply preserves_bind; [repeat preserves_step|]. intros name.
    destruct name; repeat preserves_step.
    apply IH.
Qed.

Lemma preserves_aenter w : preserves (client_invariant w) __aenter__.
Proof.
  unfold __aenter__, meta. repeat preserves_step.
  apply preserves_aenter_loop.
Qed.

Lemma preserves_run_task w k : preserves (client_invariant w) (run_task k).
Proof.
  unfold run_task. repeat preserves_step.
  apply preserves_detached, preserves_update_leverage.
Qed.

(** Every call keeps the invariant. *)
Lemma preserves_run w c : preserves (client_invariant w) (run c).
Proof.
  destruct c; cbn [run].
  - apply preserves_bind; [apply preserves_aenter|intros ?; repeat preserves_step].
  - unfold __aexit__. repeat preserves_step.
  - apply preserves_post_action.
  - unfold place_order. repeat preserves_step.
  - unfold place_orders. repeat preserves_step.
  - unfold cancel_order. repeat preserves_step.
  - unfold cancel_orders. repeat preserves_step.
  - unfold query_order_by_oid. repeat preserves_step.
  - unfold user_state. repeat preserves_step.
  - unfold get_universe. repeat preserves_step.
  - unfold open_orders. repeat preserves_step.
  - unfold meta. repeat preserves_step.
  - apply preserves_update_leverage.
  - unfold get_positions, user_state. repeat preserves_step.
  - unfold get_balance, user_state. repeat preserves_step.
  - unfold get_order_status, query_order_by_oid. repeat preserves_step.
  - apply preserves_run_task.
Qed.

Lemma reachable_invariant σ :
  reachable σ -> client_invariant (wallet (self σ)) σ.
Proof.
  induction 1 as [config c Hinit|σ c _ IH].
  - unfold __init__ in Hinit.
    destruct (subscript config "secret_key"); [|discriminate Hinit].
    cbn [mbind result_bind] in Hinit.
    destruct (from_key _); [|discriminate Hinit].
    cbn [mbind result_bind] in Hinit.
    destruct (subscript config "account_address"); [|discriminate Hinit].
    cbn [mbind result_bind] in Hinit. injection Hinit as <-.
    repeat split. constructor.
  - pose proof (preserves_run _ c σ IH) as H.
    pose proof H as (_ & _ & Hw & _). rewrite Hw. exact H.
Qed.

(** C10: in every state a program reaches by constructing the client and
    calling its methods, [vault_address] is [None]; and every request that
    went to [/exchange] was signed over a hash whose preimage ends in the
    marker byte 0x00 after the nonce, and carries a null [vaultAddress],
    for every action type. *)
Theorem vault_address_never_set (σ : state) :
  reachable σ ->
  vault_address (self σ) = None
  /\ forall req, In req (requests (env σ)) ->
       url req = exchange_url ->
       vaultless_submission (wallet (self σ)) req.
Proof.
  intros H. apply reachable_invariant in H as (Hv & _ & _ & Hr).
  split; [exact Hv|]. intros req Hin Hurl.
  rewrite List.Forall_forall in Hr. destruct (Hr req Hin) as [Hi|[_ Hs]].
  - rewrite Hurl in Hi. discriminate Hi.
  - exact Hs.
Qed.
(** * Further results *)

(** ** What float_to_wire writes *)

(** X1: a finite float that rounds to zero at eight decimals and passes
    the rounding check is written ["0"] or, when its sign bit is set,
    ["-0"]. *)
Theorem float_to_wire_rounds_to_zero x :
  is_finite x = true ->
  magnitude8 x = 0 ->
  precision_lost x = false ->
  float_to_wire x = Ok (if sign_of x then "-0" else "0").
Proof.
  intros Hx Hm Hl. unfold float_to_wire.
  rewrite float_of_str_format_8f by assumption. cbn [mbind result_bind].
  fold (precision_lost x). rewrite Hl.
  rewrite format_8f_finite, Hm by assumption.
  destruct (sign_of x); reflexivity.
Qed.

(** X2: a float that is not finite is not rejected: NaN and the
    infinities come back as the names [Decimal] gives them. *)
Theorem float_to_wire_not_finite x :
  is_finite x = false ->
  float_to_wire x
  = Ok (match x with
        | S754_infinity true => "-Infinity"
        | S754_infinity false => "Infinity"
        | _ => "NaN"
        end).
Proof. destruct x as [s|[]| |s m e]; try discriminate; reflexivity. Qed.

(** ** Error classification, continued *)

Lemma handle_exception_ok (r : response) :
  status r < 400 -> _handle_exception r = Ok tt.
Proof.
  intros H. unfold _handle_exception.
  destruct (Z.ltb_spec (status r) 400); [reflexivity|lia].
Qed.

Lemma handle_exception_raises (r : response) :
  400 <= status r -> exists e, _handle_exception r = Raise e.
Proof.
  intros H. unfold _handle_exception.
  destruct (Z.ltb_spec (status r) 400); [lia|].
  destruct (_ && _); [|eauto].
  destruct (json r) as [v|e].
  - destruct v; cbn; eauto.
    destruct (dict_get kvs "code"); [|eauto].
    destruct (dict_get kvs "msg"); eauto.
  - destruct e; eauto.
Qed.

(** X3: [_handle_exception] returns normally exactly for a status below
    400; every status from 400 on ends in an exception, whatever the body
    holds. *)
Theorem handle_exception_returns_iff (r : response) :
  _handle_exception r = Ok tt <-> status r < 400.
Proof.
  split; [|apply handle_exception_ok].
  intros H. destruct (Z.lt_ge_cases (status r) 400) as [|Hge]; [assumption|].
  destruct (handle_exception_raises r Hge) as [e He]. congruence.
Qed.

(** X4: a 4xx response whose body does not decode as JSON, or decodes to
    null, raises [ClientError] with the raw body text as message and no
    error code; the response headers arrive in [error_data] and [header]
    is [None]. *)
Theorem handle_exception_unparsed_body (r : response) :
  400 <= status r < 500 ->
  json r = Raise JSONDecodeError \/ json r = Ok VNone ->
  _handle_exception r
  = Raise (ClientError (status r) VNone (VStr (text r)) VNone (headers r)).
Proof.
  intros H Hj. unfold _handle_exception.
  destruct (Z.ltb_spec (status r) 400); [lia|].
  destruct (Z.leb_spec 400 (status r)); [|lia].
  destruct (Z.ltb_spec (status r) 500); [|lia].
  simpl. destruct Hj as [-> | ->]; reflexivity.
Qed.

(** ** Posting *)

(** The state after [post] has sent [req] through a session it found open
    or opened itself. *)
Lemma post_run (url_path : string) (payload : value) (σ : state) (r : response) :
  session (self σ) <> Some SessionClosed ->
  exchange (requests (env σ))
    {| url := base_url (self σ) +:+ url_path;
       json_body := if truthy payload then payload else VDict [] |} = Ok r ->
  post url_path payload σ
  = (match _handle_exception r with
     | Ok _ =>
         match json r with
         | Ok v => Ok v
         | Raise e =>
             if is_ValueError e
             then Ok (VDict [("error", VStr ("Could not parse JSON: " +:+ text r))])
             else Raise e
         end
     | Raise e => Raise e
     end,
     (log_request {| url := base_url (self σ) +:+ url_path;
                     json_body := if truthy payload then payload else VDict [] |}
        (set_session (Some SessionOpen) σ).2).2).
Proof.
  destruct σ as [c w]. intros Hs He.
  unfold post, session_post, set_session, set_self, log_request, get_self, get_env,
    raise, liftR, mbind, M_bind, mret, M_ret.
  cbn -[truthy _handle_exception is_ValueError] in *.
  destruct (session c) as [[]|] eqn:Hc; [|congruence|];
    cbn -[truthy _handle_exception is_ValueError];
    rewrite ?Hc; cbn -[truthy _handle_exception is_ValueError];
    rewrite He; cbn -[truthy _handle_exception is_ValueError];
    destruct c; cbn -[truthy _handle_exception is_ValueError] in *; subst;
    (destruct (_handle_exception r) as [[]|]; [|reflexivity];
     destruct (json r) as [v|e]; [reflexivity|];
     destruct (is_ValueError e); reflexivity).
Qed.

(** X5: when the exchange answers with a status below 400, [post] sends
    exactly one request, to the base URL followed by the path and with the
    payload (an empty object for a falsy payload), leaves an open session
    behind, and returns the parsed body; a body that fails to parse with a
    [ValueError] is returned as an ["error"] object, not raised. *)
Theorem post_returns_body (url_path : string) (payload : value) (σ : state)
    (r : response) :
  let req := {| url := base_url (self σ) +:+ url_path;
                json_body := if truthy payload then payload else VDict [] |} in
  let σ' := (post url_path payload σ).2 in
  session (self σ) <> Some SessionClosed ->
  exchange (requests (env σ)) req = Ok r ->
  status r < 400 ->
  requests (env σ') = requests (env σ) ++ [req]
  /\ session (self σ') = Some SessionOpen
  /\ (forall v, json r = Ok v -> (post url_path payload σ).1 = Ok v)
  /\ (forall e, json r = Raise e -> is_ValueError e = true ->
      (post url_path payload σ).1
      = Ok (VDict [("error", VStr ("Could not parse JSON: " +:+ text r))])).
Proof.
  intros req σ' Hs He Hst. subst σ' req.
  rewrite (post_run _ _ _ _ Hs He).
  rewrite (handle_exception_ok r Hst).
  cbn [fst snd]. repeat split.
  - intros v ->. reflexivity.
  - intros e -> ->. reflexivity.
Qed.

(** X6: when the exchange answers with a status of 400 or more, [post]
    has sent the request and raises what [_handle_exception] raises for
    the response; the body is never returned. *)
Theorem post_raises_on_error_status (url_path : string) (payload : value)
    (σ : state) (r : response) :
  let req := {| url := base_url (self σ) +:+ url_path;
                json_body := if truthy payload then payload else VDict [] |} in
  session (self σ) <> Some SessionClosed ->
  exchange (requests (env σ)) req = Ok r ->
  400 <= status r ->
  exists e,
    _handle_exception r = Raise e
    /\ (post url_path payload σ).1 = Raise e
    /\ requests (env (post url_path payload σ).2) = requests (env σ) ++ [req].
Proof.
  intros req Hs He Hst. subst req.
  rewrite (post_run _ _ _ _ Hs He).
  destruct (handle_exception_raises r Hst) as [e Hr]. rewrite Hr.
  exists e. repeat split.
Qed.

(** X7: [__aexit__] closes the session and keeps it, so a [post] after it
    opens no new session: the call goes to the closed session, which
    raises [RuntimeError], and nothing is sent. *)
Theorem post_after_exit (url_path : string) (payload : value) (σ : state) :
  let σ1 := (__aexit__ σ).2 in
  session (self σ) <> None ->
  requests (env σ1) = requests (env σ)
  /\ post url_path payload σ1 = (Raise (RuntimeError "Session is closed"), σ1).
Proof.
  intros σ1 Hs. subst σ1. destruct σ as [c w]. cbn in Hs.
  unfold __aexit__. rewrite bind_run. cbn [get_self self].
  destruct (session c) as [s|] eqn:Hc; [|congruence].
  split; [reflexivity|]. reflexivity.
Qed.

(** ** The registry [__aenter__] builds *)

Lemma post_keeps_tasks (url_path : string) (payload : value) (σ : state) :
  tasks (env (post url_path payload σ).2) = tasks (env σ).
Proof.
  destruct σ as [c w].
  unfold post, session_post, set_session, set_self, log_request, get_self, get_env,
    raise, liftR, mbind, M_bind, mret, M_ret.
  cbn -[truthy _handle_exception is_ValueError].
  destruct (session c) as [[]|] eqn:Hs;
    cbn -[truthy _handle_exception is_ValueError];
    rewrite ?Hs; cbn -[truthy _handle_exception is_ValueError];
    try reflexivity;
    (match goal with
     | |- context [exchange ?a ?b] => destruct (exchange a b) as [r|e]
     end; [|reflexivity];
     destruct (_handle_exception r); [|reflexivity];
     destruct (json r) as [v|e]; [reflexivity|];
     destruct (is_ValueError e); reflexivity).
Qed.

Lemma aenter_loop_env (universe : list value) :
  forall idx σ, env (aenter_loop universe idx σ).2 = env σ.
Proof.
  induction universe as [|asset_info rest IH]; intros idx [c w]; [reflexivity|].
  cbn [aenter_loop]. rewrite bind_run. cbn [liftR].
  destruct (subscript asset_info "name") as [[]|]; try reflexivity.
  cbv beta iota. rewrite bind_run. cbn [get_self self]. rewrite bind_run.
  destruct (coin_to_asset c) as [assets|]; [|reflexivity].
  cbn [attribute mret M_ret]. rewrite bind_run.
  destruct (coin_info c) as [infos|]; [|reflexivity].
  cbn [attribute mret M_ret]. rewrite bind_run.
  unfold set_registry at 1. rewrite bind_run. cbn [get_self set_self self env].
  rewrite bind_run. cbn [liftR].
  destruct (subscript asset_info "maxLeverage"); [|reflexivity].
  cbv beta iota. rewrite bind_run.
  match goal with |- context [aenter_loop rest ?i ?s] =>
    specialize (IH i s); destruct (aenter_loop rest i s) as [[ts|e] σ2] end;
    exact IH.
Qed.

Lemma aenter_loop_registry (universe : list value) :
  forall idx σ ts σ' assets infos,
    coin_to_asset (self σ) = Some assets ->
    coin_info (self σ) = Some infos ->
    aenter_loop universe idx σ = (Ok ts, σ') ->
    exists assets' infos',
      coin_to_asset (self σ') = Some assets'
      /\ coin_info (self σ') = Some infos'
      /\ Forall2 task_for universe ts
      /\ (forall name, unlisted name universe ->
            assets' !! name = assets !! name /\ infos' !! name = infos !! name)
      /\ (forall k asset_info name,
            universe !! k = Some asset_info ->
            subscript asset_info "name" = Ok (VStr name) ->
            unlisted name (drop (S k) universe) ->
            assets' !! name = Some (idx + Z.of_nat k)
            /\ infos' !! name = Some asset_info).
Proof.
  induction universe as [|asset_info rest IH];
    intros idx [c w] ts σ' assets infos Ha Hi H.
  - injection H as <- <-. exists assets, infos.
    split; [exact Ha|]. split; [exact Hi|]. split; [constructor|].
    split; [intros name _; split; reflexivity|].
    intros k ? ? Hk. destruct k; discriminate Hk.
  - cbn [aenter_loop] in H. rewrite bind_run in H. cbn [liftR] in H.
    destruct (subscript asset_info "name") as [[| | | |name0| | |]|] eqn:Hn;
      try discriminate H.
    cbv beta iota in H. rewrite bind_run in H. cbn [get_self self] in H.
    cbn [self] in Ha, Hi. rewrite bind_run, Ha in H.
    cbn [attribute mret M_ret] in H. rewrite bind_run, Hi in H.
    cbn [attribute mret M_ret] in H. rewrite bind_run in H.
    unfold set_registry at 1 in H. rewrite bind_run in H.
    cbn [get_self set_self self env] in H.
    rewrite bind_run in H. cbn [liftR] in H.
    destruct (subscript asset_info "maxLeverage") as [max_leverage|] eqn:Hm;
      [|discriminate H].
    cbv beta iota in H. rewrite bind_run in H.
    match type of H with context [aenter_loop rest ?i ?s] =>
      destruct (aenter_loop rest i s) as [[ts'|e] σ2] eqn:Hl end;
      [|discriminate H].
    injection H as <- <-.
    pose proof (fun a b => IH _ _ _ _ (<[name0:=idx]> assets)
                             (<[name0:=asset_info]> infos) a b Hl) as IH'.
    destruct (IH' eq_refl eq_refl)
      as (assets' & infos' & Ha' & Hi' & Hts & Hout & Hin).
    exists assets', infos'. split; [exact Ha'|]. split; [exact Hi'|].
    split; [constructor; [split; assumption|exact Hts]|]. split.
    + intros name Hu. apply Forall_cons in Hu as [Hne Hu].
      destruct (Hout name Hu) as [-> ->].
      assert (name0 <> name) by congruence.
      now rewrite !lookup_insert_ne.
    + intros [|k] info name Hk Hname Hu; cbn [drop] in Hu.
      * injection Hk as <-. rewrite Hn in Hname. injection Hname as ->.
        destruct (Hout name Hu) as [-> ->].
        rewrite !lookup_insert_eq. split; [f_equal; lia|reflexivity].
      * destruct (Hin k info name Hk Hname Hu) as [-> ->].
        split; [f_equal; lia|reflexivity].
Qed.

(** What a successful [__aenter__] went through. *)
Lemma aenter_inv (σ σ' : state) :
  __aenter__ σ = (Ok tt, σ') ->
  exists meta_data listed universe assets infos ts,
    (meta (set_session (Some SessionOpen) σ).2).1 = Ok meta_data
    /\ subscript meta_data "universe" = Ok listed
    /\ iterate listed = Ok universe
    /\ coin_to_asset (self σ') = Some assets
    /\ coin_info (self σ') = Some infos
    /\ tasks (env σ') = tasks (env σ) ++ ts
    /\ Forall2 task_for universe ts
    /\ (forall name, unlisted name universe ->
          assets !! name = None /\ infos !! name = None)
    /\ (forall k asset_info name,
          universe !! k = Some asset_info ->
          subscript asset_info "name" = Ok (VStr name) ->
          unlisted name (drop (S k) universe) ->
          assets !! name = Some (Z.of_nat k) /\ infos !! name = Some asset_info).
Proof.
  unfold __aenter__. rewrite bind_run.
  set (σ1 := (set_session (Some SessionOpen) σ).2).
  assert (tasks (env σ1) = tasks (env σ)) as Ht1 by reflexivity.
  replace (set_session (Some SessionOpen) σ) with (Ok tt, σ1) by reflexivity.
  cbv beta iota. rewrite bind_run.
  pose proof (post_keeps_tasks "/info" (VDict [("type", VStr "meta")]) σ1) as Ht2.
  fold meta in Ht2.
  destruct (meta σ1) as [[meta_data|e] σ2] eqn:Hmeta; [|discriminate].
  cbn [snd] in Ht2. rewrite bind_run.
  set (σ3 := (set_registry ∅ ∅ σ2).2).
  replace (set_registry ∅ ∅ σ2) with (Ok tt, σ3) by reflexivity.
  cbv beta iota. rewrite bind_run. cbn [liftR].
  destruct (subscript meta_data "universe") as [listed|] eqn:Hu; [|discriminate].
  cbv beta iota. rewrite bind_run. cbn [liftR].
  destruct (iterate listed) as [universe|] eqn:Hit; [|discriminate].
  cbv beta iota. rewrite bind_run.
  pose proof (aenter_loop_env universe 0 σ3) as Henv.
  destruct (aenter_loop universe 0 σ3) as [[ts|e] σ4] eqn:Hl; [|discriminate].
  cbn [snd] in Henv.
  destruct (aenter_loop_registry universe 0 σ3 ts σ4 ∅ ∅ eq_refl eq_refl Hl)
    as (assets & infos & Ha & Hi & Hts & Hout & Hin).
  rewrite bind_run. cbn [get_env set_tasks]. intros [= <-].
  exists meta_data, listed, universe, assets, infos, ts.
  split; [reflexivity|]. split; [exact Hu|]. split; [exact Hit|].
  split; [exact Ha|]. split; [exact Hi|].
  split; [cbn; now rewrite Henv, <- Ht1, <- Ht2|].
  split; [exact Hts|]. split.
  - intros name Hn. destruct (Hout name Hn) as [-> ->]. now rewrite !lookup_empty.
  - intros k info name Hk Hn Hlater.
    destruct (Hin k info name Hk Hn Hlater) as [-> ->]. split; [f_equal; lia|reflexivity].
Qed.

(** X8: after a successful [__aenter__] the registries hold the assets of
    the [universe] list of the [meta] answer and nothing else: the asset at
    position [k] is registered under its name with index [k] and its own
    description, unless a later asset has the same name; a name that is
    not listed is in neither registry. *)
Theorem aenter_registry (σ σ' : state) :
  __aenter__ σ = (Ok tt, σ') ->
  exists meta_data listed universe assets infos,
    (meta (set_session (Some SessionOpen) σ).2).1 = Ok meta_data
    /\ subscript meta_data "universe" = Ok listed
    /\ iterate listed = Ok universe
    /\ coin_to_asset (self σ') = Some assets
    /\ coin_info (self σ') = Some infos
    /\ (forall name, unlisted name universe ->
          assets !! name = None /\ infos !! name = None)
    /\ (forall k asset_info name,
          universe !! k = Some asset_info ->
          subscript asset_info "name" = Ok (VStr name) ->
          unlisted name (drop (S k) universe) ->
          assets !! name = Some (Z.of_nat k) /\ infos !! name = Some asset_info).
Proof.
  intros H.
  destruct (aenter_inv σ σ' H)
    as (meta_data & listed & universe & assets & infos & ts
        & Hm & Hu & Hit & Ha & Hi & _ & _ & Hout & Hin).
  exists meta_data, listed, universe, assets, infos. repeat split; try assumption.
  all: try (now apply Hout). all: now apply (Hin k asset_info name).
Qed.

(** X9: a successful [__aenter__] leaves one leverage update per listed
    asset with the event loop, in the order of the list, each for the
    asset's name with the asset's maximal leverage. *)
Theorem aenter_schedules_max_leverage (σ σ' : state) :
  __aenter__ σ = (Ok tt, σ') ->
  exists meta_data listed universe ts,
    (meta (set_session (Some SessionOpen) σ).2).1 = Ok meta_data
    /\ subscript meta_data "universe" = Ok listed
    /\ iterate listed = Ok universe
    /\ tasks (env σ') = tasks (env σ) ++ ts
    /\ Forall2 task_for universe ts.
Proof.
  intros H.
  destruct (aenter_inv σ σ' H)
    as (meta_data & listed & universe & assets & infos & ts
        & Hm & Hu & Hit & _ & _ & Ht & Hts & _).
  exists meta_data, listed, universe, ts. repeat split; assumption.
Qed.

(** X10: an [__aenter__] that raises has scheduled nothing: the coroutines
    are handed to the event loop only after the whole list was read. *)
Theorem aenter_failure_schedules_nothing (σ σ' : state) (e : exn) :
  __aenter__ σ = (Raise e, σ') ->
  tasks (env σ') = tasks (env σ).
Proof.
  unfold __aenter__. rewrite bind_run.
  set (σ1 := (set_session (Some SessionOpen) σ).2).
  assert (tasks (env σ1) = tasks (env σ)) as Ht1 by reflexivity.
  replace (set_session (Some SessionOpen) σ) with (Ok tt, σ1) by reflexivity.
  cbv beta iota. rewrite bind_run.
  pose proof (post_keeps_tasks "/info" (VDict [("type", VStr "meta")]) σ1) as Ht2.
  fold meta in Ht2.
  destruct (meta σ1) as [[meta_data|e1] σ2] eqn:Hmeta; cbn [snd] in Ht2;
    [|intros [= _ <-]; congruence].
  rewrite bind_run.
  set (σ3 := (set_registry ∅ ∅ σ2).2).
  assert (tasks (env σ3) = tasks (env σ2)) as Ht3 by reflexivity.
  replace (set_registry ∅ ∅ σ2) with (Ok tt, σ3) by reflexivity.
  cbv beta iota. rewrite bind_run. cbn [liftR].
  destruct (subscript meta_data "universe") as [listed|];
    [|intros [= _ <-]; congruence].
  cbv beta iota. rewrite bind_run. cbn [liftR].
  destruct (iterate listed) as [universe|]; [|intros [= _ <-]; congruence].
  cbv beta iota. rewrite bind_run.
  pose proof (aenter_loop_env universe 0 σ3) as Henv.
  destruct (aenter_loop universe 0 σ3) as [[ts|e1] σ4]; cbn [snd] in Henv.
  - rewrite bind_run. cbn [get_env set_tasks]. discriminate.
  - intros [= _ <-]. rewrite Henv. congruence.
Qed.

(** ** Trading operations *)

Lemma init_inv (config : value) (c : HyperLiquidClient) :
  __init__ config = Ok c ->
  exists secret_key w a,
    subscript config "secret_key" = Ok secret_key
    /\ from_key secret_key = Ok w
    /\ subscript config "account_address" = Ok a
    /\ c = {| base_url := "https://api.hyperliquid.xyz"; session := None;
              wallet := w; address := a; vault_address := None;
              account_address := a;
              coin_to_asset := None; coin_info := None |}.
Proof.
  unfold __init__.
  destruct (subscript config "secret_key") as [secret_key|] eqn:Hk; [|discriminate].
  cbn [mbind result_bind].
  destruct (from_key secret_key) as [w|] eqn:Hw; [|discriminate].
  cbn [mbind result_bind].
  destruct (subscript config "account_address") as [a|] eqn:Ha; [|discriminate].
  cbn [mbind result_bind]. intros [= <-].
  exists secret_key, w, a. repeat split; assumption.
Qed.

(** X11: [place_order] checks before it acts.  An unknown coin raises
    [KeyError]; otherwise a price, then a size, that [float_to_wire]
    rejects raises its error; in all three cases the clock is not read and
    nothing is signed or sent.  Otherwise the clock is read once and the
    reading is the nonce of one order action holding the one order. *)
Theorem place_order_validates_first (name : string) (is_buy : bool)
    (sz limit_px : float) (order_type : value) (reduce_only : bool)
    (σ : state) (assets : gmap string Z) :
  coin_to_asset (self σ) = Some assets ->
  place_order name is_buy sz limit_px order_type reduce_only σ
  = match assets !! name with
    | None => (Raise (KeyError (VStr name)), σ)
    | Some a =>
        match float_to_wire limit_px with
        | Raise e => (Raise e, σ)
        | Ok p =>
            match float_to_wire sz with
            | Raise e => (Raise e, σ)
            | Ok s =>
                _post_action
                  (VDict [("type", VStr "order");
                          ("orders",
                            VList [VDict [("a", VInt a); ("b", VBool is_buy);
                                          ("p", VStr p); ("s", VStr s);
                                          ("r", VBool reduce_only);
                                          ("t", order_type)]]);
                          ("grouping", VStr "na")])
                  (clock (clock_reads (env σ))) (tick σ).2
            end
        end
    end.
Proof.
  intros H. destruct σ as [c w]. cbn [self] in H.
  unfold place_order. rewrite bind_run. cbn [get_self self].
  rewrite bind_run, H. cbn [attribute mret M_ret]. rewrite bind_run.
  unfold registry_lookup. destruct (assets !! name) as [a|]; [|reflexivity].
  cbn [mret M_ret]. rewrite bind_run. cbn [liftR].
  destruct (float_to_wire limit_px) as [p|]; [|reflexivity].
  cbv beta iota. rewrite bind_run. cbn [liftR].
  destruct (float_to_wire sz) as [s|]; reflexivity.
Qed.

(** X12: [update_leverage] compares the requested leverage with the
    asset's registered maximum before anything else happens: above the
    maximum it raises [ValueError] without reading the clock or sending;
    up to the maximum, the maximum included, it reads the clock once and
    submits an updateLeverage action for the asset's index. *)
Theorem update_leverage_guard (asset_name : string) (l m : Z) (is_cross : bool)
    (σ : state) (infos : gmap string value) (asset_info : value) :
  coin_info (self σ) = Some infos ->
  infos !! asset_name = Some asset_info ->
  subscript asset_info "maxLeverage" = Ok (VInt m) ->
  (m < l ->
   update_leverage asset_name (VInt l) is_cross σ
   = (Raise (ValueError "Leverage exceeds maximum allowed leverage" (VInt l)), σ))
  /\ (l <= m ->
      forall assets a,
        coin_to_asset (self σ) = Some assets ->
        assets !! asset_name = Some a ->
        update_leverage asset_name (VInt l) is_cross σ
        = _post_action
            (VDict [("type", VStr "updateLeverage"); ("asset", VInt a);
                    ("isCross", VBool is_cross); ("leverage", VInt l)])
            (clock (clock_reads (env σ))) (tick σ).2).
Proof.
  intros Hi Hl Hm. destruct σ as [c w]. cbn [self] in Hi.
  unfold update_leverage. rewrite bind_run. cbn [get_self self].
  rewrite bind_run, Hi. cbn [attribute mret M_ret]. rewrite bind_run.
  unfold registry_lookup. rewrite Hl. cbn [mret M_ret].
  rewrite bind_run, Hm. cbn [liftR]. rewrite bind_run.
  cbn [liftR py_gt]. split.
  - intros H. destruct (Z.ltb_spec m l); [reflexivity|lia].
  - intros H assets a Ha Hn. cbn [self] in Ha.
    destruct (Z.ltb_spec m l); [lia|].
    rewrite bind_run, Ha. cbn [attribute mret M_ret]. rewrite bind_run, Hn.
    reflexivity.
Qed.

(** X13: on a client that was constructed but not entered, the trading
    operations raise [AttributeError], the registries not existing yet:
    [place_order] and [update_leverage] without touching anything,
    [cancel_order] after one reading of the clock; none sends a request. *)
Theorem trading_before_aenter (config : value) (c : HyperLiquidClient) (w : world) :
  let σ := {| self := c; env := w |} in
  __init__ config = Ok c ->
  (forall name is_buy sz limit_px order_type reduce_only,
     place_order name is_buy sz limit_px order_type reduce_only σ
     = (Raise (AttributeError "coin_to_asset"), σ))
  /\ (forall asset_name leverage is_cross,
        update_leverage asset_name leverage is_cross σ
        = (Raise (AttributeError "coin_info"), σ))
  /\ (forall name oid,
        cancel_order name oid σ
        = (Raise (AttributeError "coin_to_asset"), (tick σ).2)).
Proof.
  intros σ H. subst σ.
  destruct (init_inv config c H) as (secret_key & wa & a & _ & _ & _ & ->).
  repeat split.
Qed.

(** X14: [place_orders] on a list of one request whose fields are a coin
    name, a buy flag, float price and size, a reduce-only flag and an
    order type behaves as [place_order] on those arguments, in every
    state: same result, same exception, same effects. *)
Theorem place_orders_singleton (kvs : list (string * value)) (name : string)
    (is_buy : bool) (sz limit_px : float) (order_type : value)
    (reduce_only : bool) (σ : state) :
  dict_get kvs "coin" = Some (VStr name) ->
  dict_get kvs "is_buy" = Some (VBool is_buy) ->
  dict_get kvs "limit_px" = Some (VFloat limit_px) ->
  dict_get kvs "sz" = Some (VFloat sz) ->
  dict_get kvs "reduce_only" = Some (VBool reduce_only) ->
  dict_get kvs "order_type" = Some order_type ->
  place_orders (VList [VDict kvs]) σ
  = place_order name is_buy sz limit_px order_type reduce_only σ.
Proof.
  intros Hc Hb Hp Hs Hr Ht. destruct σ as [c w].
  unfold place_orders, place_order. rewrite bind_run. cbn [liftR iterate].
  rewrite bind_run. cbn [map_M]. rewrite bind_run.
  unfold order_wire_of. rewrite !(bind_run get_self). cbn [get_self self].
  rewrite !(bind_run (attribute _ _)).
  destruct (coin_to_asset c) as [assets|]; [|reflexivity].
  cbn [attribute mret M_ret]. rewrite bind_run. cbn [liftR subscript].
  rewrite Hc. rewrite !(bind_run (registry_lookup_value _ _)).
  cbn [registry_lookup_value]. rewrite !(bind_run (registry_lookup _ _)).
  unfold registry_lookup. destruct (assets !! name) as [a|]; [|reflexivity].
  cbn [mret M_ret]. rewrite bind_run. cbn [liftR]. rewrite Hb.
  rewrite bind_run. cbn [liftR]. rewrite Hp.
  rewrite bind_run. cbn [liftR float_to_wire_value].
  rewrite !(bind_run (liftR (float_to_wire limit_px))). cbn [liftR].
  destruct (float_to_wire limit_px) as [p|]; [|reflexivity].
  cbv beta iota. rewrite bind_run. cbn [liftR]. rewrite Hs.
  rewrite bind_run. cbn [liftR float_to_wire_value].
  rewrite !(bind_run (liftR (float_to_wire sz))). cbn [liftR].
  destruct (float_to_wire sz) as [s|]; [|reflexivity].
  cbv beta iota. rewrite bind_run. cbn [liftR]. rewrite Hr.
  rewrite bind_run. cbn [liftR]. rewrite Ht. reflexivity.
Qed.

(** X15: [cancel_orders] on a list of one request naming a coin and an
    order id behaves as [cancel_order] on that coin and id, in every
    state: same result, same exception, same effects. *)
Theorem cancel_orders_singleton (kvs : list (string * value)) (name : string)
    (oid : value) (σ : state) :
  dict_get kvs "coin" = Some (VStr name) ->
  dict_get kvs "oid" = Some oid ->
  cancel_orders (VList [VDict kvs]) σ = cancel_order name oid σ.
Proof.
  intros Hc Ho. destruct σ as [c w].
  unfold cancel_orders, cancel_order. rewrite !(bind_run get_timestamp_ms).
  destruct (get_timestamp_ms _) as [[timestamp|e] σ1] eqn:Ht; [|reflexivity].
  destruct σ1 as [c1 w1].
  rewrite bind_run. cbn [liftR iterate].
  rewrite bind_run. cbn [map_M]. rewrite bind_run.
  unfold cancel_wire_of. rewrite !(bind_run get_self). cbn [get_self self].
  rewrite !(bind_run (attribute _ _)).
  destruct (coin_to_asset c1) as [assets|]; [|reflexivity].
  cbn [attribute mret M_ret]. rewrite bind_run. cbn [liftR subscript].
  rewrite Hc. rewrite !(bind_run (registry_lookup_value _ _)).
  cbn [registry_lookup_value]. rewrite !(bind_run (registry_lookup _ _)).
  unfold registry_lookup. destruct (assets !! name) as [a|]; [|reflexivity].
  cbn [mret M_ret]. rewrite bind_run. cbn [liftR]. rewrite Ho. reflexivity.
Qed.

(** X16: [cancel_order] reads the clock before it looks the coin up: for a
    coin that is not registered it raises [KeyError] with one reading of
    the clock spent and nothing sent. *)
Theorem cancel_order_unknown_coin (name : string) (oid : value) (σ : state)
    (assets : gmap string Z) :
  coin_to_asset (self σ) = Some assets ->
  assets !! name = None ->
  cancel_order name oid σ = (Raise (KeyError (VStr name)), (tick σ).2).
Proof.
  intros Ha Hn. destruct σ as [c w]. cbn [self] in Ha.
  unfold cancel_order, get_timestamp_ms. rewrite !bind_run.
  cbn [tick mret M_ret self env]. rewrite bind_run. cbn [get_self self].
  rewrite bind_run, Ha. cbn [attribute mret M_ret]. rewrite bind_run.
  unfold registry_lookup. rewrite Hn. reflexivity.
Qed.

(** ** Signing, continued *)

Lemma substring_all (s : string) : substring 0 (String.length s) s = s.
Proof. induction s as [|c s IH]; [reflexivity|]. cbn. now rewrite IH. Qed.

(** X17: the [0x] prefix of a vault address is optional: an address
    written without it is hashed as the same address with it. *)
Theorem vault_address_prefix_optional (action : value) (a : string) (nonce : Z) :
  String.prefix "0x" a = false ->
  sign_l1_action_hash action (Some ("0x" +:+ a)) nonce
  = sign_l1_action_hash action (Some a) nonce.
Proof.
  intros H. unfold sign_l1_action_hash. rewrite H.
  change ("0x" +:+ a) with (String "0" (String "x" a)).
  assert (String.prefix "0x" (String "0" (String "x" a)) = true) as ->
    by now destruct a.
  cbn [String.length substring Nat.sub].
  now rewrite Nat.sub_0_r, substring_all.
Qed.

(** X18: [_post_action] with a nonce outside the unsigned 64-bit range
    raises [OverflowError] while hashing; nothing is signed or sent and
    the state is as before. *)
Theorem post_action_nonce_out_of_range (action : value) (nonce : Z) (σ : state) :
  is_ok (packb action) = true ->
  ~ 0 <= nonce < 2 ^ 64 ->
  exists msg, _post_action action nonce σ = (Raise (OverflowError msg), σ).
Proof.
  intros Hp Hn. destruct σ as [c w].
  unfold _post_action, _post_action_payload. rewrite !bind_run.
  cbn [get_self self]. rewrite bind_run.
  unfold sign_l1_action. rewrite bind_run. cbn [liftR].
  unfold sign_l1_action_hash.
  destruct (packb action) as [packed|]; [|discriminate Hp].
  cbn [mbind result_bind]. unfold to_bytes.
  change (256 ^ Z.of_nat 8) with (2 ^ 64).
  destruct (Z.ltb_spec nonce 0); [eexists; reflexivity|].
  destruct (Z.leb_spec (2 ^ 64) nonce); [eexists; reflexivity|lia].
Qed.

(** ** Queries *)

Lemma positions_of_pointwise (asset_positions : list value) :
  forall positions,
    positions_of asset_positions = Ok positions ->
    Forall2 (fun position p => subscript position "position" = Ok p)
      asset_positions positions.
Proof.
  induction asset_positions as [|position rest IH]; intros positions H.
  - injection H as <-. constructor.
  - cbn [positions_of] in H.
    destruct (subscript position "position") as [p|] eqn:Hp; [|discriminate H].
    cbn [mbind result_bind] in H.
    destruct (positions_of rest) as [ps|]; [|discriminate H].
    cbn [mbind result_bind] in H. injection H as <-.
    constructor; [exact Hp|now apply IH].
Qed.

Lemma get_positions_state (σ : state) : (get_positions σ).2 = (user_state σ).2.
Proof.
  unfold get_positions. rewrite bind_run.
  destruct (user_state σ) as [[answer|e] σ1]; [|reflexivity].
  rewrite bind_run. cbn [liftR].
  destruct (subscript answer "assetPositions") as [listed|]; [|reflexivity].
  cbv beta iota. rewrite bind_run. cbn [liftR].
  destruct (iterate listed) as [asset_positions|]; [|reflexivity].
  cbv beta iota. rewrite bind_run. cbn [liftR].
  destruct (positions_of asset_positions); reflexivity.
Qed.

(** X19: [get_positions] sends what [user_state] sends and nothing more,
    and what it returns is the list of the ["position"] entries of the
    answer's ["assetPositions"], one per entry and in the same order. *)
Theorem get_positions_pointwise (σ : state) :
  (get_positions σ).2 = (user_state σ).2
  /\ forall v,
       (get_positions σ).1 = Ok v ->
       exists answer listed asset_positions positions,
         (user_state σ).1 = Ok answer
         /\ subscript answer "assetPositions" = Ok listed
         /\ iterate listed = Ok asset_positions
         /\ v = VList positions
         /\ Forall2 (fun position p => subscript position "position" = Ok p)
              asset_positions positions.
Proof.
  unfold get_positions. rewrite bind_run.
  destruct (user_state σ) as [[answer|e] σ1]; [|split; [reflexivity|discriminate]].
  rewrite bind_run. cbn [liftR].
  destruct (subscript answer "assetPositions") as [listed|] eqn:Hl;
    [|split; [reflexivity|discriminate]].
  cbv beta iota. rewrite bind_run. cbn [liftR].
  destruct (iterate listed) as [asset_positions|] eqn:Hit;
    [|split; [reflexivity|discriminate]].
  cbv beta iota. rewrite bind_run. cbn [liftR].
  destruct (positions_of asset_positions) as [positions|] eqn:Hp;
    [|split; [reflexivity|discriminate]].
  split; [reflexivity|]. intros v [= <-].
  exists answer, listed, asset_positions, positions.
  repeat split; try assumption. now apply positions_of_pointwise.
Qed.

(** [get_order_status] either leaves the state alone or is one
    [query_order_by_oid]. *)
Lemma get_order_status_run (order_result : value) (σ : state) :
  (get_order_status order_result σ).2 = σ
  \/ exists oid, get_order_status order_result σ = query_order_by_oid oid σ.
Proof.
  unfold get_order_status. rewrite bind_run. cbn [liftR].
  destruct (subscript order_result "status") as [st|]; [|now left].
  cbv beta iota. destruct (eq_str st "ok"); [|now left].
  rewrite bind_run. cbn [liftR].
  destruct (subscript order_result "response") as [response|]; [|now left].
  cbv beta iota. rewrite bind_run. cbn [liftR].
  destruct (subscript response "data") as [data|]; [|now left].
  cbv beta iota. rewrite bind_run. cbn [liftR].
  destruct (subscript data "statuses") as [statuses|]; [|now left].
  cbv beta iota. rewrite bind_run. cbn [liftR].
  destruct (subscript_int statuses 0) as [status|]; [|now left].
  cbv beta iota. rewrite bind_run. cbn [liftR].
  destruct (str_in "resting" status) as [[]|]; [|now left|now left].
  cbv beta iota. rewrite bind_run. cbn [liftR].
  destruct (subscript status "resting") as [resting|]; [|now left].
  cbv beta iota. rewrite bind_run. cbn [liftR].
  destruct (subscript resting "oid") as [oid|]; [|now left].
  right. now exists oid.
Qed.

(** X20: [get_order_status] returns [None] without sending anything for
    an order result whose status is not ["ok"], and for a first status
    that has no ["resting"] entry; whatever the order result, it does
    nothing to the state or is exactly one [query_order_by_oid]. *)
Theorem get_order_status_queries_resting (order_result : value) (σ : state) :
  (forall st,
     subscript order_result "status" = Ok st ->
     eq_str st "ok" = false ->
     get_order_status order_result σ = (Ok VNone, σ))
  /\ (forall response data statuses status,
        subscript order_result "status" = Ok (VStr "ok") ->
        subscript order_result "response" = Ok response ->
        subscript response "data" = Ok data ->
        subscript data "statuses" = Ok statuses ->
        subscript_int statuses 0 = Ok status ->
        str_in "resting" status = Ok false ->
        get_order_status order_result σ = (Ok VNone, σ))
  /\ ((get_order_status order_result σ).2 = σ
      \/ exists oid, get_order_status order_result σ = query_order_by_oid oid σ).
Proof.
  split; [|split; [|apply get_order_status_run]].
  - intros st Hs Hne. unfold get_order_status. rewrite bind_run, Hs.
    cbn [liftR]. now rewrite Hne.
  - intros response data statuses status Hs Hr Hd Hss Hst Hin.
    unfold get_order_status. rewrite bind_run, Hs. cbn [liftR].
    change (eq_str (VStr "ok") "ok") with true. cbv iota.
    rewrite bind_run, Hr. cbn [liftR]. rewrite bind_run, Hd. cbn [liftR].
    rewrite bind_run, Hss. cbn [liftR]. rewrite bind_run, Hst. cbn [liftR].
    rewrite bind_run, Hin. reflexivity.
Qed.

Lemma query_effect (payload : value) (σ : state) :
  truthy payload = true ->
  let σ' := (post "/info" payload σ).2 in
  clock_reads (env σ') = clock_reads (env σ)
  /\ (requests (env σ') = requests (env σ)
      \/ requests (env σ')
         = requests (env σ)
           ++ [{| url := base_url (self σ) +:+ "/info"; json_body := payload |}]).
Proof.
  intros Ht σ'. subst σ'.
  destruct (post_effect "/info" payload σ) as (_ & _ & _ & Hc & Hr).
  rewrite Ht in Hr. split; assumption.
Qed.

Lemma query_order_by_oid_run (oid : value) (σ : state) :
  query_order_by_oid oid σ
  = post "/info" (VDict [("type", VStr "orderStatus"); ("user", address (self σ));
                         ("oid", oid)]) σ.
Proof. reflexivity. Qed.

Lemma user_state_run (σ : state) :
  user_state σ
  = post "/info" (VDict [("type", VStr "clearinghouseState");
                         ("user", address (self σ))]) σ.
Proof. reflexivity. Qed.

Lemma get_universe_run (σ : state) :
  get_universe σ
  = post "/info" (VDict [("type", VStr "metaAndAssetCtxs");
                         ("user", address (self σ))]) σ.
Proof. reflexivity. Qed.

Lemma open_orders_run (σ : state) :
  open_orders σ
  = post "/info" (VDict [("type", VStr "openOrders");
                         ("user", address (self σ))]) σ.
Proof. reflexivity. Qed.

(** X21: the query operations are unsigned and read no clock: each sends
    at most one request, to the [/info] endpoint, and its body has neither
    a nonce nor a signature. *)
Theorem queries_are_unsigned (c : call) (σ : state) :
  is_query c = true ->
  let σ' := (run c σ).2 in
  clock_reads (env σ') = clock_reads (env σ)
  /\ (requests (env σ') = requests (env σ)
      \/ exists body,
           requests (env σ')
           = requests (env σ)
             ++ [{| url := base_url (self σ) +:+ "/info"; json_body := body |}]
           /\ subscript body "nonce" = Raise (KeyError (VStr "nonce"))
           /\ subscript body "signature" = Raise (KeyError (VStr "signature"))).
Proof.
  intros Hq σ'. subst σ'.
  assert (forall payload,
            truthy payload = true ->
            subscript payload "nonce" = Raise (KeyError (VStr "nonce")) ->
            subscript payload "signature" = Raise (KeyError (VStr "signature")) ->
            clock_reads (env (post "/info" payload σ).2) = clock_reads (env σ)
            /\ (requests (env (post "/info" payload σ).2) = requests (env σ)
                \/ exists body,
                     requests (env (post "/info" payload σ).2)
                     = requests (env σ)
                       ++ [{| url := base_url (self σ) +:+ "/info";
                              json_body := body |}]
                     /\ subscript body "nonce" = Raise (KeyError (VStr "nonce"))
                     /\ subscript body "signature"
                        = Raise (KeyError (VStr "signature")))) as Hpost.
  { intros payload Ht Hn Hs.
    destruct (query_effect payload σ Ht) as [Hc [Hr|Hr]].
    - split; [exact Hc|now left].
    - split; [exact Hc|right]. now exists payload. }
  destruct c; try discriminate Hq; cbn [run].
  - rewrite query_order_by_oid_run. apply Hpost; reflexivity.
  - rewrite user_state_run. apply Hpost; reflexivity.
  - rewrite get_universe_run. apply Hpost; reflexivity.
  - rewrite open_orders_run. apply Hpost; reflexivity.
  - unfold meta. apply Hpost; reflexivity.
  - rewrite get_positions_state, user_state_run. apply Hpost; reflexivity.
  - unfold get_balance. rewrite user_state_run. apply Hpost; reflexivity.
  - destruct (get_order_status_run order_result σ) as [->|[oid ->]].
    + split; [reflexivity|now left].
    + rewrite query_order_by_oid_run. apply Hpost; reflexivity.
Qed.

End Client.

(** * Closed examples

    The results above hold for every behaviour of the libraries and of the
    world.  The examples below run the model on the stand-ins. *)

Abbreviation standin_hash := (sign_l1_action_hash standin_keccak standin_packb).
Abbreviation standin_sign :=
  (sign_l1_action standin_keccak standin_packb standin_encode_structured_data).
Abbreviation standin_payload :=
  (_post_action_payload standin_keccak standin_packb standin_encode_structured_data).
Abbreviation standin_run start :=
  (run standin_keccak standin_packb standin_encode_structured_data
     (standin_clock start) standin_exchange).
Abbreviation standin_run_all :=
  (run_all standin_keccak standin_packb standin_encode_structured_data
     (standin_clock 1700000000000) standin_exchange).
Abbreviation standin_reachable :=
  (reachable standin_keccak standin_packb standin_encode_structured_data
     standin_from_key (standin_clock 1700000000000) standin_exchange).

(** The stand-in state is the one the constructor and [__aenter__] reach. *)
Example standin_state_reached :
  __init__ standin_from_key standin_config = Ok standin_initial_client
  /\ (standin_run 0 Call_aenter
        {| self := standin_initial_client; env := initial_world |}).2
     = {| self := standin_client;
            env := {| clock_reads := 0;
                      requests := [{| url := info_url;
                                      json_body := VDict [("type", VStr "meta")] |}];
                      tasks := [{| task_asset_name := "ETH";
                                   task_leverage := VInt 50 |}] |} |}.
Proof. split; reflexivity. Qed.

(** C1 at a concrete input: an order action, a millisecond nonce and a
    vault address; the marker and the address make 21 bytes. *)
Lemma connection_hash_preimage_witness :
  standin_hash (VDict [("type", VStr "order")])
    (Some "0x00000000000000000000000000000000000000aa") 1700000000000
  = Ok (big_endian 32 30)
  /\ exists packed marker : bytes,
       standin_packb (VDict [("type", VStr "order")]) = Ok packed
       /\ big_endian 32 30
          = standin_keccak (packed ++ big_endian 8 1700000000000 ++ marker)
       /\ List.length marker = 21%nat.
Proof.
  assert (standin_hash (VDict [("type", VStr "order")])
            (Some "0x00000000000000000000000000000000000000aa") 1700000000000
          = Ok (big_endian 32 30)) as H by reflexivity.
  split; [exact H|].
  destruct (connection_hash_preimage standin_keccak standin_packb _ _ _ _ H)
    as (packed & marker & Hp & Hh & _ & _ & ab & _ & Hm & Ha).
  exists packed, marker. split; [exact Hp|]. split; [exact Hh|].
  rewrite Hm. simpl. f_equal. apply Ha. reflexivity.
Defined.

(** C4 at concrete inputs, on a client whose vault address is set: the
    payload of an order carries the vault address, the payload of an
    account-level transfer carries null. *)
Lemma post_action_payload_fields_witness :
  vault_address (self standin_state_with_vault)
  = Some "0x00000000000000000000000000000000000000bb"
  /\ (exists payload,
        standin_payload (VDict [("type", VStr "order"); ("orders", VList []);
                                ("grouping", VStr "na")])
          1700000000000 standin_state_with_vault
        = (Ok payload, standin_state_with_vault)
        /\ subscript payload "vaultAddress"
           = Ok (VStr "0x00000000000000000000000000000000000000bb")
        /\ subscript payload "nonce" = Ok (VInt 1700000000000))
  /\ (exists payload,
        standin_payload
          (VDict [("type", VStr "usdClassTransfer"); ("amount", VStr "1");
                  ("toPerp", VBool true)]) 1700000000000 standin_state_with_vault
        = (Ok payload, standin_state_with_vault)
        /\ subscript payload "vaultAddress" = Ok VNone
        /\ subscript payload "nonce" = Ok (VInt 1700000000000)).
Proof.
  split; [reflexivity|]. split.
  - eexists.
    assert (standin_payload
              (VDict [("type", VStr "order"); ("orders", VList []);
                      ("grouping", VStr "na")])
              1700000000000 standin_state_with_vault
            = (Ok _, standin_state_with_vault)) as H by reflexivity.
    split; [exact H|].
    destruct (post_action_payload_fields standin_keccak standin_packb
                standin_encode_structured_data standin_exchange _ _ _ _ _ H)
      as (signature & type & vault & _ & Ht & Hp & _ & Hv & _ & _).
    injection Ht as <-. specialize (Hv ltac:(discriminate)). cbn in Hv.
    rewrite Hp, Hv. split; reflexivity.
  - eexists.
    assert (standin_payload
              (VDict [("type", VStr "usdClassTransfer"); ("amount", VStr "1");
                      ("toPerp", VBool true)]) 1700000000000
              standin_state_with_vault
            = (Ok _, standin_state_with_vault)) as H by reflexivity.
    split; [exact H|].
    destruct (post_action_payload_fields standin_keccak standin_packb
                standin_encode_structured_data standin_exchange _ _ _ _ _ H)
      as (signature & type & vault & _ & Ht & Hp & Hv & _ & _ & _).
    injection Ht as <-. specialize (Hv eq_refl).
    rewrite Hp, Hv. split; reflexivity.
Defined.

(** C5 amended, at concrete inputs: 0.123456789 rounds to 0.12345679,
    which differs from it by about 1e-9, and is rejected; 0.1 passes the
    check and is written ["0.1"], which spells 10000000 / 10 ^ 8. *)
Lemma float_to_wire_precision_check_witness :
  (nearest_1e8 float_0_123456789 12345679
   /\ differs_by_1e_12 (float_of_ratio false 12345679 (10 ^ 8)) float_0_123456789
      = true
   /\ float_to_wire float_0_123456789
      = Raise (ValueError "float_to_wire causes rounding"
                 (VFloat float_0_123456789)))
  /\ (nearest_1e8 float_0_1 10000000
      /\ differs_by_1e_12 (float_of_ratio false 10000000 (10 ^ 8)) float_0_1 = false
      /\ float_to_wire float_0_1 = Ok "0.1"
      /\ plain_fixed_point "0.1"
      /\ exists r,
           read_decimal "0.1" = Some r
           /\ read_negative r = false
           /\ read_digits r * 10 ^ 8 = 10000000 * 10 ^ Z.of_nat (read_decimals r)).
Proof.
  assert (nearest_1e8 float_0_123456789 12345679) as Hn1.
  { split; [intros H; discriminate H|intros H; discriminate H]. }
  assert (nearest_1e8 float_0_1 10000000) as Hn2.
  { split; [intros H; discriminate H|intros H; discriminate H]. }
  split.
  - destruct (float_to_wire_precision_check float_0_123456789 12345679
                eq_refl eq_refl Hn1) as (Hr & _ & _ & _).
    split; [exact Hn1|]. split; [reflexivity|]. apply Hr. reflexivity.
  - destruct (float_to_wire_precision_check float_0_1 10000000
                eq_refl eq_refl Hn2) as (_ & _ & _ & Hok).
    destruct (Hok eq_refl) as (s & Hs & Hp & _ & Hv).
    assert (float_to_wire float_0_1 = Ok "0.1") as Hw by reflexivity.
    rewrite Hw in Hs. injection Hs as <-.
    destruct (Hv ltac:(reflexivity)) as (r & Hr & Hsg & _ & Hd).
    split; [exact Hn2|]. split; [reflexivity|]. split; [exact Hw|].
    split; [exact Hp|]. exists r. split; [exact Hr|]. split; [exact Hsg|exact Hd].
Defined.

(** C5, the claim as stated fails: the float nearest to 12345678.3 is
    written ["12345678.3"] although its value differs from its rounding
    to eight decimals, 12345678.30000000, by about 7.5e-10, more than
    1e-12.  The rounded text reads back as the same float, and the check
    compares floats. *)
Lemma float_to_wire_accepts_inexact_value :
  nearest_1e8 float_12345678_3 1234567830000000
  /\ value_differs_by_1e_12 float_12345678_3 1234567830000000
  /\ float_of_ratio false 1234567830000000 (10 ^ 8) = float_12345678_3
  /\ float_to_wire float_12345678_3 = Ok "12345678.3".
Proof.
  split; [split; intros H; discriminate H|].
  split; [intros H; discriminate H|].
  split; reflexivity.
Qed.

(** C6, the claim as stated fails: the same [place_order] call on the same
    client submits with nonce 1000 under one clock and 2000 under another;
    its caller supplied neither. *)
Lemma place_order_nonce_from_clock :
  sent_nonces
    (standin_run 1000
       (Call_place_order "ETH" true float_0_1 float_1100 limit_gtc false)
       standin_state).2
  = [VInt 1000]
  /\ sent_nonces
       (standin_run 2000
          (Call_place_order "ETH" true float_0_1 float_1100 limit_gtc false)
          standin_state).2
     = [VInt 2000].
Proof. split; reflexivity. Qed.

(** C6 amended, at a concrete input: the demo's order returns, after one
    reading of the clock and one request, whose nonce is the reading. *)
Lemma submission_nonce_witness :
  nonce_of_call (standin_clock 1000)
    (Call_place_order "ETH" true float_0_1 float_1100 limit_gtc false)
    standin_state
  = Some 1000
  /\ (standin_run 1000
        (Call_place_order "ETH" true float_0_1 float_1100 limit_gtc false)
        standin_state).1
     = Ok (VDict [("status", VStr "ok")])
  /\ submitted_once standin_keccak standin_packb
       standin_encode_structured_data standin_state 1 1000
       (standin_run 1000
          (Call_place_order "ETH" true float_0_1 float_1100 limit_gtc false)
          standin_state).2
  /\ sent_nonces
       (standin_run 1000
          (Call_place_order "ETH" true float_0_1 float_1100 limit_gtc false)
          standin_state).2
     = [VInt 1000].
Proof.
  split; [reflexivity|]. split; [reflexivity|]. split; [|reflexivity].
  pose proof (submission_nonce standin_keccak standin_packb
                standin_encode_structured_data standin_from_key
                (standin_clock 1000) standin_exchange
                (Call_place_order "ETH" true float_0_1 float_1100 limit_gtc false)
                standin_state 1000 eq_refl) as H.
  exact H.
Defined.

(** C7, the claim as stated fails: for a signer that returns
    [r = 2 ^ 240 + 1] the returned r has 61 hexadecimal digits, not 64. *)
Lemma signature_r_not_fixed_width :
  (standin_sign standin_wallet (VDict [("type", VStr "order")]) None
     1700000000000 true standin_state).1
  = Ok (VDict
          [("r", VStr "0x1000000000000000000000000000000000000000000000000000000000001");
           ("s", VStr "0x8000000000000000000000000000000000000000000000000000000000000002");
           ("v", VInt 27)])
  /\ String.length "0x1000000000000000000000000000000000000000000000000000000000001"
     = 63%nat.
Proof. split; reflexivity. Qed.

(** C7 amended, at a concrete input. *)
Lemma signature_triple_unpadded_witness :
  exists (signed : SignedMessage) (r s : string),
    (standin_sign standin_wallet (VDict [("type", VStr "order")]) None
       1700000000000 true standin_state).1
    = Ok (VDict [("r", VStr r); ("s", VStr s); ("v", VInt (sig_v signed))])
    /\ unpadded_hex (2 ^ 240 + 1) r
    /\ unpadded_hex (2 ^ 255 + 2) s
    /\ String.length r = 63%nat
    /\ String.length s = 66%nat.
Proof.
  destruct (signature_triple_unpadded standin_keccak standin_packb
              standin_encode_structured_data standin_wallet
              (VDict [("type", VStr "order")]) None 1700000000000 true
              standin_state _ eq_refl)
    as (sd & signed & r & s & Hsig & Heq & Hr & Hs).
  injection Hsig as <-. injection Heq as <- <-.
  eexists _, _, _. split; [reflexivity|].
  destruct Hr as (Hr & _); [cbn; lia|].
  destruct Hs as (Hs & _); [cbn; lia|].
  split; [exact Hr|]. split; [exact Hs|]. split; reflexivity.
Defined.

(** C9, the claim as stated fails: a 400 response whose body is the empty
    JSON object raises [KeyError], not [ClientError]. *)
Lemma handle_exception_empty_object :
  _handle_exception
    {| status := 400; headers := VDict []; text := "{}"; json := Ok (VDict []) |}
  = Raise (KeyError (VStr "code")).
Proof. reflexivity. Qed.

(** C9 amended, at the specification's scenario: status 400 and a body
    with code X and message bad nonce. *)
Lemma handle_exception_classifies_witness :
  status bad_nonce_response = 400
  /\ _handle_exception bad_nonce_response
     = Raise (ClientError 400 (VStr "X") (VStr "bad nonce") (VDict []) VNone).
Proof.
  split; [reflexivity|].
  apply (proj1 (proj2 (handle_exception_classifies bad_nonce_response))
           ltac:(cbn; lia)
           [("code", VStr "X"); ("msg", VStr "bad nonce")] (VStr "X") (VStr "bad nonce")
           eq_refl eq_refl eq_refl).
Defined.

(** C10 at a concrete input: construct the client, enter it, place an order
    and let the event loop run the pending leverage update. *)
Lemma vault_address_never_set_witness :
  let σ :=
    standin_run_all
      [Call_aenter;
       Call_place_order "ETH" true float_0_1 float_1100 limit_gtc false;
       Run_task 0]
      {| self := standin_initial_client; env := initial_world |} in
  standin_reachable σ
  /\ List.length (requests (env σ)) = 3%nat
  /\ vault_address (self σ) = None
  /\ forall req, In req (requests (env σ)) ->
       url req = exchange_url ->
       vaultless_submission standin_keccak standin_packb
         standin_encode_structured_data (wallet (self σ)) req.
Proof.
  cbv zeta.
  assert (standin_reachable
            (standin_run_all
               [Call_aenter;
                Call_place_order "ETH" true float_0_1 float_1100 limit_gtc false;
                Run_task 0]
               {| self := standin_initial_client; env := initial_world |})) as H.
  { cbn [run_all]. do 3 apply reachable_call.
    now apply (reachable_init _ _ _ _ _ _ standin_config). }
  split; [exact H|]. split; [reflexivity|].
  exact (vault_address_never_set _ _ _ _ _ _ _ H).
Defined.

(** ** Further results at concrete inputs *)

(** X1 at a concrete input: -1e-13 passes the check and is written ["-0"]. *)
Lemma float_to_wire_rounds_to_zero_witness :
  magnitude8 float_minus_1e_13 = 0
  /\ precision_lost float_minus_1e_13 = false
  /\ float_to_wire float_minus_1e_13 = Ok "-0".
Proof.
  split; [reflexivity|]. split; [reflexivity|].
  apply (float_to_wire_rounds_to_zero float_minus_1e_13); reflexivity.
Defined.

(** X2 at a concrete input: positive infinity. *)
Lemma float_to_wire_not_finite_witness :
  float_to_wire (S754_infinity false) = Ok "Infinity".
Proof. apply (float_to_wire_not_finite (S754_infinity false)). reflexivity. Defined.

(** X4 at a concrete input: a 404 with a plain-text body. *)
Lemma handle_exception_unparsed_body_witness :
  _handle_exception not_found_response
  = Raise (ClientError 404 VNone (VStr "Not Found") VNone
             (VDict [("Content-Type", VStr "text/plain")])).
Proof.
  apply (handle_exception_unparsed_body not_found_response);
    [cbn; lia|left; reflexivity].
Defined.

(** X5 at a concrete input: a query with no payload against the stand-in
    exchange. *)
Lemma post_returns_body_witness :
  (post standin_exchange "/info" VNone standin_state).1
  = Ok (VDict [("status", VStr "ok")])
  /\ requests (env (post standin_exchange "/info" VNone standin_state).2)
     = [{| url := info_url; json_body := VDict [] |}].
Proof.
  destruct (post_returns_body standin_exchange "/info" VNone standin_state
              {| status := 200; headers := VDict []; text := EmptyString;
                 json := Ok (VDict [("status", VStr "ok")]) |})
    as (Hr & _ & Hv & _); [discriminate|reflexivity|cbn; lia|].
  split; [apply Hv; reflexivity|exact Hr].
Defined.

(** X6 at a concrete input: the exchange refuses with status 400. *)
Lemma post_raises_on_error_status_witness :
  exists e,
    _handle_exception bad_nonce_response = Raise e
    /\ (post standin_refusing_exchange "/exchange" VNone standin_state).1 = Raise e
    /\ requests (env (post standin_refusing_exchange "/exchange" VNone
                        standin_state).2)
       = [{| url := exchange_url; json_body := VDict [] |}].
Proof.
  apply (post_raises_on_error_status standin_refusing_exchange "/exchange" VNone
           standin_state bad_nonce_response);
    [discriminate|reflexivity|cbn; lia].
Defined.

(** X7 at a concrete input: the stand-in client after [__aexit__]. *)
Lemma post_after_exit_witness :
  requests (env (__aexit__ standin_state).2) = []
  /\ post standin_exchange "/info" VNone (__aexit__ standin_state).2
     = (Raise (RuntimeError "Session is closed"), (__aexit__ standin_state).2).
Proof.
  apply (post_after_exit standin_exchange "/info" VNone standin_state).
  discriminate.
Defined.

(** X8 at a concrete input: entering against the stand-in exchange
    registers ETH as asset 0 and nothing under BTC. *)
Lemma aenter_registry_witness :
  exists assets,
    coin_to_asset (self standin_state) = Some assets
    /\ assets !! "ETH" = Some 0
    /\ assets !! "BTC" = None.
Proof.
  destruct (aenter_registry standin_exchange
              {| self := standin_initial_client; env := initial_world |}
              {| self := standin_client;
                 env := {| clock_reads := 0;
                           requests := [{| url := info_url;
                                           json_body := VDict [("type", VStr "meta")] |}];
                           tasks := [{| task_asset_name := "ETH";
                                        task_leverage := VInt 50 |}] |} |}
              eq_refl)
    as (meta_data & listed & universe & assets & infos
        & Hm & Hu & Hit & Ha & _ & Hout & Hin).
  exists assets. split; [exact Ha|].
  injection Hm as <-. injection Hu as <-. injection Hit as <-.
  split.
  - apply (Hin 0%nat (VDict [("name", VStr "ETH"); ("maxLeverage", VInt 50)]) "ETH");
      [reflexivity|reflexivity|constructor].
  - apply (Hout "BTC"). repeat constructor. discriminate.
Defined.

(** X9 at a concrete input: one task, for ETH at leverage 50. *)
Lemma aenter_schedules_max_leverage_witness :
  exists meta_data listed universe ts,
    (meta standin_exchange
       (set_session (Some SessionOpen)
          {| self := standin_initial_client; env := initial_world |}).2).1
    = Ok meta_data
    /\ subscript meta_data "universe" = Ok listed
    /\ iterate listed = Ok universe
    /\ [{| task_asset_name := "ETH"; task_leverage := VInt 50 |}] = [] ++ ts
    /\ Forall2 task_for universe ts.
Proof.
  apply (aenter_schedules_max_leverage standin_exchange
           {| self := standin_initial_client; env := initial_world |}
           {| self := standin_client;
              env := {| clock_reads := 0;
                        requests := [{| url := info_url;
                                        json_body := VDict [("type", VStr "meta")] |}];
                        tasks := [{| task_asset_name := "ETH";
                                     task_leverage := VInt 50 |}] |} |}).
  reflexivity.
Defined.

(** X10 at a concrete input: the exchange refuses the [meta] query. *)
Lemma aenter_failure_schedules_nothing_witness :
  (__aenter__ standin_refusing_exchange
     {| self := standin_initial_client; env := initial_world |}).1
  = Raise (ClientError 400 (VStr "X") (VStr "bad nonce") (VDict []) VNone)
  /\ tasks (env (__aenter__ standin_refusing_exchange
                   {| self := standin_initial_client; env := initial_world |}).2)
     = [].
Proof.
  split; [reflexivity|].
  apply (aenter_failure_schedules_nothing standin_refusing_exchange
           {| self := standin_initial_client; env := initial_world |} _
           (ClientError 400 (VStr "X") (VStr "bad nonce") (VDict []) VNone)).
  reflexivity.
Defined.

(** X11 at concrete inputs: an order for a coin that is not registered,
    and the demo's order for ETH. *)
Lemma place_order_validates_first_witness :
  standin_run 1700000000000
    (Call_place_order "BTC" true float_0_1 float_1100 limit_gtc false) standin_state
  = (Raise (KeyError (VStr "BTC")), standin_state)
  /\ standin_run 1700000000000
       (Call_place_order "ETH" true float_0_1 float_1100 limit_gtc false)
       standin_state
     = standin_run 1700000000000
         (Call_post_action
            (VDict [("type", VStr "order");
                    ("orders",
                      VList [VDict [("a", VInt 0); ("b", VBool true);
                                    ("p", VStr "1100"); ("s", VStr "0.1");
                                    ("r", VBool false); ("t", limit_gtc)]]);
                    ("grouping", VStr "na")])
            1700000000000)
         (tick standin_state).2.
Proof.
  split.
  - apply (place_order_validates_first standin_keccak standin_packb
             standin_encode_structured_data (standin_clock 1700000000000)
             standin_exchange "BTC" true float_0_1 float_1100 limit_gtc false
             standin_state {[ "ETH" := 0 ]} eq_refl).
  - apply (place_order_validates_first standin_keccak standin_packb
             standin_encode_structured_data (standin_clock 1700000000000)
             standin_exchange "ETH" true float_0_1 float_1100 limit_gtc false
             standin_state {[ "ETH" := 0 ]} eq_refl).
Defined.

(** X12 at a concrete input: leverage 51 for ETH, whose maximum is 50. *)
Lemma update_leverage_guard_witness :
  standin_run 1700000000000 (Call_update_leverage "ETH" (VInt 51) true)
    standin_state
  = (Raise (ValueError "Leverage exceeds maximum allowed leverage" (VInt 51)),
     standin_state).
Proof.
  apply (update_leverage_guard standin_keccak standin_packb
           standin_encode_structured_data (standin_clock 1700000000000)
           standin_exchange "ETH" 51 50 true standin_state
           {[ "ETH" := VDict [("name", VStr "ETH"); ("maxLeverage", VInt 50)] ]}
           (VDict [("name", VStr "ETH"); ("maxLeverage", VInt 50)])
           eq_refl eq_refl eq_refl).
  lia.
Defined.

(** X13 at a concrete input: the client built from the stand-in
    configuration. *)
Lemma trading_before_aenter_witness :
  standin_run 1700000000000
    (Call_place_order "ETH" true float_0_1 float_1100 limit_gtc false)
    {| self := standin_initial_client; env := initial_world |}
  = (Raise (AttributeError "coin_to_asset"),
     {| self := standin_initial_client; env := initial_world |}).
Proof.
  destruct (trading_before_aenter standin_keccak standin_packb
              standin_encode_structured_data standin_from_key
              (standin_clock 1700000000000) standin_exchange
              standin_config standin_initial_client initial_world eq_refl)
    as [H _].
  exact (H "ETH" true float_0_1 float_1100 limit_gtc false).
Defined.

(** X14 at a concrete input: the demo's order as a batch of one. *)
Lemma place_orders_singleton_witness :
  standin_run 1700000000000 (Call_place_orders (VList [standin_order_request]))
    standin_state
  = standin_run 1700000000000
      (Call_place_order "ETH" true float_0_1 float_1100 limit_gtc false)
      standin_state.
Proof.
  apply (place_orders_singleton standin_keccak standin_packb
           standin_encode_structured_data (standin_clock 1700000000000)
           standin_exchange); reflexivity.
Defined.

(** X15 at a concrete input: one cancellation as a batch of one. *)
Lemma cancel_orders_singleton_witness :
  standin_run 1700000000000 (Call_cancel_orders (VList [standin_cancel_request]))
    standin_state
  = standin_run 1700000000000 (Call_cancel_order "ETH" (VInt 7)) standin_state.
Proof.
  apply (cancel_orders_singleton standin_keccak standin_packb
           standin_encode_structured_data (standin_clock 1700000000000)
           standin_exchange); reflexivity.
Defined.

(** X16 at a concrete input: a cancellation for a coin that is not
    registered. *)
Lemma cancel_order_unknown_coin_witness :
  standin_run 1700000000000 (Call_cancel_order "BTC" (VInt 7)) standin_state
  = (Raise (KeyError (VStr "BTC")), (tick standin_state).2).
Proof.
  apply (cancel_order_unknown_coin standin_keccak standin_packb
           standin_encode_structured_data (standin_clock 1700000000000)
           standin_exchange "BTC" (VInt 7) standin_state {[ "ETH" := 0 ]});
    reflexivity.
Defined.

(** X17 at a concrete input: a 40-digit address with and without prefix. *)
Lemma vault_address_prefix_optional_witness :
  standin_hash (VDict [("type", VStr "order")])
    (Some "0x00000000000000000000000000000000000000aa") 1700000000000
  = standin_hash (VDict [("type", VStr "order")])
      (Some "00000000000000000000000000000000000000aa") 1700000000000.
Proof.
  apply (vault_address_prefix_optional standin_keccak standin_packb
           (VDict [("type", VStr "order")])
           "00000000000000000000000000000000000000aa" 1700000000000).
  reflexivity.
Defined.

(** X18 at a concrete input: the nonce [2 ^ 64]. *)
Lemma post_action_nonce_out_of_range_witness :
  exists msg,
    standin_run 0 (Call_post_action (VDict [("type", VStr "order")]) (2 ^ 64))
      standin_state
    = (Raise (OverflowError msg), standin_state).
Proof.
  apply (post_action_nonce_out_of_range standin_keccak standin_packb
           standin_encode_structured_data standin_exchange
           (VDict [("type", VStr "order")]) (2 ^ 64) standin_state);
    [reflexivity|lia].
Defined.

(** X21 at a concrete input: [user_state] on the stand-in client. *)
Lemma queries_are_unsigned_witness :
  clock_reads (env (standin_run 0 Call_user_state standin_state).2) = 0%nat
  /\ requests (env (standin_run 0 Call_user_state standin_state).2)
     = [{| url := info_url;
           json_body := VDict [("type", VStr "clearinghouseState");
                               ("user", VStr "0x00000000000000000000000000000000000000aa")] |}].
Proof.
  destruct (queries_are_unsigned standin_keccak standin_packb
              standin_encode_structured_data standin_from_key (standin_clock 0)
              standin_exchange Call_user_state standin_state eq_refl) as [Hc _].
  split; [exact Hc|reflexivity].
Defined.
